(** * Dillar Academy back end: users, classes, enrollment and the IdP mirror

    A shallow embedding of the Express handlers of [api/routes/user-routes.js]
    and of the enrollment handlers of [api/index.js], over an explicit model of
    the two MongoDB collections, of the identity provider (Clerk) and of the
    failures of the calls that cross those two boundaries. *)

From Stdlib Require Import ZArith QArith Lia Ascii String.
From stdpp Require Import base option list gmap strings.

Local Close Scope Q_scope.
Local Open Scope string_scope.
Local Open Scope list_scope.

(** ** JavaScript numbers, as far as the pagination guards use them

    [Number(x)] yields a double; the guards only compare, select and default,
    so a number is modelled as an exact rational, an infinity or NaN.
    Rounding of the one product [(page - 1) * limit] is not modelled. *)

Inductive num : Type :=
| NaN
| NegInf
| Fin (q : Q)
| PosInf.

(** ToBoolean on a number: NaN and zero are falsy. *)
Definition truthy (n : num) : bool :=
  match n with
  | NaN => false
  | Fin q => negb (Qeq_bool q 0)
  | NegInf | PosInf => true
  end.

(** [a || b] on numbers. *)
Definition js_or (a b : num) : num := if truthy a then a else b.

(** [a <= b]; every comparison with NaN is false. *)
Definition num_leb (a b : num) : bool :=
  match a, b with
  | NaN, _ | _, NaN => false
  | NegInf, _ => true
  | _, PosInf => true
  | Fin x, Fin y => Qle_bool x y
  | _, _ => false
  end.

Definition Math_max (a b : num) : num :=
  match a, b with
  | NaN, _ | _, NaN => NaN
  | _, _ => if num_leb a b then b else a
  end.

Definition Math_min (a b : num) : num :=
  match a, b with
  | NaN, _ | _, NaN => NaN
  | _, _ => if num_leb a b then a else b
  end.

Definition num_sub (a b : num) : num :=
  match a, b with
  | NaN, _ | _, NaN => NaN
  | PosInf, PosInf | NegInf, NegInf => NaN
  | PosInf, _ | _, NegInf => PosInf
  | NegInf, _ | _, PosInf => NegInf
  | Fin x, Fin y => Fin (Qred (x - y))
  end.

Definition Qsign (q : Q) : Z := Z.sgn (Qnum q).

Definition inf_of_sign (s : Z) : num :=
  match s with
  | Z0 => NaN
  | Zpos _ => PosInf
  | Zneg _ => NegInf
  end.

Definition num_sign (a : num) : Z :=
  match a with
  | NaN => 0
  | NegInf => -1
  | PosInf => 1
  | Fin q => Qsign q
  end.

Definition num_mul (a b : num) : num :=
  match a, b with
  | NaN, _ | _, NaN => NaN
  | Fin x, Fin y => Fin (Qred (x * y))
  | _, _ => inf_of_sign (num_sign a * num_sign b)
  end.

Definition of_Z (z : Z) : num := Fin (inject_Z z).

(** [Number(s)] for the request parameters the handlers coerce.  Covered:
    an absent parameter (NaN), the empty string (0), [Infinity] with an
    optional sign, and decimal integers with an optional sign.  Fractions,
    exponents, hexadecimal and surrounding white space are not parsed here and
    read as NaN; the guards below are stated for every [num], whatever
    [Number] produced it. *)

Definition digit (c : ascii) : option Z :=
  let n := Z.of_N (N_of_ascii c) in
  if ((48 <=? n) && (n <=? 57))%Z then Some (n - 48)%Z else None.

Fixpoint digits (s : string) (acc : Z) : option Z :=
  match s with
  | EmptyString => Some acc
  | String c r =>
      match digit c with
      | Some d => digits r (10 * acc + d)%Z
      | None => None
      end
  end.

Definition unsigned_literal (s : string) : num :=
  match s with
  | EmptyString => NaN
  | _ =>
      if String.eqb s "Infinity" then PosInf
      else match digits s 0 with
           | Some z => of_Z z
           | None => NaN
           end
  end.

Definition num_neg (a : num) : num :=
  match a with
  | NaN => NaN
  | NegInf => PosInf
  | PosInf => NegInf
  | Fin q => Fin (Qred (- q))
  end.

Definition Number (v : option string) : num :=
  match v with
  | None => NaN
  | Some EmptyString => of_Z 0
  | Some (String "-"%char r) => num_neg (unsigned_literal r)
  | Some (String "+"%char r) => unsigned_literal r
  | Some s => unsigned_literal s
  end.

(** ** Object ids

    An ObjectId is a 96-bit value; on the wire it is a string of 24
    hexadecimal digits. [castObjectId] is the driver's cast of such a string,
    and [isValid] is [mongoose.Types.ObjectId.isValid] on strings. *)

Abbreviation ObjectId := N (only parsing).

Definition hexDigit (c : ascii) : option N :=
  let n := N_of_ascii c in
  if ((48 <=? n) && (n <=? 57))%N then Some (n - 48)%N
  else if ((97 <=? n) && (n <=? 102))%N then Some (n - 87)%N
  else if ((65 <=? n) && (n <=? 70))%N then Some (n - 55)%N
  else None.

Fixpoint hexValue (s : string) (acc : N) : option N :=
  match s with
  | EmptyString => Some acc
  | String c r =>
      match hexDigit c with
      | Some d => hexValue r (16 * acc + d)%N
      | None => None
      end
  end.

Definition castObjectId (s : string) : option ObjectId :=
  if Nat.eqb (String.length s) 24 then hexValue s 0%N else None.

Definition isValid (s : string) : bool :=
  match castObjectId s with
  | Some _ => true
  | None => false
  end.

(** [ObjectId.prototype.toString]: 24 lower-case hexadecimal digits. *)
Definition hexChar (d : N) : ascii :=
  if (d <? 10)%N then ascii_of_N (48 + d) else ascii_of_N (87 + d).

Fixpoint hexDigits (n : nat) (o : N) (acc : string) : string :=
  match n with
  | O => acc
  | S n' => hexDigits n' (o / 16)%N (String (hexChar (o mod 16)%N) acc)
  end.

Definition toHexString (o : ObjectId) : string := hexDigits 24 o EmptyString.

(** ** JSON values: lean documents and response bodies *)

#[local] Unset Elimination Schemes.
Inductive JVal : Type :=
| JNull
| JBool (b : bool)
| JNum (n : num)
| JStr (s : string)
| JDate (ms : Z)
| JOid (o : ObjectId)
| JArr (items : list JVal)
| JObj (fields : list (string * JVal)).
#[local] Set Elimination Schemes.

Definition Doc := list (string * JVal).

Fixpoint getField (k : string) (d : Doc) : option JVal :=
  match d with
  | [] => None
  | (k', v) :: r => if String.eqb k k' then Some v else getField k r
  end.

Definition keys (d : Doc) : list string := map fst d.

(** ** Data model *)

(** Modelled from the spec: the three privilege tags of the data model; the
    schema [api/schemas/User.js] that declares them is not part of the
    sources. *)
Inductive Privilege : Type := Student | Instructor | Admin.

Definition privilegeName (p : Privilege) : string :=
  match p with
  | Student => "student"
  | Instructor => "instructor"
  | Admin => "admin"
  end.

Definition parsePrivilege (s : string) : option Privilege :=
  if String.eqb s "student" then Some Student
  else if String.eqb s "instructor" then Some Instructor
  else if String.eqb s "admin" then Some Admin
  else None.

(** Modelled from the spec: the schema [api/schemas/User.js] is not part of
    the sources; the fields are those of the data model (section 3) under the
    names the handlers use ([clerkId] is the IdP subject id).  The [_id] of a
    document is its key in the collection. *)
Record User : Type := mkUser {
  clerkId : string;
  firstName : string;
  lastName : string;
  email : string;
  whatsapp : option string;
  gender : option string;
  privilege : Privilege;
  creationDate : Z;
  enrolledClasses : list ObjectId
}.

(** Modelled from the spec: a level is an integer or one of the tags
    [conversation] and [ielts]. *)
Inductive Level : Type :=
| LevelNum (n : Z)
| Conversation
| Ielts.

Record Slot : Type := mkSlot { day : string; startTime : string; endTime : string }.

(** Modelled from the spec: the schema [api/schemas/Class.js] is not part of
    the sources; the fields are those of the data model (section 3). *)
Record Class : Type := mkClass {
  level : Level;
  ageGroup : string;
  instructor : string;
  schedule : list Slot;
  isEnrollmentOpen : bool;
  image : string;
  link : string;
  roster : list ObjectId
}.

Definition optField (k : string) (v : option string) : Doc :=
  match v with
  | Some s => [(k, JStr s)]
  | None => []
  end.

(** The stored document of a user, as [.lean()] returns it. *)
Definition userDoc (id : ObjectId) (u : User) : Doc :=
  [("_id", JOid id);
   ("clerkId", JStr (clerkId u));
   ("firstName", JStr (firstName u));
   ("lastName", JStr (lastName u));
   ("email", JStr (email u))]
  ++ optField "whatsapp" (whatsapp u)
  ++ optField "gender" (gender u)
  ++ [("privilege", JStr (privilegeName (privilege u)));
      ("creationDate", JDate (creationDate u));
      ("enrolledClasses", JArr (map JOid (enrolledClasses u)))].

Definition levelJson (l : Level) : JVal :=
  match l with
  | LevelNum n => JNum (of_Z n)
  | Conversation => JStr "conversation"
  | Ielts => JStr "ielts"
  end.

Definition slotJson (s : Slot) : JVal :=
  JObj [("day", JStr (day s)); ("startTime", JStr (startTime s)); ("endTime", JStr (endTime s))].

Definition classDoc (id : ObjectId) (c : Class) : Doc :=
  [("_id", JOid id);
   ("level", levelJson (level c));
   ("ageGroup", JStr (ageGroup c));
   ("instructor", JStr (instructor c));
   ("schedule", JArr (map slotJson (schedule c)));
   ("isEnrollmentOpen", JBool (isEnrollmentOpen c));
   ("image", JStr (image c));
   ("link", JStr (link c));
   ("roster", JArr (map JOid (roster c)))].

(** ** The identity provider *)

(** Modelled from the spec: the IdP (Clerk) is an external system that owns
    the email records of each subject; of its contract the handlers use four
    operations (add an email address, read a subject, delete an email address,
    delete a subject). *)
Record EmailAddress : Type := mkEmail {
  emailId : N;
  emailAddress : string;
  verified : bool
}.

Record Subject : Type := mkSubject {
  emailAddresses : list EmailAddress;
  primaryEmailAddressId : option N
}.

Record Idp : Type := mkIdp {
  subjects : gmap string Subject;
  nextEmailId : N
}.

(** ** Boundary calls, their failures and the trace *)

Inductive UserUpdate : Type :=
| AddToSetEnrolled (classId : ObjectId)
| PullEnrolled (classId : ObjectId)
| SetFields (fields : Doc).

Inductive ClassUpdate : Type :=
| AddToSetRoster (userId : ObjectId)
| PullRoster (userId : ObjectId).

Inductive Op : Type :=
| UserFindById (id : ObjectId)
| UserFindOne (filter : list (string * string))
| UserFind (filter : list (string * string))
| UserCountDocuments (filter : list (string * string))
| UserFindByIdAndUpdate (id : ObjectId) (u : UserUpdate)
| UserFindByIdAndDelete (id : ObjectId)
| ClassFindById (id : option ObjectId)
| ClassFindByIdAndUpdate (id : ObjectId) (u : ClassUpdate)
| ClassPopulate
| IdpCreateEmailAddress (subject : string) (address : string) (verified primary : bool)
| IdpGetUser (subject : string)
| IdpDeleteEmailAddress (id : N)
| IdpDeleteUser (subject : string).

(** An event is a call that was issued, with whether it succeeded. *)
Definition Event : Type := Op * bool.

Inductive Error : Type :=
| CastError
| TypeError
| ValidationError
| DuplicateKey
| NotFoundAtIdp
| Unavailable.

(** The world a request runs in.  [faults] scripts the outcome of the
    boundary calls to come, in the order they are issued: [true] makes the
    call fail without effect (store or IdP unreachable, time-out), and an
    exhausted script means no further failure. *)
Record World : Type := mkWorld {
  users : gmap N User;
  classes : gmap N Class;
  idp : Idp;
  trace : list Event;
  faults : list bool
}.

Definition set_users (f : gmap N User → gmap N User) (w : World) : World :=
  mkWorld (f (users w)) (classes w) (idp w) (trace w) (faults w).
Definition set_classes (f : gmap N Class → gmap N Class) (w : World) : World :=
  mkWorld (users w) (f (classes w)) (idp w) (trace w) (faults w).
Definition set_idp (f : Idp → Idp) (w : World) : World :=
  mkWorld (users w) (classes w) (f (idp w)) (trace w) (faults w).
Definition log (e : Event) (w : World) : World :=
  mkWorld (users w) (classes w) (idp w) (trace w ++ [e]) (faults w).
Definition set_faults (fs : list bool) (w : World) : World :=
  mkWorld (users w) (classes w) (idp w) (trace w) fs.

Inductive Outcome (A : Type) : Type :=
| Ret (a : A)
| Raise (e : Error).
Arguments Ret {A} a.
Arguments Raise {A} e.

(** Computations that read and write the world and may throw. *)
Definition M (A : Type) : Type := World → Outcome A * World.

Definition ret {A} (a : A) : M A := λ w, (Ret a, w).
Definition raise {A} (e : Error) : M A := λ w, (Raise e, w).
Definition bind {A B} (m : M A) (k : A → M B) : M B :=
  λ w, match m w with
       | (Ret a, w') => k a w'
       | (Raise e, w') => (Raise e, w')
       end.

Notation "'let*' x := m 'in' k" := (bind m (λ x, k))
  (at level 10, x name, m at level 100, k at level 200, only parsing).

(** [await] of a call across a boundary: the fault script is consulted, the
    call is logged, and [act] is its effect when it goes through. *)
Definition boundary {A} (op : Op) (act : World → Error + (A * World)) : M A :=
  λ w,
    let w0 := set_faults (tail (faults w)) w in
    if hd false (faults w) then (Raise Unavailable, log (op, false) w0)
    else match act w0 with
         | inl e => (Raise e, log (op, false) w0)
         | inr (a, w1) => (Ret a, log (op, true) w1)
         end.

Definition cast (raw : string) : M ObjectId :=
  match castObjectId raw with
  | Some o => ret o
  | None => raise CastError
  end.

(** ** Queries on documents *)

(** JavaScript truthiness of a JSON value. *)
Definition truthyJ (v : option JVal) : bool :=
  match v with
  | None | Some JNull => false
  | Some (JBool b) => b
  | Some (JNum n) => truthy n
  | Some (JStr s) => negb (String.eqb s "")
  | Some _ => true
  end.

(** One equality condition of a filter object on a document. *)
Definition fieldMatches (d : Doc) (kv : string * string) : bool :=
  match getField (fst kv) d with
  | Some (JStr s) => String.eqb s (snd kv)
  | Some (JOid o) =>
      match castObjectId (snd kv) with
      | Some o' => N.eqb o o'
      | None => false
      end
  | _ => false
  end.

Definition matches (flt : list (string * string)) (d : Doc) : bool :=
  forallb (fieldMatches d) flt.

(** A filter on [_id] whose value is no ObjectId makes the query throw. *)
Definition filterCastable (flt : list (string * string)) : bool :=
  forallb (λ kv, if String.eqb (fst kv) "_id" then isValid (snd kv) else true) flt.

(** The field names of a select string such as ["firstName lastName"]. *)
Fixpoint words_from (cur : string) (s : string) : list string :=
  match s with
  | EmptyString => if String.eqb cur "" then [] else [cur]
  | String c r =>
      if Ascii.eqb c " "
      then (if String.eqb cur "" then words_from "" r else cur :: words_from "" r)
      else words_from (cur ++ String c EmptyString) r
  end.

Definition words (s : string) : list string := words_from "" s.

Definition selected (sel : string) (k : string) : bool :=
  String.eqb k "_id" || existsb (String.eqb k) (words sel).

(** [.select(sel)] with an inclusive field list: the listed paths, and
    [_id], which an inclusive projection keeps unless it is excluded by
    name. *)
Definition select (sel : string) (d : Doc) : Doc :=
  List.filter (λ kv, selected sel (fst kv)) d.

(** The documents of the User collection, in the order the store
    enumerates them. *)
Definition allUsers (w : World) : list (N * User) := map_to_list (users w).

Definition userMatches (flt : list (string * string)) (p : N * User) : bool :=
  matches flt (userDoc (fst p) (snd p)).

(** [User.findById(id)] *)
Definition User_findById (raw : string) : M (option (N * User)) :=
  let* id := cast raw in
  boundary (UserFindById id) (λ w, inr (pair id <$> users w !! id, w)).

(** [User.findOne(filter)]: the first document that matches. *)
Definition User_findOne (flt : list (string * string)) : M (option (N * User)) :=
  if filterCastable flt
  then boundary (UserFindOne flt) (λ w, inr (List.find (userMatches flt) (allUsers w), w))
  else raise CastError.

(** [skip] and [limit] must be non-negative integers for the store to take
    them. *)
Definition asCount (n : num) : option nat :=
  match n with
  | Fin q =>
      match Qred q with
      | Qmake z 1 => if (0 <=? z)%Z then Some (Z.to_nat z) else None
      | _ => None
      end
  | _ => None
  end.

(** [User.find(filter).select(sel).skip(skip).limit(limit)] *)
Definition User_find (flt : list (string * string)) (sel : string) (skip limit : num)
  : M (list Doc) :=
  if filterCastable flt
  then boundary (UserFind flt)
         (λ w, match asCount skip, asCount limit with
               | Some s, Some l =>
                   inr (map (λ p, select sel (userDoc (fst p) (snd p)))
                          (take l (drop s (List.filter (userMatches flt) (allUsers w)))), w)
               | _, _ => inl ValidationError
               end)
  else raise CastError.

(** [User.countDocuments(filter)] *)
Definition User_countDocuments (flt : list (string * string)) : M nat :=
  if filterCastable flt
  then boundary (UserCountDocuments flt)
         (λ w, inr (length (List.filter (userMatches flt) (allUsers w)), w))
  else raise CastError.

(** [$addToSet] and [$pull] on an array of ids. *)
Definition addToSet (x : ObjectId) (l : list ObjectId) : list ObjectId :=
  if decide (x ∈ l) then l else l ++ [x].

Definition pull (x : ObjectId) (l : list ObjectId) : list ObjectId :=
  filter (λ y, y ≠ x) l.

Definition withEnrolled (f : list ObjectId → list ObjectId) (u : User) : User :=
  mkUser (clerkId u) (firstName u) (lastName u) (email u) (whatsapp u) (gender u)
    (privilege u) (creationDate u) (f (enrolledClasses u)).

Definition withRoster (f : list ObjectId → list ObjectId) (c : Class) : Class :=
  mkClass (level c) (ageGroup c) (instructor c) (schedule c) (isEnrollmentOpen c)
    (image c) (link c) (f (roster c)).

Fixpoint castIds (l : list JVal) : option (list ObjectId) :=
  match l with
  | [] => Some []
  | JStr s :: r =>
      match castObjectId s, castIds r with
      | Some o, Some os => Some (o :: os)
      | _, _ => None
      end
  | JOid o :: r =>
      match castIds r with
      | Some os => Some (o :: os)
      | None => None
      end
  | _ => None
  end.

(** Whether another user already holds this email (unique index). *)
Definition emailTaken (us : gmap N User) (id : ObjectId) (e : string) : bool :=
  existsb (λ p, negb (N.eqb (fst p) id) && String.eqb (email (snd p)) e) (map_to_list us).

(** One path of a plain update object, with the schema's casts and
    validators: paths the schema does not know are dropped (so are the
    operator keys, which the sanitizer strips before the route runs), an
    unknown privilege is rejected, and so is an email another user holds.
    Whether a path may be emptied is not modelled, the schema being absent. *)
Definition setField (us : gmap N User) (id : ObjectId) (u : User) (kv : string * JVal)
  : Error + User :=
  let k := fst kv in
  let v := snd kv in
  if String.eqb k "firstName" then
    match v with
    | JStr s => inr (mkUser (clerkId u) s (lastName u) (email u) (whatsapp u) (gender u)
                       (privilege u) (creationDate u) (enrolledClasses u))
    | _ => inl CastError
    end
  else if String.eqb k "lastName" then
    match v with
    | JStr s => inr (mkUser (clerkId u) (firstName u) s (email u) (whatsapp u) (gender u)
                       (privilege u) (creationDate u) (enrolledClasses u))
    | _ => inl CastError
    end
  else if String.eqb k "email" then
    match v with
    | JStr s =>
        if emailTaken us id s then inl DuplicateKey
        else inr (mkUser (clerkId u) (firstName u) (lastName u) s (whatsapp u) (gender u)
                    (privilege u) (creationDate u) (enrolledClasses u))
    | _ => inl CastError
    end
  else if String.eqb k "whatsapp" then
    match v with
    | JStr s => inr (mkUser (clerkId u) (firstName u) (lastName u) (email u) (Some s) (gender u)
                       (privilege u) (creationDate u) (enrolledClasses u))
    | _ => inl CastError
    end
  else if String.eqb k "gender" then
    match v with
    | JStr s => inr (mkUser (clerkId u) (firstName u) (lastName u) (email u) (whatsapp u) (Some s)
                       (privilege u) (creationDate u) (enrolledClasses u))
    | _ => inl CastError
    end
  else if String.eqb k "privilege" then
    match v with
    | JStr s =>
        match parsePrivilege s with
        | Some p => inr (mkUser (clerkId u) (firstName u) (lastName u) (email u) (whatsapp u)
                           (gender u) p (creationDate u) (enrolledClasses u))
        | None => inl ValidationError
        end
    | _ => inl ValidationError
    end
  else if String.eqb k "clerkId" then
    match v with
    | JStr s => inr (mkUser s (firstName u) (lastName u) (email u) (whatsapp u) (gender u)
                       (privilege u) (creationDate u) (enrolledClasses u))
    | _ => inl CastError
    end
  else if String.eqb k "creationDate" then
    match v with
    | JDate d => inr (mkUser (clerkId u) (firstName u) (lastName u) (email u) (whatsapp u)
                        (gender u) (privilege u) d (enrolledClasses u))
    | _ => inl CastError
    end
  else if String.eqb k "enrolledClasses" then
    match v with
    | JArr l =>
        match castIds l with
        | Some ids => inr (withEnrolled (λ _, ids) u)
        | None => inl CastError
        end
    | _ => inl CastError
    end
  else inr u.

Fixpoint setFields (us : gmap N User) (id : ObjectId) (u : User) (d : Doc) : Error + User :=
  match d with
  | [] => inr u
  | kv :: r =>
      match setField us id u kv with
      | inl e => inl e
      | inr u' => setFields us id u' r
      end
  end.

Definition applyUserUpdate (us : gmap N User) (id : ObjectId) (upd : UserUpdate) (u : User)
  : Error + User :=
  match upd with
  | AddToSetEnrolled c => inr (withEnrolled (addToSet c) u)
  | PullEnrolled c => inr (withEnrolled (pull c) u)
  | SetFields d => setFields us id u d
  end.

(** [User.findByIdAndUpdate(id, update, { new: true })]: the updated
    document, or null when there is none with this id. *)
Definition User_findByIdAndUpdate (raw : string) (upd : UserUpdate) : M (option User) :=
  let* id := cast raw in
  boundary (UserFindByIdAndUpdate id upd)
    (λ w, match users w !! id with
          | None => inr (None, w)
          | Some u =>
              match applyUserUpdate (users w) id upd u with
              | inl e => inl e
              | inr u' => inr (Some u', set_users (insert id u') w)
              end
          end).

(** [User.findByIdAndDelete(id)] *)
Definition User_findByIdAndDelete (raw : string) : M (option User) :=
  let* id := cast raw in
  boundary (UserFindByIdAndDelete id)
    (λ w, inr (users w !! id, set_users (delete id) w)).

(** [Class.findById(id)]; an absent id finds nothing. *)
Definition Class_findById (id : option ObjectId) : M (option Class) :=
  boundary (ClassFindById id)
    (λ w, inr (match id with
               | Some c => classes w !! c
               | None => None
               end, w)).

Definition applyClassUpdate (upd : ClassUpdate) (c : Class) : Class :=
  match upd with
  | AddToSetRoster u => withRoster (addToSet u) c
  | PullRoster u => withRoster (pull u) c
  end.

(** [Class.findByIdAndUpdate(id, update)]: no document with this id is not
    an error. *)
Definition Class_findByIdAndUpdate (id : ObjectId) (upd : ClassUpdate) : M (option Class) :=
  boundary (ClassFindByIdAndUpdate id upd)
    (λ w, match classes w !! id with
          | None => inr (None, w)
          | Some c => inr (Some c, set_classes (insert id (applyClassUpdate upd c)) w)
          end).

(** ** The four IdP operations *)

Definition set_subjects (f : gmap string Subject → gmap string Subject) (i : Idp) : Idp :=
  mkIdp (f (subjects i)) (nextEmailId i).

(** [clerkClient.emailAddresses.createEmailAddress({ userId, emailAddress,
    verified: true, primary: true })] *)
Definition createEmailAddress (userId : string) (address : option JVal)
    (isVerified isPrimary : bool) : M unit :=
  boundary (IdpCreateEmailAddress userId
              (match address with Some (JStr a) => a | _ => "" end) isVerified isPrimary)
    (λ w, match address, subjects (idp w) !! userId with
          | Some (JStr a), Some sub =>
              let e := mkEmail (nextEmailId (idp w)) a isVerified in
              let sub' := mkSubject (emailAddresses sub ++ [e])
                            (if isPrimary then Some (emailId e)
                             else primaryEmailAddressId sub) in
              inr (tt, set_idp (λ i, mkIdp (<[userId := sub']> (subjects i))
                                       (N.succ (nextEmailId i))) w)
          | Some (JStr _), None => inl NotFoundAtIdp
          | _, _ => inl ValidationError
          end).

(** [clerkClient.users.getUser(userId)] *)
Definition getUser (userId : string) : M Subject :=
  boundary (IdpGetUser userId)
    (λ w, match subjects (idp w) !! userId with
          | Some sub => inr (sub, w)
          | None => inl NotFoundAtIdp
          end).

Definition dropEmail (id : N) (sub : Subject) : Subject :=
  mkSubject (List.filter (λ e, negb (N.eqb (emailId e) id)) (emailAddresses sub))
    (primaryEmailAddressId sub).

Definition holdsEmail (id : N) (sub : Subject) : bool :=
  existsb (λ e, N.eqb (emailId e) id) (emailAddresses sub).

(** [clerkClient.emailAddresses.deleteEmailAddress(id)] *)
Definition deleteEmailAddress (id : N) : M unit :=
  boundary (IdpDeleteEmailAddress id)
    (λ w, if existsb (λ p, holdsEmail id (snd p)) (map_to_list (subjects (idp w)))
          then inr (tt, set_idp (set_subjects (fmap (dropEmail id))) w)
          else inl NotFoundAtIdp).

(** [clerkClient.users.deleteUser(userId)] *)
Definition deleteUser (userId : string) : M unit :=
  boundary (IdpDeleteUser userId)
    (λ w, match subjects (idp w) !! userId with
          | Some _ => inr (tt, set_idp (set_subjects (delete userId)) w)
          | None => inl NotFoundAtIdp
          end).

(** ** Requests, responses and the pipeline *)

(** [session] is what the IdP finds in the credentials the request carries:
    the subject id of a valid session, or nothing.  [auth] is
    [req.auth?.userId], which only [requireAuth] sets. *)
Record Request : Type := mkRequest {
  session : option string;
  auth : option string;
  params_id : string;
  query : gmap string string;
  body : Doc
}.

Record Response : Type := mkResponse {
  status : nat;
  payload : JVal
}.

Definition message (code : nat) (text : string) : Response :=
  mkResponse code (JObj [("message", JStr text)]).

Definition error (code : nat) (text : string) : Response :=
  mkResponse code (JObj [("error", JStr text)]).

(** [res.status(500).send(err)] *)
Definition sendError (code : nat) : Response := mkResponse code (JObj []).

Inductive Step : Type :=
| Next (req : Request)
| Done (res : Response).

Definition Handler : Type := Request → World → Response * World.
Definition Middleware : Type := Request → World → Step * World.

(** [try { ... } catch (err) { ... }] *)
Definition try_catch {A} (m : M A) (handle : Error → A) : World → A * World :=
  λ w, match m w with
       | (Ret a, w') => (a, w')
       | (Raise e, w') => (handle e, w')
       end.

Fixpoint route (ms : list Middleware) (h : Handler) : Handler :=
  λ req w,
    match ms with
    | [] => h req w
    | m :: rest =>
        match m req w with
        | (Next req', w') => route rest h req' w'
        | (Done res, w') => (res, w')
        end
    end.

(** Modelled from the spec: [requireAuth] is the IdP SDK's middleware
    ([ClerkExpressRequireAuth()]), which is not part of the sources: it
    verifies the session, attaches the subject id, and otherwise answers 401
    with [{"message":"Unauthorized"}]. *)
Definition requireAuth : Middleware :=
  λ req w,
    match session req with
    | Some s =>
        if String.eqb s "" then (Done (message 401 "Unauthorized"), w)
        else (Next (mkRequest (session req) (Some s) (params_id req) (query req) (body req)), w)
    | None => (Done (message 401 "Unauthorized"), w)
    end.

(** [["admin", "instructor"].includes(u.privilege)] on a document. *)
Definition privilegedDoc (d : Doc) : bool :=
  match getField "privilege" d with
  | Some (JStr p) => existsb (String.eqb p) ["admin"; "instructor"]
  | _ => false
  end.

Definition isAdminOrInstructor (u : option Doc) : bool :=
  match u with
  | Some d => privilegedDoc d
  | None => false
  end.

(** [req.auth?.userId] when it is truthy. *)
Definition authUserId (req : Request) : option string :=
  match auth req with
  | Some s => if String.eqb s "" then None else Some s
  | None => None
  end.

Definition leanSelect (sel : string) (r : option (N * User)) : option Doc :=
  match r with
  | Some p => Some (select sel (userDoc (fst p) (snd p)))
  | None => None
  end.

Definition getMe (req : Request) : M (option Doc) :=
  match authUserId req with
  | None => ret None
  | Some clerkId =>
      let* r := User_findOne [("clerkId", clerkId)] in
      ret (leanSelect "privilege" r)
  end.

Definition requireAdminOrInstructor : Middleware :=
  λ req,
    try_catch
      (match authUserId req with
       | None => ret (Done (message 401 "Unauthorized"))
       | Some clerkId =>
           let* r := User_findOne [("clerkId", clerkId)] in
           let me := leanSelect "privilege" r in
           if negb (isAdminOrInstructor me)
           then ret (Done (message 403 "Forbidden"))
           else ret (Next req)
       end)
      (λ _, Done (message 500 "Auth check failed")).

Definition allowSelfOrPriv : Middleware :=
  λ req,
    try_catch
      (let* me := getMe req in
       if isAdminOrInstructor me then ret (Next req)
       else
         let paramId := params_id req in
         if String.eqb paramId "" || negb (isValid paramId)
         then ret (Done (message 400 "Invalid ID"))
         else
           let* r := User_findById paramId in
           match leanSelect "_id clerkId" r with
           | None => ret (Done (message 404 "User not found"))
           | Some target =>
               let isSelf :=
                 match authUserId req, getField "clerkId" target with
                 | Some me', Some (JStr c) => String.eqb c me'
                 | _, _ => false
                 end in
               if isSelf then ret (Next req) else ret (Done (message 403 "Forbidden"))
           end)
      (λ _, Done (message 500 "Auth check failed")).

(** ** Handlers of [api/routes/user-routes.js] *)

(** Modelled from the spec: [validateInput] lives in
    [src/utils/backend/validate-utils.js], which is not part of the sources.
    It returns a new mapping containing only the keys that appear in
    [allowedFields] with non-empty string values. *)
Definition validateInput (q : gmap string string) (allowedFields : list string)
  : list (string * string) :=
  omap (λ k, match q !! k with
             | Some v => if String.eqb v "" then None else Some (k, v)
             | None => None
             end) allowedFields.

(** GET /user *)
Definition getUserHandler : Handler :=
  λ req,
    try_catch
      (let allowedFields := ["_id"; "email"; "whatsapp"] in
       let filters := validateInput (query req) allowedFields in
       let* me := getMe req in
       let isPriv := isAdminOrInstructor me in
       let* user :=
         if isPriv && negb (Nat.eqb (length filters) 0)
         then User_findOne filters
         else match auth req with
              | Some clerkId => User_findOne [("clerkId", clerkId)]
              | None => raise TypeError
              end in
       match user with
       | None => ret (message 404 "User not found")
       | Some p => ret (mkResponse 200 (JObj (userDoc (fst p) (snd p))))
       end)
      (λ _, sendError 500).

(** [a !== b] for a stored string and a value of the request body. *)
Definition differs (stored : string) (v : option JVal) : bool :=
  match v with
  | Some (JStr s) => negb (String.eqb stored s)
  | _ => true
  end.

Definition userJson (r : option (N * User)) : JVal :=
  match r with
  | Some p => JObj (userDoc (fst p) (snd p))
  | None => JNull
  end.

(** PUT /user/:id *)
Definition putUserHandler : Handler :=
  λ req,
    try_catch
      (let id := params_id req in
       let updates := body req in
       if negb (isValid id) then ret (error 400 "Invalid ID")
       else
         let* originalUser := User_findById id in
         match originalUser with
         | None => ret (message 404 "User not found")
         | Some orig =>
             let original := snd orig in
             let* _ :=
               if truthyJ (getField "email" updates)
                  && differs (email original) (getField "email" updates)
               then
                 let* _ := createEmailAddress (clerkId original) (getField "email" updates)
                             true true in
                 let* clerkUser := getUser (clerkId original) in
                 let oldEmail :=
                   List.find (λ e, String.eqb (emailAddress e) (email original))
                     (emailAddresses clerkUser) in
                 match oldEmail with
                 | Some e => deleteEmailAddress (emailId e)
                 | None => ret tt
                 end
               else ret tt in
             let* updatedUser := User_findByIdAndUpdate id (SetFields updates) in
             ret (mkResponse 200 (userJson (pair (fst orig) <$> updatedUser)))
         end)
      (λ _, message 500 "Failed to update user").

(** [await Promise.all(ms)]: every call is issued; the await throws when one
    of them failed. *)
Fixpoint promiseAll {A} (ms : list (M A)) : M (list A) :=
  match ms with
  | [] => ret []
  | m :: rest =>
      λ w, match m w with
           | (Ret a, w') =>
               match promiseAll rest w' with
               | (Ret l, w'') => (Ret (a :: l), w'')
               | (Raise e, w'') => (Raise e, w'')
               end
           | (Raise e, w') => (Raise e, snd (promiseAll rest w'))
           end
  end.

Definition promiseBoth {A B} (a : M A) (b : M B) : M (A * B) :=
  λ w, match a w with
       | (Ret x, w') =>
           match b w' with
           | (Ret y, w'') => (Ret (x, y), w'')
           | (Raise e, w'') => (Raise e, w'')
           end
       | (Raise e, w') => (Raise e, snd (b w'))
       end.

(** DELETE /user/:id *)
Definition deleteUserHandler : Handler :=
  λ req,
    try_catch
      (let id := params_id req in
       if negb (isValid id) then ret (error 400 "Invalid ID")
       else
         let* deletedUser := User_findById id in
         match deletedUser with
         | None => ret (message 404 "User not found")
         | Some found =>
             let deleted := snd found in
             let* _ :=
               if negb (Nat.eqb (length (enrolledClasses deleted)) 0)
               then
                 promiseAll
                   (map (λ classId,
                           let* uid := cast id in
                           Class_findByIdAndUpdate classId (PullRoster uid))
                      (enrolledClasses deleted))
               else ret [] in
             let* _ := deleteUser (clerkId deleted) in
             let* _ := User_findByIdAndDelete id in
             ret (message 204 "User deleted successfully")
         end)
      (λ _, message 500 "Failed to delete user").

(** [.populate({ path, select })] on lean documents: each id of the array at
    [path] is replaced by the class document it refers to, restricted to the
    selected fields; ids that refer to nothing are dropped.  One query
    serves all documents, and none is issued when there is no id. *)
Definition populateRef (cs : gmap N Class) (sel : option string) (v : JVal) : option JVal :=
  match v with
  | JOid o =>
      match cs !! o with
      | Some c =>
          Some (JObj (match sel with
                      | Some fields => select fields (classDoc o c)
                      | None => classDoc o c
                      end))
      | None => None
      end
  | _ => None
  end.

Definition populateDoc (cs : gmap N Class) (path : string) (sel : option string) (d : Doc)
  : Doc :=
  map (λ kv, if String.eqb (fst kv) path
             then (fst kv, match snd kv with
                           | JArr l => JArr (omap (populateRef cs sel) l)
                           | v => v
                           end)
             else kv) d.

Definition hasRefs (path : string) (d : Doc) : bool :=
  match getField path d with
  | Some (JArr (_ :: _)) => true
  | _ => false
  end.

Definition populate (path : string) (sel : option string) (docs : list Doc) : M (list Doc) :=
  if existsb (hasRefs path) docs
  then boundary ClassPopulate (λ w, inr (map (populateDoc (classes w) path sel) docs, w))
  else ret docs.

(** GET /students-classes/:id *)
Definition studentsClassesHandler : Handler :=
  λ req,
    try_catch
      (let id := params_id req in
       if negb (isValid id) then ret (error 400 "Invalid ID")
       else
         let* r := User_findById id in
         let* docs := populate "enrolledClasses" None
                        (match leanSelect "enrolledClasses" r with
                         | Some d => [d]
                         | None => []
                         end) in
         match docs with
         | [] => ret (message 404 "User not found")
         | classDetails :: _ =>
             ret (mkResponse 200
                    (match getField "enrolledClasses" classDetails with
                     | Some v => v
                     | None => JArr []
                     end))
         end)
      (λ _, sendError 500).

Definition userSelect : string :=
  "firstName lastName email privilege enrolledClasses creationDate".
Definition classSelect : string :=
  "level ageGroup instructor schedule isEnrollmentOpen image".

(** The pagination guards. *)
Definition limitGuard (raw : num) : num :=
  Math_max (of_Z 1) (Math_min (of_Z 200) (js_or raw (of_Z 100))).
Definition pageGuard (raw : num) : num :=
  Math_max (of_Z 1) (js_or raw (of_Z 1)).

Definition limitOf (req : Request) : num := limitGuard (Number (query req !! "limit")).
Definition pageOf (req : Request) : num := pageGuard (Number (query req !! "page")).
Definition skipOf (req : Request) : num :=
  num_mul (num_sub (pageOf req) (of_Z 1)) (limitOf req).

(** GET /students-with-classes *)
Definition studentsWithClassesHandler : Handler :=
  λ req,
    try_catch
      (let limit := limitOf req in
       let page := pageOf req in
       let skip := skipOf req in
       let* r :=
         promiseBoth
           (let* found := User_find [("privilege", "student")] userSelect skip limit in
            populate "enrolledClasses" (Some classSelect) found)
           (User_countDocuments [("privilege", "student")]) in
       ret (mkResponse 200
              (JObj [("items", JArr (map JObj (fst r)));
                     ("total", JNum (of_Z (Z.of_nat (snd r))));
                     ("page", JNum page);
                     ("limit", JNum limit)])))
      (λ _, message 500 "Failed to fetch students").

(** ** Enrollment handlers of [api/index.js] *)

(** [user.enrolledClasses.includes(classId)] for a value of the body: the
    array of ids is searched with [==], which compares a string with the
    hexadecimal rendering of each id. *)
Definition includesJ (l : list ObjectId) (v : option JVal) : bool :=
  match v with
  | Some (JStr s) => existsb (λ o, String.eqb s (toHexString o)) l
  | _ => false
  end.

(** The cast of a value of the body used as an id: absent or null finds
    nothing, a string must be an ObjectId, anything else does not cast. *)
Definition castIdArg (v : option JVal) : M (option ObjectId) :=
  match v with
  | None | Some JNull => ret None
  | Some (JStr s) => let* o := cast s in ret (Some o)
  | Some _ => raise CastError
  end.

(** PUT /api/users/:id/enroll *)
Definition enrollHandler : Handler :=
  λ req,
    let classId := getField "classId" (body req) in
    let id := params_id req in
    if negb (isValid id) then λ w, (error 400 "Invalid ID", w)
    else
      try_catch
        (let* user := User_findById id in
         match user with
         | None => raise TypeError
         | Some u =>
             if includesJ (enrolledClasses (snd u)) classId
             then ret (message 400 "Already enrolled in this class")
             else
               let* cid := castIdArg classId in
               let* cls := Class_findById cid in
               match cls, cid with
               | Some c, Some classOid =>
                   if negb (isEnrollmentOpen c)
                   then ret (message 403 "Enrollment is currently closed for this class.")
                   else
                     let* _ := User_findByIdAndUpdate id (AddToSetEnrolled classOid) in
                     let* uid := cast id in
                     let* _ := Class_findByIdAndUpdate classOid (AddToSetRoster uid) in
                     ret (message 201 "Enrolled successfully!")
               | _, _ => ret (message 404 "Class not found")
               end
         end)
        (λ _, message 500 "Error enrolling into class").

(** PUT /api/users/:id/unenroll *)
Definition unenrollHandler : Handler :=
  λ req,
    let classId := getField "classId" (body req) in
    let id := params_id req in
    if negb (isValid id) then λ w, (error 400 "Invalid ID", w)
    else
      try_catch
        (let* user := User_findById id in
         match user with
         | None => raise TypeError
         | Some u =>
             if negb (includesJ (enrolledClasses (snd u)) classId)
             then ret (message 400 "Not enrolled in this class")
             else
               let* cid := castIdArg classId in
               match cid with
               | Some classOid =>
                   let* _ := User_findByIdAndUpdate id (PullEnrolled classOid) in
                   let* uid := cast id in
                   let* _ := Class_findByIdAndUpdate classOid (PullRoster uid) in
                   ret (message 201 "Successfully unenrolled")
               | None => raise CastError
               end
         end)
        (λ _, message 500 "Error unenrolling into class").

(** ** Routes: the middleware each path is mounted with *)

Definition GET_user : Handler := route [requireAuth] getUserHandler.
Definition PUT_user : Handler := route [requireAuth; allowSelfOrPriv] putUserHandler.
Definition DELETE_user : Handler :=
  route [requireAuth; requireAdminOrInstructor] deleteUserHandler.
Definition GET_students_classes : Handler :=
  route [requireAuth; allowSelfOrPriv] studentsClassesHandler.
Definition GET_students_with_classes : Handler :=
  route [requireAuth; requireAdminOrInstructor] studentsWithClassesHandler.
Definition PUT_enroll : Handler := route [] enrollHandler.
Definition PUT_unenroll : Handler := route [] unenrollHandler.

(** * Notions used by the properties *)

Definition num_le (a b : num) : Prop := num_leb a b = true.

Definition setQuery (k v : string) (req : Request) : Request :=
  mkRequest (session req) (auth req) (params_id req) (<[k := v]> (query req)) (body req).

(** The request [?limit=0] of the spec's boundary list. *)
Definition limit_zero_request : Request :=
  mkRequest (Some "user_admin") None "" {[ "limit" := "0" ]} [].

(** ** Traces *)

(** Every event of [evs] that [guarded] holds of comes after an event that
    [key] holds of. *)
Definition precededBy (key guarded : Event → bool) (evs : list Event) : Prop :=
  ∀ pre ev post, evs = pre ++ ev :: post → guarded ev = true → existsb key pre = true.

(** The same, as a check that runs over the trace. *)
Fixpoint precededByb (key guarded : Event → bool) (seen : bool) (evs : list Event) : bool :=
  match evs with
  | [] => true
  | ev :: rest =>
      (if guarded ev then seen else true) && precededByb key guarded (seen || key ev) rest
  end.

Definition isAddEnrolled (u c : ObjectId) (ev : Event) : bool :=
  match ev with
  | (UserFindByIdAndUpdate u' (AddToSetEnrolled c'), true) => N.eqb u u' && N.eqb c c'
  | _ => false
  end.

Definition isAddRoster (u c : ObjectId) (ev : Event) : bool :=
  match ev with
  | (ClassFindByIdAndUpdate c' (AddToSetRoster u'), _) => N.eqb u u' && N.eqb c c'
  | _ => false
  end.

Definition isPullEnrolled (ev : Event) : bool :=
  match ev with
  | (UserFindByIdAndUpdate _ (PullEnrolled _), _) => true
  | _ => false
  end.

Definition failed (ev : Event) : bool := negb (snd ev).

(** ** Roster integrity *)

(** The bi-directional link between users and classes. *)
Definition linked (w : World) : Prop :=
  ∀ u c ud cd, users w !! u = Some ud → classes w !! c = Some cd →
    (c ∈ enrolledClasses ud ↔ u ∈ roster cd).

Definition rosterNoDup (w : World) : Prop :=
  ∀ c cd, classes w !! c = Some cd → NoDup (roster cd).

Definition consistent (w : World) : Prop := linked w ∧ rosterNoDup w.

Inductive RosterOp : Type :=
| Enroll (req : Request)
| Unenroll (req : Request).

Definition runOp (op : RosterOp) : World → Response * World :=
  match op with
  | Enroll req => PUT_enroll req
  | Unenroll req => PUT_unenroll req
  end.

(** The operations run one after the other; the responses come back in
    order. *)
Fixpoint runOps (ops : list RosterOp) (w : World) : list Response * World :=
  match ops with
  | [] => ([], w)
  | op :: rest =>
      let r := runOp op w in
      let rs := runOps rest (snd r) in
      (fst r :: fst rs, snd rs)
  end.

(** ** A small academy, for the examples *)

Definition alice_id : string := "000000000000000000000001".
Definition carol_id : string := "000000000000000000000003".
Definition class_a : string := "0000000000000000000000a1".

Definition alice : User :=
  mkUser "user_alice" "Alice" "Ames" "alice@example.org" (Some "+15550100") None
    Student 1700000000000 [].
Definition bob : User :=
  mkUser "user_bob" "Bob" "Burns" "bob@example.org" None (Some "male")
    Admin 1700000000001 [].
Definition carol : User :=
  mkUser "user_carol" "Carol" "Cole" "carol@example.org" None None
    Student 1700000000002 [].

Definition level3 : Class :=
  mkClass (LevelNum 3) "adults" "Ines" [mkSlot "Mon" "10:00" "11:00"] true
    "level3.png" "https://classroom.example.org/l3" [].
Definition talk : Class :=
  mkClass Conversation "all" "Omar" [mkSlot "Tue" "18:00" "19:00"] false
    "talk.png" "https://classroom.example.org/talk" [].

Definition academy_idp : Idp :=
  mkIdp {[ "user_alice" := mkSubject [mkEmail 10 "alice@example.org" true] (Some 10%N);
           "user_bob" := mkSubject [mkEmail 11 "bob@example.org" true] (Some 11%N);
           "user_carol" := mkSubject [mkEmail 12 "carol@example.org" true] (Some 12%N) ]}
    13.

(** Nobody is enrolled yet; no call fails. *)
Definition academy : World :=
  mkWorld {[ 1%N := alice; 2%N := bob; 3%N := carol ]}
    {[ 161%N := level3; 178%N := talk ]} academy_idp [] [].

Definition enrollRequest (user class : string) : Request :=
  mkRequest None None user ∅ [("classId", JStr class)].

(** Alice enrolled in level 3, on both sides. *)
Definition academy_enrolled : World :=
  snd (PUT_enroll (enrollRequest alice_id class_a) academy).

(** The store answers three calls and then fails the fourth. *)
Definition academy_failing_fourth : World :=
  set_faults [false; false; false; true] academy.

(** Alice and Carol enroll in level 3, then Alice leaves. *)
Definition term_start : list RosterOp :=
  [Enroll (enrollRequest alice_id class_a);
   Enroll (enrollRequest carol_id class_a);
   Unenroll (enrollRequest alice_id class_a)].

(** ** Callers *)


Definition withQuery (q : gmap string string) (req : Request) : Request :=
  mkRequest (session req) (auth req) (params_id req) q (body req).

(** In the words of the spec: [resolveRole(subjectId)] looks up the user
    whose idpId is the subject id, and a caller is privileged when the
    privilege found is admin or instructor. *)
Definition resolveRole (w : World) (subjectId : string) : option (N * User) :=
  List.find (λ p, String.eqb (clerkId (snd p)) subjectId) (allUsers w).

Definition isPrivileged (p : Privilege) : bool :=
  match p with
  | Admin | Instructor => true
  | Student => false
  end.

Definition privileged (w : World) (subjectId : string) : bool :=
  match resolveRole w subjectId with
  | Some p => isPrivileged (privilege (snd p))
  | None => false
  end.

(** No boundary call of the run fails by script. *)
Definition reliable (w : World) : Prop := Forall (λ b, b = false) (faults w).

(** The self-or-privileged gate in the words of the spec: it passes iff the
    caller is privileged, or the resource user's idpId equals the caller's
    subjectId; it rejects with 400 on a malformed id, 404 if the target does
    not exist, 403 otherwise. *)
Definition gateSpec (w : World) (subjectId : string) (req : Request) : Step :=
  if privileged w subjectId then Next req
  else match castObjectId (params_id req) with
       | None => Done (message 400 "Invalid ID")
       | Some id =>
           match users w !! id with
           | None => Done (message 404 "User not found")
           | Some target =>
               if String.eqb (clerkId target) subjectId then Next req
               else Done (message 403 "Forbidden")
           end
       end.

(** Alice, signed in, asks for her own record; then for Bob's. *)
Definition alice_own : Request :=
  mkRequest (Some "user_alice") (Some "user_alice") alice_id ∅ [].
Definition alice_asks_bob : Request :=
  mkRequest (Some "user_alice") None "" {[ "email" := "bob@example.org" ]} [].

(** ** Events of the IdP mirror *)

(** The add of [address] to [subject] as a verified primary went through. *)
Definition isCreateEmailOk (subject address : string) (ev : Event) : bool :=
  match ev with
  | (IdpCreateEmailAddress s a true true, true) => String.eqb s subject && String.eqb a address
  | _ => false
  end.

Definition isCreateEmailFailed (ev : Event) : bool :=
  match ev with
  | (IdpCreateEmailAddress _ _ _ _, false) => true
  | _ => false
  end.

Definition isDeleteEmail (ev : Event) : bool :=
  match fst ev with
  | IdpDeleteEmailAddress _ => true
  | _ => false
  end.

(** A write to the local store, whether or not it went through. *)
Definition isLocalWrite (ev : Event) : bool :=
  match fst ev with
  | UserFindByIdAndUpdate _ _ | UserFindByIdAndDelete _ | ClassFindByIdAndUpdate _ _ => true
  | _ => false
  end.

Definition isLocalWriteOrDeleteEmail (ev : Event) : bool := isLocalWrite ev || isDeleteEmail ev.

(** Alice changes her own email address. *)
Definition alice_new_email : Request :=
  mkRequest (Some "user_alice") None alice_id ∅
    [("email", JStr "alice@new.example.org")].

(** An add of an email address at the IdP, whatever became of it. *)
Definition isCreateEmail (ev : Event) : bool :=
  match fst ev with
  | IdpCreateEmailAddress _ _ _ _ => true
  | _ => false
  end.

(** Alice sends an empty email address. *)
Definition alice_blank_email : Request :=
  mkRequest (Some "user_alice") None alice_id ∅ [("email", JStr "")].

(** ** Events of a user deletion *)

(** The deletion of [subject] at the IdP went through. *)
Definition isIdpDeleteOk (subject : string) (ev : Event) : bool :=
  match ev with
  | (IdpDeleteUser s, true) => String.eqb s subject
  | _ => false
  end.

(** The deletion of the record [id] from the User collection went
    through. *)
Definition isUserDeleteOk (id : ObjectId) (ev : Event) : bool :=
  match ev with
  | (UserFindByIdAndDelete i, true) => N.eqb i id
  | _ => false
  end.

(** A deletion, issued to the store or to the IdP. *)
Definition isDeletion (ev : Event) : bool :=
  match fst ev with
  | UserFindByIdAndDelete _ | IdpDeleteUser _ => true
  | _ => false
  end.

(** A deletion of another record than [id], or of another subject than
    [subject]. *)
Definition deletesOther (id : ObjectId) (subject : string) (ev : Event) : bool :=
  match fst ev with
  | UserFindByIdAndDelete i => negb (N.eqb i id)
  | IdpDeleteUser s => negb (String.eqb s subject)
  | _ => false
  end.

Definition isIdpDeleteUserFailed (ev : Event) : bool :=
  match ev with
  | (IdpDeleteUser _, false) => true
  | _ => false
  end.

Definition isUserDelete (ev : Event) : bool :=
  match fst ev with
  | UserFindByIdAndDelete _ => true
  | _ => false
  end.

Definition isRosterPull (ev : Event) : bool :=
  match fst ev with
  | ClassFindByIdAndUpdate _ (PullRoster _) => true
  | _ => false
  end.

(** Between [w] and [w'] each class is as it was, or has lost from its
    roster the user the id string [raw] denotes. *)
Definition pulledFrom (raw : string) (w w' : World) : Prop :=
  ∀ c, classes w' !! c = classes w !! c
       ∨ ∃ uid cls, castObjectId raw = Some uid
                    ∧ classes w !! c = Some cls
                    ∧ classes w' !! c = Some (withRoster (pull uid) cls).

(** Bob, an admin, deletes Alice. *)
Definition bob_deletes_alice : Request :=
  mkRequest (Some "user_bob") None alice_id ∅ [].

(** Alice is enrolled in level 3, and the fourth boundary call of the next
    request (the IdP deletion) fails. *)
Definition academy_enrolled_idp_down : World :=
  set_faults [false; false; false; true] academy_enrolled.

(** ** Reading a students-with-classes response *)

Definition asDocs (v : option JVal) : list Doc :=
  match v with
  | Some (JArr l) => omap (λ x, match x with JObj d => Some d | _ => None end) l
  | _ => []
  end.

(** The [items] of a response body. *)
Definition itemsOf (res : Response) : list Doc :=
  match payload res with
  | JObj fields => asDocs (getField "items" fields)
  | _ => []
  end.

(** The populated class objects of an item. *)
Definition populatedOf (item : Doc) : list Doc := asDocs (getField "enrolledClasses" item).

(** The field lists of the projection, as the spec enumerates them. *)
Definition userFields : list string :=
  ["firstName"; "lastName"; "email"; "privilege"; "creationDate"; "enrolledClasses"].
Definition classFields : list string :=
  ["level"; "ageGroup"; "instructor"; "schedule"; "isEnrollmentOpen"; "image"].

Definition onlyFields (allowed : list string) (d : Doc) : Prop :=
  Forall (λ k, k ∈ allowed) (keys d).

(** An item has an enrolled class of the level asked for. *)
Definition hasLevel (lv : JVal) (item : Doc) : Prop :=
  Exists (λ cls, getField "level" cls = Some lv) (populatedOf item).

(** Bob, an admin, lists the students; then only those of level 3. *)
Definition bob_lists_students : Request :=
  mkRequest (Some "user_bob") None "" {[ "page" := "1"; "limit" := "10" ]} [].
Definition bob_lists_level3 : Request := setQuery "level" "3" bob_lists_students.

(** The [total] of a response body. *)
Definition totalOf (res : Response) : option JVal :=
  match payload res with
  | JObj fields => getField "total" fields
  | _ => None
  end.

From Stdlib Require Import DecimalString.

(** * Further notions *)

(** ** What a run leaves alone *)

(** The two collections and the IdP are as they were. *)
Definition sameStore (w w' : World) : Prop :=
  users w' = users w ∧ classes w' = classes w ∧ idp w' = idp w.

(** A call that only reads. *)
Definition isRead (ev : Event) : bool :=
  match fst ev with
  | UserFindById _ | UserFindOne _ | UserFind _ | UserCountDocuments _
  | ClassFindById _ | ClassPopulate | IdpGetUser _ => true
  | _ => false
  end.

(** The run from [w] to [w'] has issued reads only. *)
Definition readsOnly (w w' : World) : Prop :=
  ∃ evs, trace w' = trace w ++ evs ∧ Forall (λ ev, isRead ev = true) evs.

(** The subject id of the session a request carries, when there is one. *)
Definition caller (req : Request) : option string :=
  match session req with
  | Some s => if String.eqb s "" then None else Some s
  | None => None
  end.

(** The decision of [requireAdminOrInstructor], in terms of the caller's
    role in the store. *)
Definition adminGate (w : World) (req : Request) : Step :=
  match authUserId req with
  | None => Done (message 401 "Unauthorized")
  | Some s =>
      if hd false (faults w) then Done (message 500 "Auth check failed")
      else if privileged w s then Next req
      else Done (message 403 "Forbidden")
  end.

(** Alice, a student, tries to delete Bob. *)
Definition alice_deletes_bob : Request :=
  mkRequest (Some "user_alice") None "000000000000000000000002" ∅ [].

(** Alice tries to change Carol's name. *)
Definition alice_renames_carol : Request :=
  mkRequest (Some "user_alice") None carol_id ∅ [("firstName", JStr "Mallory")].

(** The conversation class, which is closed. *)
Definition talk_id : string := "0000000000000000000000b2".

(** A computation that only reads, whatever the world it starts from. *)
Definition onlyReads {A} (m : World → A * World) : Prop :=
  ∀ w, sameStore w (snd (m w)) ∧ readsOnly w (snd (m w)).

(** A call to the IdP. *)
Definition isIdpCall (ev : Event) : bool :=
  match fst ev with
  | IdpCreateEmailAddress _ _ _ _ | IdpGetUser _ | IdpDeleteEmailAddress _
  | IdpDeleteUser _ => true
  | _ => false
  end.

(** Alice asks for another role on her own record. *)
Definition alice_promotes_herself : Request :=
  mkRequest (Some "user_alice") None alice_id ∅ [("privilege", JStr "admin")].

(** The full documents of the classes a user is enrolled in, as far as the
    classes exist. *)
Definition enrolledDocs (w : World) (u : User) : list JVal :=
  omap (λ c, match classes w !! c with
             | Some cls => Some (JObj (classDoc c cls))
             | None => None
             end) (enrolledClasses u).

(** The student records, in the order the store enumerates them. *)
Definition students (w : World) : list (N * User) :=
  List.filter (λ p, match privilege (snd p) with Student => true | _ => false end)
    (allUsers w).

(** The item of the students-with-classes listing for one record. *)
Definition studentItem (w : World) (p : N * User) : Doc :=
  populateDoc (classes w) "enrolledClasses" (Some classSelect)
    (select userSelect (userDoc (fst p) (snd p))).

(** A well-formed id that names no record. *)
Definition nobody_id : string := "0000000000000000000000ff".

(** * Sign-up and the user listing, [api/routes/user-routes.js] *)

(** [k: v] in an object literal, for a [v] that may be undefined. *)
Definition present (k : string) (v : option JVal) : Doc :=
  match v with
  | Some x => [(k, x)]
  | None => []
  end.

(** [!firstName || !lastName || !email || !clerkId] on the body. *)
Definition missingRequired (b : Doc) : bool :=
  negb (truthyJ (getField "firstName" b)) || negb (truthyJ (getField "lastName" b))
  || negb (truthyJ (getField "email" b)) || negb (truthyJ (getField "clerkId" b)).

Section SignUp.

(** [new User(fields).save()].  The schema, with its defaults and
    validators, is not part of the sources: the save is a parameter, and
    what is proved holds for every save. *)
Variable save : Doc → M JVal.

(** The cast of a filter value that is not a string on the [email] path;
    it is a parameter for the same reason. *)
Variable castString : JVal → option string.

(** [User.findOne({ email })] for a value of the body. *)
Definition findByEmail (v : option JVal) : M (option (N * User)) :=
  match v with
  | Some (JStr e) => User_findOne [("email", e)]
  | Some x =>
      match castString x with
      | Some e => User_findOne [("email", e)]
      | None => raise CastError
      end
  | None => User_findOne []
  end.

(** POST /sign-up *)
Definition signUpHandler : Handler :=
  λ req,
    try_catch
      (let firstName := getField "firstName" (body req) in
       let lastName := getField "lastName" (body req) in
       let email := getField "email" (body req) in
       let whatsapp := getField "whatsapp" (body req) in
       let clerkId := getField "clerkId" (body req) in
       if missingRequired (body req)
       then ret (message 400 "Missing required fields")
       else
         let* existingUser := findByEmail email in
         match leanSelect "_id" existingUser with
         | Some _ => ret (message 409 "Email already exists")
         | None =>
             let* newUser :=
               save (present "firstName" firstName ++ present "lastName" lastName
                     ++ present "email" email ++ present "whatsapp" whatsapp
                     ++ present "clerkId" clerkId) in
             ret (mkResponse 201 newUser)
         end)
      (λ _, message 500 "Failed to sign up").

Definition POST_sign_up : Handler := route [] signUpHandler.

End SignUp.

(** [User.find(filter).select(sel).lean()], without a window. *)
Definition User_findAll (flt : list (string * string)) (sel : string) : M (list Doc) :=
  if filterCastable flt
  then boundary (UserFind flt)
         (λ w, inr (map (λ p, select sel (userDoc (fst p) (snd p)))
                      (List.filter (userMatches flt) (allUsers w)), w))
  else raise CastError.

(** GET /users *)
Definition getUsersHandler : Handler :=
  λ _req,
    try_catch
      (let* found := User_findAll [] "firstName lastName email privilege creationDate" in
       ret (mkResponse 200 (JArr (map JObj found))))
      (λ _, sendError 500).

Definition GET_users : Handler :=
  route [requireAuth; requireAdminOrInstructor] getUsersHandler.

(** What the listing shows of one record. *)
Definition listedUser (p : N * User) : JVal :=
  JObj [("_id", JOid (fst p));
        ("firstName", JStr (firstName (snd p)));
        ("lastName", JStr (lastName (snd p)));
        ("email", JStr (email (snd p)));
        ("privilege", JStr (privilegeName (privilege (snd p))));
        ("creationDate", JDate (creationDate (snd p)))].

(** A sign-up with Alice's address, and one without a name. *)
Definition sign_up_again : Request :=
  mkRequest None None "" ∅
    [("firstName", JStr "Alia"); ("lastName", JStr "Ames");
     ("email", JStr "alice@example.org"); ("clerkId", JStr "user_alia")].
Definition sign_up_nameless : Request :=
  mkRequest None None "" ∅
    [("firstName", JStr ""); ("lastName", JStr "Ames");
     ("email", JStr "alia@example.org"); ("clerkId", JStr "user_alia")].

(** A save that stores nothing and answers null, for the examples. *)
Definition noSave : Doc → M JVal := λ _, ret JNull.

(** Bob, an admin, lists the users. *)
Definition bob_lists_users : Request := mkRequest (Some "user_bob") None "" ∅ [].

(** * The students export of [api/index.js]: the rows *)

(** [User.find(filter)], the documents themselves. *)
Definition User_findDocs (flt : list (string * string)) : M (list (N * User)) :=
  if filterCastable flt
  then boundary (UserFind flt)
         (λ w, inr (List.filter (userMatches flt) (allUsers w), w))
  else raise CastError.

(** [l.join(sep)] *)
Definition join (sep : string) (l : list string) : string :=
  match l with
  | [] => ""
  | x :: r => fold_left (λ acc y, (acc ++ sep ++ y)%string) r x
  end.

Definition newline : string := String (ascii_of_nat 10) "".

(** [classMap.get(key)] after
    [new Map(classes.map((c) => [c._id.toString(), c]))]: of two entries
    with one key the later wins. *)
Definition classMap_get (found : list (N * Class)) (key : string) : option Class :=
  snd <$> List.find (λ c, String.eqb (toHexString (fst c)) key) (rev found).

Section ExportRows.

(** [Class.find()].  The trace has no label for this query, so the call
    is a parameter; what is proved asks of it only that it returns. *)
Variable Class_find : M (list (N * Class)).

(** [d.toISOString().split("T")[0]], the day of an instant, and the
    Istanbul rendering of a slot: both go through [Date], in the zone of
    the server, and are parameters. *)
Variable isoDay : Z → string.
Variable istanbul : Slot → string.

(** The object built for one enrolled class id; [None] is the [null]
    that [filter(Boolean)] drops. *)
Definition classInfoOf (found : list (N * Class)) (classId : N) : option Doc :=
  match classMap_get found (toHexString classId) with
  | None => None
  | Some c =>
      Some [("level", levelJson (level c));
            ("ageGroup", JStr (ageGroup c));
            ("instructor", JStr (instructor c));
            ("link", JStr (link c));
            ("scheduleEST",
             JStr (join newline
                     (map (λ s, (day s ++ " " ++ startTime s ++ "-" ++ endTime s)%string)
                        (schedule c))));
            ("scheduleIstanbul", JStr (join newline (map istanbul (schedule c))))]
  end.

Definition studentColumns (st : User) : Doc :=
  [("firstName", JStr (firstName st));
   ("lastName", JStr (lastName st));
   ("email", JStr (email st));
   ("creationDate", JStr (isoDay (creationDate st)))].

Definition blankColumns : Doc :=
  [("level", JStr ""); ("ageGroup", JStr ""); ("instructor", JStr "");
   ("link", JStr ""); ("scheduleEST", JStr ""); ("scheduleIstanbul", JStr "")].

(** The rows one student contributes. *)
Definition rowsOf (found : list (N * Class)) (st : User) : list Doc :=
  let enrolled := omap (classInfoOf found) (enrolledClasses st) in
  if Nat.eqb (length enrolled) 0
  then [studentColumns st ++ blankColumns]
  else map (λ classInfo, studentColumns st ++ classInfo) enrolled.

(** GET /api/students-export *)
Definition exportHandler : Handler :=
  λ _req,
    try_catch
      (let* found := User_findDocs [("privilege", "student")] in
       let* classes := Class_find in
       let formattedStudents := flat_map (λ p, rowsOf classes (snd p)) found in
       ret (mkResponse 200 (JObj [("student_data", JArr (map JObj formattedStudents))])))
      (λ _, message 500 "Error exporting students").

Definition GET_students_export : Handler := route [] exportHandler.

End ExportRows.

(** The rows of an export. *)
Definition rowsIn (res : Response) : list Doc :=
  match payload res with
  | JObj fields => asDocs (getField "student_data" fields)
  | _ => []
  end.

(** A [Class.find()] that cannot fail, for the examples. *)
Definition readClasses : M (list (N * Class)) :=
  λ w, (Ret (map_to_list (classes w)), w).

(** A request that carries nothing. *)
Definition anonymous : Request := mkRequest None None "" ∅ [].

(** * The students export of [api/index.js]: the clock *)

Module StudentsExport.

(** [n.toString()] on a non-negative integer. *)
Definition toString (n : N) : string := NilZero.string_of_uint (N.to_uint n).

(** [s.padStart(width, fill)] with a one-character fill. *)
Definition padStart (width : nat) (fill : ascii) (s : string) : string :=
  string_of_list_ascii (repeat fill (width - String.length s)) ++ s.

(** [formatTime(hours, minutes)], on the hours and minutes of a [Date]. *)
Definition formatTime (hours minutes : N) : string :=
  let period := if (12 <=? hours)%N then "pm" else "am" in
  let hour12 := if (hours mod 12 =? 0)%N then 12%N else (hours mod 12)%N in
  toString hour12 ++ ":" ++ padStart 2 "0" (toString minutes) ++ period.

(** The minutes of a day, as [getHours] and [getMinutes] give them. *)
Definition clock : list (N * N) :=
  h ← map N.of_nat (seq 0 24); m ← map N.of_nat (seq 0 60); [(h, m)].

(** The 12-hour reading the code computes. *)
Definition hour12 (hours : N) : N :=
  if (hours mod 12 =? 0)%N then 12%N else (hours mod 12)%N.

End StudentsExport.

(** * The search text of GET /users, [api/routes/user-routes.js]

    [escape] prepares the free text [q] for [new RegExp(escape(q), "i")]. *)

Module Search.

(** The class [[-/\\^$*+?.()|[\]{}]]. *)
Definition special (c : ascii) : bool :=
  existsb (Ascii.eqb c) (list_ascii_of_string "-/\^$*+?.()|[]{}").

(** [s.replace(/[-/\\^$*+?.()|[\]{}]/g, "\\$&")]: every character of the
    class gets a backslash in front. *)
Fixpoint escape (s : string) : string :=
  match s with
  | EmptyString => ""
  | String c r =>
      if special c then String "\" (String c (escape r)) else String c (escape r)
  end.

(** The syntax characters of a pattern: the ones that do not stand for
    themselves. *)
Definition syntaxChar (c : ascii) : bool :=
  existsb (Ascii.eqb c) (list_ascii_of_string "^$\.*+?()[]{}|").

(** The text a pattern spells when it is made of plain characters and of
    escaped characters of the class only; [None] when it uses an operator
    or another escape, or ends in a lone backslash. *)
Fixpoint literal (p : string) : option string :=
  match p with
  | EmptyString => Some ""
  | String c r =>
      if Ascii.eqb c "\"
      then match r with
           | String c' r' => if special c' then String c' <$> literal r' else None
           | EmptyString => None
           end
      else if syntaxChar c then None
           else String c <$> literal r
  end.

End Search.

(** * The CORS allowlist of [api/index.js] *)

Module Cors.

(** [s.split(",")]: the pieces between the commas; there is always one
    piece, which may be empty. *)
Fixpoint split (s : string) : list string :=
  match s with
  | EmptyString => [""]
  | String c r =>
      if Ascii.eqb c ","
      then "" :: split r
      else match split r with
           | h :: t => String c h :: t
           | [] => [String c ""]
           end
  end.









End Cors.

(** * The rate limiter's settings, [api/middleware/rate-limit.js] *)

Module RateLimit.

(** [Number.isFinite] *)
Definition isFinite (x : num) : bool :=
  match x with
  | Fin _ => true
  | _ => false
  end.

(** [n(v, fallback)]: a numeric environment variable, with its
    fallback. *)
Definition n (v : option string) (fallback : num) : num :=
  let x := Number v in
  if isFinite x && num_leb (of_Z 0) x then x else fallback.

(** What the two options read of a request. *)
Record Req : Type := mkReq {
  method : string;
  path : option string;
  originalUrl : option string;
  ip : option string;
  forwardedFor : option string
}.

(** [v || d] on an optional string: absent and empty are falsy. *)
Definition orElse (v : option string) (d : string) : string :=
  match v with
  | Some s => if String.eqb s "" then d else s
  | None => d
  end.

(** [s.endsWith(suffix)] *)
Fixpoint endsWith (s suffix : string) : bool :=
  String.eqb s suffix
  || match s with
     | EmptyString => false
     | String _ r => endsWith r suffix
     end.

(** [skip]: what the limiter does not count. *)
Definition skip (req : Req) : bool :=
  if String.eqb (method req) "OPTIONS" then true
  else
    let p := orElse (path req) "" in
    let o := orElse (originalUrl req) "" in
    String.eqb p "/health" || endsWith o "/api/health".

(** [keyGenerator]: the bucket a request is counted in. *)
Definition keyGenerator (req : Req) : string :=
  orElse (ip req) (orElse (forwardedFor req) "unknown").

(** A uptime probe as it arrives behind the proxy. *)
Definition probe : Req :=
  mkReq "GET" (Some "/health") (Some "/api/health") None (Some "203.0.113.7").

End RateLimit.

(** * The memoized connection of [api/db.js]

    [dbConnect] is an async function over a module-level cache
    [{ conn, promise }].  A call runs up to its [await]; the driver settles
    the promise of the one dial; a suspended call is resumed after that.
    The three kinds of step are modelled separately, so that calls may
    overlap as they do on a warm instance. *)

Module DbConnect.

(** A connected Mongoose instance, as far as the cache can tell two of
    them apart. *)
Abbreviation Handle := N (only parsing).

(** [cached.promise], once set. *)
Inductive Promise : Type :=
| Pending
| Fulfilled (m : Handle)
| Rejected.

Record Cached : Type := mkCached {
  conn : option Handle;
  promise : option Promise
}.

(** The cache, and the URIs [mongoose.connect] was called with, oldest
    first. *)
Record State : Type := mkState {
  cached : Cached;
  dialled : list string
}.

(** Where a call stands: it has returned the instance, it has thrown, or
    it is suspended at [await cached.promise]. *)
Inductive Progress : Type :=
| Returned (m : Handle)
| Threw
| Awaiting.

(** A call up to its [await]; [uri] is [process.env.MONGODB_URI] at that
    moment. *)
Definition enter (uri : option string) (s : State) : Progress * State :=
  match conn (cached s) with
  | Some m => (Returned m, s)
  | None =>
      match promise (cached s) with
      | Some _ => (Awaiting, s)
      | None =>
          match uri with
          | None => (Threw, s)
          | Some u =>
              if String.eqb u "" then (Threw, s)
              else (Awaiting, mkState (mkCached None (Some Pending)) (dialled s ++ [u]))
          end
      end
  end.

(** The driver settles the dial: with an instance, or with an error. *)
Definition settle (o : option Handle) (s : State) : State :=
  match promise (cached s) with
  | Some Pending =>
      mkState (mkCached (conn (cached s))
                 (Some (match o with
                        | Some m => Fulfilled m
                        | None => Rejected
                        end)))
        (dialled s)
  | _ => s
  end.

(** A suspended call goes on after the [await]:
    [cached.conn = await cached.promise; return cached.conn]. *)
Definition resume (s : State) : Progress * State :=
  match promise (cached s) with
  | Some (Fulfilled m) =>
      (Returned m, mkState (mkCached (Some m) (promise (cached s))) (dialled s))
  | Some Rejected => (Threw, s)
  | _ => (Awaiting, s)
  end.

Inductive Event : Type :=
| Call (uri : option string)
| Settle (o : option Handle)
| Resume.

Definition step (e : Event) (s : State) : list Progress * State :=
  match e with
  | Call uri => let r := enter uri s in ([fst r], snd r)
  | Settle o => ([], settle o s)
  | Resume => let r := resume s in ([fst r], snd r)
  end.

(** A history of the instance: what the calls came to, in order, and the
    state it ends in. *)
Fixpoint run (es : list Event) (s : State) : list Progress * State :=
  match es with
  | [] => ([], s)
  | e :: rest =>
      let r := step e s in
      let rs := run rest (snd r) in
      (fst r ++ fst rs, snd rs)
  end.

(** A cold instance. *)
Definition cold : State := mkState (mkCached None None) [].

(** What the cache promises about itself. *)
Definition coherent (s : State) : Prop :=
  match promise (cached s) with
  | None => conn (cached s) = None ∧ dialled s = []
  | Some p => length (dialled s) = 1%nat
              ∧ ∀ m, conn (cached s) = Some m → p = Fulfilled m
  end.

(** The dial has failed. *)
Definition broken (s : State) : Prop :=
  conn (cached s) = None ∧ promise (cached s) = Some Rejected.

(** Two calls that overlap, and a third on the warm instance; the variable
    is unset by then. *)
Definition warm_up : list Event :=
  [Call (Some "mongodb://db.example.org/academy");
   Call (Some "mongodb://db.example.org/academy");
   Settle (Some 7%N); Resume; Resume; Call None].

(** A first call, whose dial fails. *)
Definition outage : list Event :=
  [Call (Some "mongodb://db.example.org/academy"); Settle None; Resume].

End DbConnect.

(** Alice writes the level-3 class into her own enrolled-set. *)
Definition alice_rewrites_classes : Request :=
  mkRequest (Some "user_alice") None alice_id ∅
    [("enrolledClasses", JArr [JStr class_a])].

(** The filter GET /user builds from a query. *)
Definition userFilter (q : gmap string string) : list (string * string) :=
  validateInput q ["_id"; "email"; "whatsapp"].

(** Bob, an admin, looks Alice up by her email. *)
Definition bob_looks_up_alice : Request :=
  mkRequest (Some "user_bob") None "" {[ "email" := "alice@example.org" ]} [].

(** * The window of GET /users (second version), [api/routes/user-routes.js] *)

Module UsersPage.

(** [Number.isNaN] *)
Definition isNaN (x : num) : bool :=
  match x with
  | NaN => true
  | _ => false
  end.

(** [a < b]; every comparison with NaN is false. *)
Definition num_ltb (a b : num) : bool :=
  match a, b with
  | NaN, _ | _, NaN => false
  | _, NegInf => false
  | NegInf, _ => true
  | PosInf, _ => false
  | _, PosInf => true
  | Fin x, Fin y => negb (Qle_bool y x)
  end.

(** [!Number.isNaN(page) && page > 0 && !Number.isNaN(limit) && limit > 0]:
    whether the answer is a window or the whole list. *)
Definition paginated (page limit : num) : bool :=
  negb (isNaN page) && num_ltb (of_Z 0) page
  && negb (isNaN limit) && num_ltb (of_Z 0) limit.

(** [Math.min(200, Math.max(1, limit))] *)
Definition cappedLimit (limit : num) : num :=
  Math_min (of_Z 200) (Math_max (of_Z 1) limit).

(** [(page - 1) * cappedLimit] *)
Definition skip (page limit : num) : num :=
  num_mul (num_sub page (of_Z 1)) (cappedLimit limit).

End UsersPage.

(** The run from [w] to [w'] has issued no call to the IdP. *)
Definition noIdpCall (w w' : World) : Prop :=
  ∃ evs, trace w' = trace w ++ evs ∧ Forall (λ ev, isIdpCall ev = false) evs.

(** The middleware of a route, up to the handler: the request as the last
    of them passes it on, or the answer of the one that stopped. *)
Fixpoint gates (ms : list Middleware) : Middleware :=
  λ req w,
    match ms with
    | [] => (Next req, w)
    | m :: rest =>
        match m req w with
        | (Next req', w') => gates rest req' w'
        | (Done res, w') => (Done res, w')
        end
    end.

(** ** Page and limit as they are usually written

    The parameters for which the model's [Number] reads what JavaScript
    reads, and for which the guards and the product [(page - 1) * limit] are
    exact in double precision: absent, empty, or at most twelve decimal
    digits. *)
Definition isDigit (c : ascii) : bool :=
  match digit c with
  | Some _ => true
  | None => false
  end.

Definition plainNumeral (s : string) : bool :=
  Nat.leb (String.length s) 12 && forallb isDigit (list_ascii_of_string s).

Definition plainParam (v : option string) : bool :=
  match v with
  | Some s => plainNumeral s
  | None => true
  end.

(** The number such a parameter spells; an absent or empty one counts as 0,
    which the guards replace by their default. *)
Definition paramValue (v : option string) : nat :=
  match v with
  | Some s =>
      match digits s 0 with
      | Some z => Z.to_nat z
      | None => 0
      end
  | None => 0
  end.

(** The limit and the page the guards make of these numbers. *)
Definition windowLimit (n : nat) : nat := if Nat.eqb n 0 then 100 else Nat.min 200 n.
Definition windowPage (n : nat) : nat := if Nat.eqb n 0 then 1 else n.

(** Bob asks for the second page, one student a page. *)
Definition bob_lists_second_page : Request :=
  mkRequest (Some "user_bob") None "" {[ "page" := "2"; "limit" := "1" ]} [].
(** * Properties *)

#[local] Set Warnings "-clear-no-such-hyp".

(** ** Pagination guards *)

Lemma Qle_bool_false (x y : Q) : Qle_bool x y = false → (y <= x)%Q.
Proof.
  intros H. apply Qlt_le_weak, Qnot_le_lt. intros L.
  apply Qle_bool_iff in L. congruence.
Qed.

Lemma limitGuard_lower (raw : num) : num_le (of_Z 1) (limitGuard raw).
Proof.
  unfold num_le, limitGuard, js_or.
  destruct raw as [| |q|]; simpl; try reflexivity.
  destruct (negb (Qeq_bool q 0)); simpl; [|reflexivity].
  destruct (Qle_bool (inject_Z 200) q) eqn:E1; simpl; [reflexivity|].
  destruct (Qle_bool (inject_Z 1) q) eqn:E2; simpl; [exact E2|reflexivity].
Qed.

Lemma limitGuard_upper (raw : num) : num_le (limitGuard raw) (of_Z 200).
Proof.
  unfold num_le, limitGuard, js_or.
  destruct raw as [| |q|]; simpl; try reflexivity.
  destruct (negb (Qeq_bool q 0)); simpl; [|reflexivity].
  destruct (Qle_bool (inject_Z 200) q) eqn:E1; simpl; [reflexivity|].
  destruct (Qle_bool (inject_Z 1) q) eqn:E2; simpl; [|reflexivity].
  apply Qle_bool_iff, Qle_bool_false, E1.
Qed.

Lemma pageGuard_lower (raw : num) : num_le (of_Z 1) (pageGuard raw).
Proof.
  unfold num_le, pageGuard, js_or.
  destruct raw as [| |q|]; simpl; try reflexivity.
  destruct (negb (Qeq_bool q 0)); simpl; [|reflexivity].
  destruct (Qle_bool (inject_Z 1) q) eqn:E2; simpl; [exact E2|reflexivity].
Qed.

Lemma limitOf_setQuery (v : string) (req : Request) :
  limitOf (setQuery "limit" v req) = limitGuard (Number (Some v)).
Proof. unfold limitOf, setQuery. simpl. by rewrite lookup_insert_eq. Qed.

(** C9, the claim as stated fails: [limit=0] is not clamped to 1; zero is
    falsy, so the default 100 is taken before the clamp. *)
Lemma C9_limit_zero_counterexample :
  limitOf limit_zero_request = of_Z 100 ∧ limitOf limit_zero_request ≠ of_Z 1.
Proof. split; [reflexivity | discriminate]. Qed.

(** C9 (amended): for every request the effective limit lies in [1, 200]
    and the effective page is at least 1, with skip = (page - 1) * limit; the
    limit is the default 100 when the parameter is absent or is 0, and
    limit=10000 is clamped to 200.  The bounds hold for whatever number the
    coercion of the raw parameter yields. *)
Theorem C9_pagination_guards (req : Request) (raw : num) :
  num_le (of_Z 1) (limitOf req) ∧ num_le (limitOf req) (of_Z 200)
  ∧ num_le (of_Z 1) (pageOf req)
  ∧ skipOf req = num_mul (num_sub (pageOf req) (of_Z 1)) (limitOf req)
  ∧ num_le (of_Z 1) (limitGuard raw) ∧ num_le (limitGuard raw) (of_Z 200)
  ∧ num_le (of_Z 1) (pageGuard raw)
  ∧ limitGuard NaN = of_Z 100
  ∧ limitOf (setQuery "limit" "0" req) = of_Z 100
  ∧ limitOf (setQuery "limit" "10000" req) = of_Z 200.
Proof.
  repeat split;
    try apply limitGuard_lower; try apply limitGuard_upper; try apply pageGuard_lower;
    try reflexivity; rewrite limitOf_setQuery; reflexivity.
Qed.

(** ** Object ids on the wire *)

Example cast_ignores_case :
  castObjectId "0000000000000000000000a1" = Some 161%N
  ∧ castObjectId "0000000000000000000000A1" = Some 161%N
  ∧ toHexString 161 = "0000000000000000000000a1".
Proof. repeat split. Qed.

Example malformed_ids :
  isValid "" = false ∧ isValid "42" = false
  ∧ isValid "00000000000000000000000g" = false
  ∧ isValid alice_id = true.
Proof. repeat split. Qed.

Example select_words :
  words "_id clerkId" = ["_id"; "clerkId"] ∧ words " a  b " = ["a"; "b"].
Proof. repeat split. Qed.

(** ** Running computations: inversion principles *)

Arguments castObjectId : simpl never.
Arguments isValid : simpl never.
Arguments userDoc : simpl never.
Arguments classDoc : simpl never.
Arguments validateInput : simpl never.

Lemma ret_inv {A} (a : A) w r w' : ret a w = (r, w') → r = Ret a ∧ w' = w.
Proof. unfold ret. intros [= <- <-]. done. Qed.

Lemma raise_inv {A} (e : Error) w (r : Outcome A) w' :
  raise e w = (r, w') → r = Raise e ∧ w' = w.
Proof. unfold raise. intros [= <- <-]. done. Qed.

Lemma bind_inv {A B} (m : M A) (k : A → M B) w r w' :
  bind m k w = (r, w') →
  (∃ a w1, m w = (Ret a, w1) ∧ k a w1 = (r, w'))
  ∨ (∃ e, m w = (Raise e, w') ∧ r = Raise e).
Proof.
  unfold bind. destruct (m w) as [[a|e] w1]; intros E.
  - left. eauto.
  - right. injection E as <- <-. eauto.
Qed.

Lemma try_catch_inv {A} (m : M A) (h : Error → A) w res w' :
  try_catch m h w = (res, w') →
  (m w = (Ret res, w')) ∨ (∃ e, m w = (Raise e, w') ∧ res = h e).
Proof.
  unfold try_catch. destruct (m w) as [[a|e] w1]; intros [= <- <-]; eauto.
Qed.

(** What a boundary call can do: fail by script, fail by itself, or go
    through; in every case one entry of the script is consumed and one event
    is logged. *)
Lemma boundary_inv {A} op (act : World → Error + (A * World)) w r w' :
  boundary op act w = (r, w') →
  let w0 := set_faults (tail (faults w)) w in
  (hd false (faults w) = true ∧ r = Raise Unavailable ∧ w' = log (op, false) w0)
  ∨ (hd false (faults w) = false
     ∧ ((∃ e, act w0 = inl e ∧ r = Raise e ∧ w' = log (op, false) w0)
        ∨ (∃ a w1, act w0 = inr (a, w1) ∧ r = Ret a ∧ w' = log (op, true) w1))).
Proof.
  unfold boundary. simpl. destruct (hd false (faults w)).
  - intros [= <- <-]. left. done.
  - destruct (act _) as [e|[a w1]] eqn:E; intros [= <- <-]; right; split; eauto 8.
Qed.

Lemma cast_inv raw w r w' :
  cast raw w = (r, w') →
  w' = w ∧ ((∃ id, castObjectId raw = Some id ∧ r = Ret id)
            ∨ (castObjectId raw = None ∧ r = Raise CastError)).
Proof.
  unfold cast. destruct (castObjectId raw) as [id|].
  - intros [-> ->]%ret_inv. eauto.
  - intros [-> ->]%raise_inv. eauto.
Qed.

Lemma isValid_cast s : isValid s = true → ∃ o, castObjectId s = Some o.
Proof. unfold isValid. destruct (castObjectId s); [eauto | discriminate]. Qed.

Lemma isValid_false s : isValid s = false → castObjectId s = None.
Proof. unfold isValid. destruct (castObjectId s); [discriminate | done]. Qed.

(** [requireAuth] lets through exactly the requests that carry a session,
    with the subject id attached, and touches nothing. *)
Lemma requireAuth_inv (req : Request) w st w' :
  requireAuth req w = (st, w') →
  w' = w
  ∧ ((∃ s, session req = Some s ∧ String.eqb s "" = false
           ∧ st = Next (mkRequest (session req) (Some s) (params_id req) (query req)
                          (body req)))
     ∨ st = Done (message 401 "Unauthorized")).
Proof.
  unfold requireAuth. destruct (session req) as [s|]; [|intros [= <- <-]; auto].
  destruct (String.eqb s "") eqn:E; intros [= <- <-]; eauto 6.
Qed.

(** Projections of the world and of the request through the setters. *)
Ltac world_simpl :=
  cbn [users classes idp trace faults set_users set_classes set_idp set_faults log
       subjects nextEmailId set_subjects fst snd
       session auth params_id query body] in *.

(** One step of the inversion of a run found among the hypotheses: the
    monadic operators are inverted, the boundary calls are split into their
    outcomes, and the data a branch depends on is case-split. *)
Ltac run_step :=
  match goal with
  | H : ret _ _ = (_, _) |- _ => apply ret_inv in H as [? ?]
  | H : raise _ _ = (_, _) |- _ => apply raise_inv in H as [? ?]
  | H : cast _ _ = (_, _) |- _ =>
      apply cast_inv in H as [? [(? & ? & ?) | (? & ?)]]
  | H : bind _ _ _ = (_, _) |- _ =>
      apply bind_inv in H as [(? & ? & ? & H) | (? & H & ?)];
      [cbv beta in H |]
  | H : boundary _ _ _ = (_, _) |- _ =>
      apply boundary_inv in H as [(? & ? & ?) | (? & [(? & H & ? & ?) | (? & ? & H & ? & ?)])];
      cbv beta zeta in H
  | H : try_catch _ _ _ = (_, _) |- _ =>
      apply try_catch_inv in H as [H | (? & H & ?)]
  | H : context [if String.eqb ?s "" then _ else _], H' : String.eqb ?s "" = false |- _ =>
      rewrite H' in H
  | H : User_findById _ _ = (_, _) |- _ => unfold User_findById in H
  | H : User_findOne _ _ = (_, _) |- _ => unfold User_findOne in H; cbn [filterCastable forallb fst snd String.eqb Ascii.eqb Bool.eqb andb] in H
  | H : User_findByIdAndUpdate _ _ _ = (_, _) |- _ => unfold User_findByIdAndUpdate in H
  | H : User_findByIdAndDelete _ _ = (_, _) |- _ => unfold User_findByIdAndDelete in H
  | H : Class_findById _ _ = (_, _) |- _ => unfold Class_findById in H
  | H : Class_findByIdAndUpdate _ _ _ = (_, _) |- _ => unfold Class_findByIdAndUpdate in H
  | H : castIdArg _ _ = (_, _) |- _ => unfold castIdArg in H
  | H : createEmailAddress _ _ _ _ _ = (_, _) |- _ => unfold createEmailAddress in H
  | H : getUser _ _ = (_, _) |- _ => unfold getUser in H
  | H : deleteEmailAddress _ _ = (_, _) |- _ => unfold deleteEmailAddress in H
  | H : deleteUser _ _ = (_, _) |- _ => unfold deleteUser in H
  | H : requireAuth _ _ = (_, _) |- _ =>
      apply requireAuth_inv in H as [? [(? & ? & ? & ?) | ?]]
  | H : allowSelfOrPriv _ _ = (_, _) |- _ => unfold allowSelfOrPriv, getMe, authUserId in H
  | H : requireAdminOrInstructor _ _ = (_, _) |- _ =>
      unfold requireAdminOrInstructor, authUserId in H
  | H : (if ?b then _ else _) _ = (_, _) |- _ => destruct b eqn:?
  | H : (match ?x with _ => _ end) _ = (_, _) |- _ => destruct x eqn:?
  | H : (if ?b then _ else _) = inl _ |- _ => destruct b eqn:?
  | H : (if ?b then _ else _) = inr _ |- _ => destruct b eqn:?
  | H : (match ?x with _ => _ end) = inl _ |- _ => destruct x eqn:?
  | H : (match ?x with _ => _ end) = inr _ |- _ => destruct x eqn:?
  | H : (match ?x with _ => _ end) = (_, _) |- _ => destruct x eqn:?
  end.

Ltac run_with tac := repeat (run_step; simplify_eq; world_simpl; tac).
Ltac run_all := run_with idtac.

(** ** Sets of ids *)

Lemma elem_of_addToSet (x c : N) (l : list N) : x ∈ addToSet c l ↔ x = c ∨ x ∈ l.
Proof.
  unfold addToSet. destruct (decide (c ∈ l)).
  - split; [auto | intros [-> | ?]; done].
  - rewrite elem_of_app, list_elem_of_singleton. tauto.
Qed.

Lemma elem_of_pull (x c : N) (l : list N) : x ∈ pull c l ↔ x ≠ c ∧ x ∈ l.
Proof. unfold pull. by rewrite list_elem_of_filter. Qed.

Lemma NoDup_addToSet (c : N) (l : list N) : NoDup l → NoDup (addToSet c l).
Proof.
  intros H. unfold addToSet. destruct (decide (c ∈ l)); [done|].
  apply NoDup_app. split; [done|]. split; [| apply NoDup_singleton].
  intros x Hx ->%list_elem_of_singleton. done.
Qed.

Lemma NoDup_pull (c : N) (l : list N) : NoDup l → NoDup (pull c l).
Proof. intros H. unfold pull. by apply NoDup_filter. Qed.

(** ** Enrollment *)

Ltac unfold_db :=
  unfold User_findById, User_findByIdAndUpdate, User_findByIdAndDelete, User_findOne,
    Class_findById, Class_findByIdAndUpdate, castIdArg, createEmailAddress, getUser,
    deleteEmailAddress, deleteUser in *.

(** What a successful enroll has done. *)
Lemma enroll_201 req w res w' :
  PUT_enroll req w = (res, w') → status res = 201 →
  ∃ id c u cls,
    castObjectId (params_id req) = Some id
    ∧ users w !! id = Some u ∧ classes w !! c = Some cls
    ∧ users w' = <[id := withEnrolled (addToSet c) u]> (users w)
    ∧ classes w' = <[c := withRoster (addToSet id) cls]> (classes w).
Proof.
  unfold PUT_enroll, route, enrollHandler. intros E S.
  destruct (isValid (params_id req)) eqn:V; simpl in E;
    [| injection E as <- <-; discriminate].
  unfold_db. run_all; try discriminate; try congruence.
  simplify_eq/=. eexists _, _, _, _. repeat split; eauto.
Qed.

(** What a successful unenroll has done. *)
Lemma unenroll_201 req w res w' :
  PUT_unenroll req w = (res, w') → status res = 201 →
  ∃ id c u,
    castObjectId (params_id req) = Some id
    ∧ users w !! id = Some u
    ∧ users w' = <[id := withEnrolled (pull c) u]> (users w)
    ∧ (classes w' = classes w ∧ classes w !! c = None
       ∨ ∃ cls, classes w !! c = Some cls
                ∧ classes w' = <[c := withRoster (pull id) cls]> (classes w)).
Proof.
  unfold PUT_unenroll, route, unenrollHandler. intros E S.
  destruct (isValid (params_id req)) eqn:V; simpl in E;
    [| injection E as <- <-; discriminate].
  unfold_db. run_all; try discriminate; try congruence.
  - simplify_eq/=. eexists _, _, _. repeat split; eauto.
  - simplify_eq/=. eexists _, _, _. repeat split; eauto.
Qed.

Lemma enroll_consistent req w :
  consistent w → status (fst (PUT_enroll req w)) = 201 →
  consistent (snd (PUT_enroll req w)).
Proof.
  intros [L D] S. destruct (PUT_enroll req w) as [res w'] eqn:E. simpl in *.
  destruct (enroll_201 _ _ _ _ E S) as (id & c & u & cls & _ & Hu & Hc & Us & Cs).
  split.
  - intros u' c' ud cd. rewrite Us, Cs, !lookup_insert.
    destruct (decide (id = u')) as [<-|Nu], (decide (c = c')) as [<-|Nc];
      intros ? ?; simplify_eq; simpl;
      rewrite ?elem_of_addToSet.
    + naive_solver.
    + rewrite (L id c' u cd) by done. naive_solver.
    + rewrite (L u' c ud cls) by done. naive_solver.
    + by apply L.
  - intros c' cd. rewrite Cs, lookup_insert.
    destruct (decide (c = c')) as [<-|Nc]; intros ?; simplify_eq; simpl.
    + apply NoDup_addToSet. by eapply D.
    + by eapply D.
Qed.

Lemma unenroll_consistent req w :
  consistent w → status (fst (PUT_unenroll req w)) = 201 →
  consistent (snd (PUT_unenroll req w)).
Proof.
  intros [L D] S. destruct (PUT_unenroll req w) as [res w'] eqn:E. simpl in *.
  destruct (unenroll_201 _ _ _ _ E S)
    as (id & c & u & _ & Hu & Us & [[Cs Hc] | (cls & Hc & Cs)]).
  - split.
    + intros u' c' ud cd. rewrite Us, Cs, lookup_insert.
      destruct (decide (id = u')) as [<-|Nu]; intros ? Hcd; simplify_eq; simpl.
      * rewrite elem_of_pull, (L id c' u cd) by done.
        split; [tauto | intros ?; split; [congruence | done]].
        (* c' is a class of the store, c is not *)
      * by apply L.
    + intros c' cd. rewrite Cs. apply D.
  - split.
    + intros u' c' ud cd. rewrite Us, Cs, !lookup_insert.
      destruct (decide (id = u')) as [<-|Nu], (decide (c = c')) as [<-|Nc];
        intros ? ?; simplify_eq; simpl;
        rewrite ?elem_of_pull.
      * naive_solver.
      * rewrite (L id c' u cd) by done. naive_solver.
      * rewrite (L u' c ud cls) by done. naive_solver.
      * by apply L.
    + intros c' cd. rewrite Cs, lookup_insert.
      destruct (decide (c = c')) as [<-|Nc]; intros ?; simplify_eq; simpl.
      * apply NoDup_pull. by eapply D.
      * by eapply D.
Qed.

(** C7: for every sequence of successful enroll and unenroll operations
    applied to arbitrary user/class pairs from a consistent state, the state
    reached is consistent: for every user u and class c, c is in
    u.enrolledClasses iff u's id is in c.roster, and no roster holds a user id
    twice. *)
Theorem C7_roster_integrity (ops : list RosterOp) (w : World) :
  consistent w →
  Forall (λ res, status res = 201) (fst (runOps ops w)) →
  (∀ u c ud cd,
      users (snd (runOps ops w)) !! u = Some ud →
      classes (snd (runOps ops w)) !! c = Some cd →
      (c ∈ enrolledClasses ud ↔ u ∈ roster cd) ∧ NoDup (roster cd)).
Proof.
  intros C S.
  assert (consistent (snd (runOps ops w))) as [L D].
  { revert w C S. induction ops as [|op ops IH]; intros w C S; [done|].
    simpl in *. apply Forall_cons in S as [S1 S2].
    apply IH; [| done].
    destruct op; simpl in *; [by apply enroll_consistent | by apply unenroll_consistent]. }
  intros u c ud cd Hu Hc. split; [by apply L | by eapply D].
Qed.

(** ** Orders in a trace *)

Lemma precededByb_sound key guarded seen evs :
  precededByb key guarded seen evs = true →
  ∀ pre ev post, evs = pre ++ ev :: post → guarded ev = true →
    seen || existsb key pre = true.
Proof.
  revert seen. induction evs as [|e evs IH]; intros seen H pre ev post E G.
  - by destruct pre.
  - simpl in H. apply andb_true_iff in H as [H1 H2].
    destruct pre as [|p pre]; simplify_eq/=.
    + rewrite G in H1. by rewrite H1.
    + specialize (IH _ H2 pre ev post eq_refl G).
      by rewrite orb_assoc.
Qed.

Lemma precededBy_check key guarded evs :
  precededByb key guarded false evs = true → precededBy key guarded evs.
Proof. intros H pre ev post E G. by apply (precededByb_sound _ _ _ _ H pre ev post). Qed.

(** The events a run has appended to the trace. *)
Ltac trace_suffix :=
  world_simpl; rewrite <- ?app_assoc; simpl;
  first [reflexivity | symmetry; apply app_nil_r].

(** C5, the claim as stated fails: the second write of an enroll fails and
    no compensating [$pull] follows; the user keeps the class. *)
Lemma C5_no_compensation_counterexample :
  let r := PUT_enroll (enrollRequest alice_id class_a) academy_failing_fourth in
  existsb (λ ev, isAddRoster 1 161 ev && failed ev) (trace (snd r)) = true
  ∧ existsb isPullEnrolled (trace (snd r)) = false
  ∧ enrolledClasses <$> users (snd r) !! 1%N = Some [161%N]
  ∧ roster <$> classes (snd r) !! 161%N = Some [].
Proof. vm_compute. done. Qed.

(** C5 (amended): in enroll, the add of classId to the user's enrolled-set
    is issued (and has succeeded) before the add of userId to the class's
    roster; whenever the second write fails the error is surfaced to the
    caller as a 500, and no compensating [$pull] is issued: the user's
    enrolled-set keeps classId. *)
Theorem C5_enroll_write_order (req : Request) (w : World) :
  ∃ evs, trace (snd (PUT_enroll req w)) = trace w ++ evs
    ∧ (∀ u c, precededBy (isAddEnrolled u c) (isAddRoster u c) evs)
    ∧ (∀ u c, existsb (λ ev, isAddRoster u c ev && failed ev) evs = true →
         status (fst (PUT_enroll req w)) = 500
         ∧ existsb isPullEnrolled evs = false
         ∧ ∃ ud, users (snd (PUT_enroll req w)) !! u = Some ud ∧ c ∈ enrolledClasses ud).
Proof.
  destruct (PUT_enroll req w) as [res w'] eqn:E.
  unfold PUT_enroll, route, enrollHandler in E.
  destruct (isValid (params_id req)) eqn:V; simpl in E.
  2:{ injection E as <- <-. exists []. split; [trace_suffix|].
      split; [by intros ? ? [] ? ? ?|]. discriminate. }
  unfold_db. run_all.
  all: eexists; (split; [trace_suffix|]).
  all: split;
    [intros u' c'; apply precededBy_check; simpl;
     repeat match goal with |- context [N.eqb ?a ?b] => destruct (N.eqb a b) end;
     reflexivity|].
  all: intros u' c' F; simpl in F; unfold failed in F; simpl in F;
    rewrite ?andb_false_r in F; simpl in F; try discriminate.
  rewrite orb_false_r, andb_true_r in F.
  apply andb_true_iff in F as [->%N.eqb_eq ->%N.eqb_eq].
  simplify_eq/=. split; [done|]. split; [done|].
  eexists. split; [apply lookup_insert_eq|]. simpl. apply elem_of_addToSet; auto.
Qed.

Lemma C5_enroll_write_order_witness :
  status (fst (PUT_enroll (enrollRequest alice_id class_a) academy_failing_fourth)) = 500.
Proof.
  destruct (C5_enroll_write_order (enrollRequest alice_id class_a) academy_failing_fourth)
    as (evs & Ht & _ & Hf).
  apply (Hf 1%N 161%N).
  vm_compute in Ht. rewrite <- Ht. vm_compute. reflexivity.
Defined.

Lemma C7_roster_integrity_witness :
  ∃ ud cd,
    users (snd (runOps term_start academy)) !! 3%N = Some ud
    ∧ classes (snd (runOps term_start academy)) !! 161%N = Some cd
    ∧ (161%N ∈ enrolledClasses ud ↔ 3%N ∈ roster cd) ∧ NoDup (roster cd).
Proof.
  eexists _, _. split; [vm_compute; reflexivity|]. split; [vm_compute; reflexivity|].
  apply (C7_roster_integrity term_start academy).
  - assert (map_Forall (λ _ ud, enrolledClasses ud = []) (users academy)) as Hu
      by (apply (bool_decide_unpack _); vm_compute; exact I).
    assert (map_Forall (λ _ cd, roster cd = []) (classes academy)) as Hc
      by (apply (bool_decide_unpack _); vm_compute; exact I).
    split.
    + intros u c ud cd Eu Ec. rewrite (Hu _ _ Eu), (Hc _ _ Ec).
      split; intros []%elem_of_nil.
    + intros c cd Ec. rewrite (Hc _ _ Ec). apply NoDup_nil_2.
  - vm_compute. repeat constructor.
  - vm_compute. reflexivity.
  - vm_compute. reflexivity.
Defined.

(** ** The enrollment routes and the session *)


Lemma Forall_false_hd (l : list bool) : Forall (λ b, b = false) l → hd false l = false.
Proof. by destruct 1. Qed.

Lemma Forall_false_tail (l : list bool) :
  Forall (λ b, b = false) l → Forall (λ b, b = false) (tail l).
Proof. destruct 1; [constructor | done]. Qed.

(** No call fails in a reliable world. *)
Ltac reliably R :=
  try match goal with
      | H : hd false _ = true |- _ =>
          exfalso; rewrite Forall_false_hd in H;
          [discriminate | repeat apply Forall_false_tail; exact R]
      end.




(** ** Who the caller is *)

Lemma userMatches_clerkId (s : string) (p : N * User) :
  userMatches [("clerkId", s)] p = String.eqb (clerkId (snd p)) s.
Proof.
  unfold userMatches, matches, fieldMatches, userDoc. simpl. apply andb_true_r.
Qed.

Lemma find_ext {A} (f g : A → bool) (l : list A) :
  (∀ x, f x = g x) → List.find f l = List.find g l.
Proof. intros H. induction l as [|x l IH]; simpl; [done|]. by rewrite H, IH. Qed.

Lemma findOne_clerkId (s : string) (w : World) :
  List.find (userMatches [("clerkId", s)]) (allUsers w) = resolveRole w s.
Proof. apply find_ext, userMatches_clerkId. Qed.

Lemma privilegedDoc_select (id : N) (u : User) :
  privilegedDoc (select "privilege" (userDoc id u)) = isPrivileged (privilege u).
Proof. destruct u as [? ? ? ? [?|] [?|] [] ? ?]; reflexivity. Qed.

Lemma isAdminOrInstructor_resolve (w : World) (s : string) :
  isAdminOrInstructor (leanSelect "privilege" (resolveRole w s)) = privileged w s.
Proof.
  unfold privileged. destruct (resolveRole w s) as [[id u]|]; simpl; [|done].
  apply privilegedDoc_select.
Qed.

Lemma getField_clerkId (id : N) (u : User) :
  getField "clerkId" (userDoc id u) = Some (JStr (clerkId u)).
Proof. reflexivity. Qed.

Lemma resolveRole_clerkId (w : World) (s : string) (p : N * User) :
  resolveRole w s = Some p → clerkId (snd p) = s.
Proof. intros [_ H]%find_some. by apply String.eqb_eq. Qed.

(** [getMe] reads one document and changes nothing but the fault script
    and the trace. *)
Lemma getMe_inv (req : Request) (s : string) w r w' :
  authUserId req = Some s →
  getMe req w = (r, w') →
  users w' = users w ∧ classes w' = classes w ∧ idp w' = idp w
  ∧ faults w' = tail (faults w)
  ∧ ((hd false (faults w) = true ∧ r = Raise Unavailable
      ∧ trace w' = trace w ++ [(UserFindOne [("clerkId", s)], false)])
     ∨ (hd false (faults w) = false
        ∧ r = Ret (leanSelect "privilege" (resolveRole w s))
        ∧ trace w' = trace w ++ [(UserFindOne [("clerkId", s)], true)])).
Proof.
  intros A E. unfold getMe in E. rewrite A in E. unfold User_findOne in E. simpl in E.
  run_all; rewrite ?findOne_clerkId; repeat split; auto.
Qed.

Lemma reliable_hd (w : World) : reliable w → hd false (faults w) = false.
Proof. unfold reliable. by destruct 1. Qed.

Lemma reliable_tail_hd (w : World) : reliable w → hd false (tail (faults w)) = false.
Proof. unfold reliable. destruct 1 as [|? ? ? []]; done. Qed.

Lemma getField_clerkId_select (id : N) (u : User) :
  getField "clerkId" (select "_id clerkId" (userDoc id u)) = Some (JStr (clerkId u)).
Proof. destruct u as [? ? ? ? [?|] [?|] ? ? ?]; reflexivity. Qed.

Lemma authUserId_Some (req : Request) (s : string) :
  auth req = Some s → s ≠ "" → authUserId req = Some s.
Proof.
  intros A N. unfold authUserId. rewrite A.
  destruct (String.eqb s "") eqn:E; [by apply String.eqb_eq in E | done].
Qed.

Lemma privileged_set_faults (fs : list bool) (w : World) (s : string) :
  privileged (set_faults fs w) s = privileged w s.
Proof. reflexivity. Qed.

Lemma castObjectId_empty : castObjectId "" = None.
Proof. reflexivity. Qed.

(** ** The self-or-privileged gate *)

Lemma allowSelfOrPriv_gateSpec (req : Request) (w : World) (s : string) st w' :
  auth req = Some s → s ≠ "" → reliable w →
  allowSelfOrPriv req w = (st, w') → st = gateSpec w s req.
Proof.
  intros A N R E. pose proof (authUserId_Some _ _ A N) as AU.
  pose proof (reliable_hd _ R). pose proof (reliable_tail_hd _ R).
  unfold allowSelfOrPriv, getMe in E. rewrite AU in E.
  unfold_db. simpl in E. run_all; try congruence.
  all: rewrite ?findOne_clerkId, ?isAdminOrInstructor_resolve in *.
  all: unfold gateSpec.
  all: rewrite ?privileged_set_faults in *.
  all: try match goal with H : privileged _ _ = _ |- _ => rewrite H end.
  - done.
  - match goal with H : _ || _ = true |- _ =>
      apply orb_true_iff in H as [E%String.eqb_eq | E%negb_true_iff] end.
    + by rewrite E, castObjectId_empty.
    + by rewrite (isValid_false _ E).
  - match goal with H : castObjectId _ = Some _ |- _ => rewrite H end.
    destruct (users w !! _) as [t|]; cbn [leanSelect fmap option_fmap option_map] in *;
      simplify_eq.
    cbn [fst snd] in *.
    match goal with H : context [getField] |- _ =>
      rewrite getField_clerkId_select in H; by rewrite H end.
  - match goal with H : castObjectId _ = Some _ |- _ => rewrite H end.
    destruct (users w !! _) as [t|]; cbn [leanSelect fmap option_fmap option_map] in *;
      simplify_eq.
    cbn [fst snd] in *.
    match goal with H : context [getField] |- _ =>
      rewrite getField_clerkId_select in H; by rewrite H end.
  - match goal with H : castObjectId _ = Some _ |- _ => rewrite H end.
    by destruct (users w !! _) as [t|];
      cbn [leanSelect fmap option_fmap option_map] in *; simplify_eq.
  - match goal with H : _ || _ = false |- _ =>
      apply orb_false_iff in H as [_ V%negb_false_iff] end.
    apply isValid_cast in V as [? ?]. congruence.
Qed.

(** C6: behind [requireAuth] and with the store answering, the
    self-or-privileged gate passes iff the caller is privileged or the target
    user's IdP id equals the caller's session subject id; otherwise, for a
    non-privileged caller, it rejects with 400 on a malformed id, 404 when the
    target user does not exist, and 403 in every other case. *)
Theorem C6_self_or_privileged_gate (req : Request) (w : World) (s : string) :
  auth req = Some s → s ≠ "" → reliable w →
  fst (allowSelfOrPriv req w) = gateSpec w s req
  ∧ (fst (allowSelfOrPriv req w) = Next req ↔
       privileged w s = true
       ∨ ∃ id target, castObjectId (params_id req) = Some id
                      ∧ users w !! id = Some target ∧ clerkId target = s)
  ∧ (privileged w s = false →
       (castObjectId (params_id req) = None →
          fst (allowSelfOrPriv req w) = Done (message 400 "Invalid ID"))
       ∧ (∀ id, castObjectId (params_id req) = Some id → users w !! id = None →
            fst (allowSelfOrPriv req w) = Done (message 404 "User not found"))
       ∧ (∀ id target, castObjectId (params_id req) = Some id →
            users w !! id = Some target → clerkId target ≠ s →
            fst (allowSelfOrPriv req w) = Done (message 403 "Forbidden"))).
Proof.
  intros A N R.
  assert (fst (allowSelfOrPriv req w) = gateSpec w s req) as G.
  { destruct (allowSelfOrPriv req w) as [st w'] eqn:E. simpl.
    by eapply allowSelfOrPriv_gateSpec. }
  rewrite G. unfold gateSpec. split; [done|]. split.
  - destruct (privileged w s); [by split; auto|].
    destruct (castObjectId (params_id req)) as [id|]; [|split; [done | naive_solver]].
    destruct (users w !! id) as [t|] eqn:T; [|split; [done | naive_solver]].
    destruct (String.eqb (clerkId t) s) eqn:C.
    + apply String.eqb_eq in C. split; [|done]. intros _. right. eauto.
    + apply String.eqb_neq in C. split; [done | naive_solver].
  - intros ->. split; [by intros ->|]. split.
    + by intros id -> ->.
    + intros id t -> -> C. apply String.eqb_neq in C. by rewrite C.
Qed.

Lemma C6_self_or_privileged_gate_witness :
  fst (allowSelfOrPriv alice_own academy) = Next alice_own.
Proof.
  destruct (C6_self_or_privileged_gate alice_own academy "user_alice")
    as (_ & G & _).
  - reflexivity.
  - discriminate.
  - constructor.
  - apply G. right. exists 1%N, alice. vm_compute. done.
Defined.

(** ** GET /user *)

(** C10: for every authenticated caller whose privilege is neither admin
    nor instructor, GET /api/user answers with the record whose clerkId is the
    caller's session subject id (404 when there is none), whatever the query
    parameters: the same request with any other query gives the same response
    and the same effects, and every record returned carries the caller's own
    subject id. *)
Theorem C10_get_user_self_only (req : Request) (w : World) (s : string)
    (q : gmap string string) :
  session req = Some s → s ≠ "" → privileged w s = false →
  GET_user (withQuery q req) w = GET_user req w
  ∧ (∀ d, fst (GET_user req w) = mkResponse 200 (JObj d) →
          getField "clerkId" d = Some (JStr s))
  ∧ (reliable w →
     fst (GET_user req w) =
       match resolveRole w s with
       | Some p => mkResponse 200 (JObj (userDoc (fst p) (snd p)))
       | None => message 404 "User not found"
       end).
Proof.
  intros S N P.
  assert (String.eqb s "" = false) as N' by by apply String.eqb_neq.
  split; [|split].
  - unfold GET_user, route, requireAuth, withQuery. simpl. rewrite S, N'.
    unfold getUserHandler, try_catch, bind. simpl.
    destruct (getMe _ w) as [[me|e] w1] eqn:G; [|done].
    eapply getMe_inv in G as (_ & _ & _ & _ & [(_ & ? & _) | (_ & [= ->] & _)]);
      [done | | by unfold authUserId; simpl; rewrite N'].
    by rewrite isAdminOrInstructor_resolve, P.
  - intros d. destruct (GET_user req w) as [res w'] eqn:E. simpl. intros ->.
    unfold GET_user, route, requireAuth in E. rewrite S, N' in E.
    unfold getUserHandler, getMe, authUserId in E. simpl in E. rewrite N' in E.
    unfold_db. simpl in E. run_all; try discriminate.
    all: rewrite ?findOne_clerkId, ?isAdminOrInstructor_resolve,
           ?privileged_set_faults in *; try congruence.
    all: rewrite ?P in *; try discriminate.
    all: rewrite getField_clerkId; f_equal; f_equal; by eapply resolveRole_clerkId.
  - intros R. pose proof (reliable_hd _ R). pose proof (reliable_tail_hd _ R).
    destruct (GET_user req w) as [res w'] eqn:E. simpl.
    unfold GET_user, route, requireAuth in E. rewrite S, N' in E.
    unfold getUserHandler, getMe, authUserId in E. simpl in E. rewrite N' in E.
    unfold_db. simpl in E. run_all; try congruence.
    all: rewrite ?findOne_clerkId, ?isAdminOrInstructor_resolve,
           ?privileged_set_faults in *; try congruence.
    all: rewrite ?P in *; try discriminate.
    all: match goal with H : resolveRole _ ?s0 = ?r |- context [resolveRole ?w0 ?s0] =>
           change (resolveRole w0 s0 = r) in H; by rewrite H end.
Qed.

Lemma C10_get_user_self_only_witness :
  GET_user (withQuery ∅ alice_asks_bob) academy = GET_user alice_asks_bob academy
  ∧ fst (GET_user alice_asks_bob academy) = mkResponse 200 (JObj (userDoc 1 alice)).
Proof.
  destruct (C10_get_user_self_only alice_asks_bob academy "user_alice" ∅)
    as (Q & _ & F).
  - reflexivity.
  - discriminate.
  - vm_compute. reflexivity.
  - split; [exact Q|].
    rewrite F by constructor. vm_compute. reflexivity.
Defined.

(** ** The IdP mirror on an email change *)

(** C3, the claim as stated fails: the email of the body, the empty string,
    differs from the stored one, yet no address is added at the IdP and the
    update goes to the store. *)
Lemma C3_empty_email_counterexample :
  let r := PUT_user alice_blank_email academy in
  getField "email" (body alice_blank_email) = Some (JStr "")
  ∧ email <$> users academy !! 1%N = Some "alice@example.org"
  ∧ existsb isCreateEmail (trace (snd r)) = false
  ∧ existsb isLocalWrite (trace (snd r)) = true
  ∧ In (UserFindByIdAndUpdate 1 (SetFields [("email", JStr "")]), true) (trace (snd r))
  ∧ status (fst r) = 200.
Proof. vm_compute. intuition. Qed.

(** C3 (amended): on PUT /api/user/:id where [updates.email] is a non-empty
    string that differs from the stored email, the IdP add of the new address as a verified primary comes, and
    has succeeded, before any local write and before the old-address delete; a
    200 is only answered after it; and if the IdP add fails the handler
    reports an error (500) and the local store, so the user record and its
    email field, is unchanged. *)
Theorem C3_email_change_mirror_first (req : Request) (w : World)
    (id : N) (u : User) (e : string) :
  castObjectId (params_id req) = Some id →
  users w !! id = Some u →
  getField "email" (body req) = Some (JStr e) →
  e ≠ "" → e ≠ email u →
  ∃ evs, trace (snd (PUT_user req w)) = trace w ++ evs
    ∧ precededBy (isCreateEmailOk (clerkId u) e) isLocalWriteOrDeleteEmail evs
    ∧ (status (fst (PUT_user req w)) = 200 →
       existsb (isCreateEmailOk (clerkId u) e) evs = true)
    ∧ (existsb isCreateEmailFailed evs = true →
       status (fst (PUT_user req w)) = 500
       ∧ users (snd (PUT_user req w)) = users w
       ∧ classes (snd (PUT_user req w)) = classes w
       ∧ email <$> users (snd (PUT_user req w)) !! id = Some (email u)).
Proof.
  intros C U G N D.
  assert (String.eqb e "" = false) as N' by by apply String.eqb_neq.
  assert (String.eqb (email u) e = false) as D' by by apply String.eqb_neq.
  destruct (PUT_user req w) as [res w'] eqn:E.
  unfold PUT_user in E. cbn [route] in E. unfold putUserHandler in E.
  run_with ltac:(rewrite ?G, ?U in *;
                 cbn [fmap option_fmap option_map truthyJ differs] in *;
                 rewrite ?N', ?D' in *; cbn [negb andb] in * ).
  all: eexists; (split; [trace_suffix|]).
  all: split; [apply precededBy_check; simpl; rewrite ?String.eqb_refl; reflexivity |].
  all: split; [try (intros [=]); simpl; rewrite ?String.eqb_refl; try reflexivity |].
  all: try (intros [=]).
  all: done.
Qed.

Lemma C3_email_change_mirror_first_witness :
  existsb (isCreateEmailOk "user_alice" "alice@new.example.org")
    (trace (snd (PUT_user alice_new_email academy))) = true.
Proof.
  destruct (C3_email_change_mirror_first alice_new_email academy 1%N alice
              "alice@new.example.org") as (evs & Ht & _ & Ok & _).
  - reflexivity.
  - reflexivity.
  - reflexivity.
  - discriminate.
  - discriminate.
  - rewrite Ht. apply Ok. vm_compute. reflexivity.
Defined.

(** ** User deletion *)

Lemma pull_idemp (x : N) (l : list N) : pull x (pull x l) = pull x l.
Proof.
  unfold pull. induction l as [|y l IH]; [done|].
  rewrite (filter_cons _ y l). destruct (decide (y ≠ x)).
  - rewrite filter_cons. destruct (decide (y ≠ x)); [|done]. by rewrite IH.
  - done.
Qed.

Lemma pulledFrom_refl raw w : pulledFrom raw w w.
Proof. intros c. by left. Qed.

Lemma pulledFrom_trans raw w1 w2 w3 :
  pulledFrom raw w1 w2 → pulledFrom raw w2 w3 → pulledFrom raw w1 w3.
Proof.
  intros H12 H23 c. destruct (H23 c) as [E|(uid & cls & U & E2 & E3)].
  - rewrite E. apply H12.
  - destruct (H12 c) as [E'|(uid' & cls' & U' & E1 & E2')].
    + right. exists uid, cls. by rewrite <- E'.
    + right. exists uid, cls'. simplify_eq. repeat split; [done..|].
      rewrite E3. f_equal. destruct cls'; unfold withRoster; simpl.
      by rewrite pull_idemp.
Qed.

(** One roster pull of the cascade: only the classes change, and only by
    that pull. *)
Lemma rosterPull_inv (raw : string) (classId : N) w r w' :
  bind (cast raw) (λ uid, Class_findByIdAndUpdate classId (PullRoster uid)) w = (r, w') →
  users w' = users w ∧ idp w' = idp w ∧ pulledFrom raw w w'
  ∧ ∃ evs, trace w' = trace w ++ evs ∧ Forall (λ ev, isRosterPull ev = true) evs.
Proof.
  intros E. run_all.
  all: repeat split; try done; try (intros c; left; reflexivity).
  all: try (eexists; split; [trace_suffix | by repeat constructor]).
  intros c'. destruct (decide (c' = classId)) as [->|Nc].
  - right. eexists _, _. split; [eassumption|]. split; [eassumption|].
    simpl. by rewrite lookup_insert_eq.
  - left. simpl. by rewrite lookup_insert_ne.
Qed.

Lemma promiseAll_cons_world {A} (m : M A) (ms : list (M A)) w :
  snd (promiseAll (m :: ms) w) = snd (promiseAll ms (snd (m w))).
Proof.
  simpl. destruct (m w) as [[a|e] w1]; simpl; [|done].
  by destruct (promiseAll ms w1) as [[l|e] w2].
Qed.

(** The cascade as a whole. *)
Lemma rosterPulls_world (raw : string) (ids : list N) w :
  let w' := snd (promiseAll
                   (map (λ classId,
                           bind (cast raw)
                             (λ uid, Class_findByIdAndUpdate classId (PullRoster uid)))
                      ids) w) in
  users w' = users w ∧ idp w' = idp w ∧ pulledFrom raw w w'
  ∧ ∃ evs, trace w' = trace w ++ evs ∧ Forall (λ ev, isRosterPull ev = true) evs.
Proof.
  revert w. induction ids as [|c ids IH]; intros w.
  - simpl. repeat split; [apply pulledFrom_refl|]. exists []. by rewrite app_nil_r.
  - cbn zeta. rewrite map_cons, promiseAll_cons_world.
    destruct (bind (cast raw) (λ uid, Class_findByIdAndUpdate c (PullRoster uid)) w)
      as [r1 w1] eqn:E1.
    apply rosterPull_inv in E1 as (U1 & I1 & P1 & evs1 & T1 & F1).
    destruct (IH w1) as (U2 & I2 & P2 & evs2 & T2 & F2). simpl in *.
    split; [congruence|]. split; [congruence|].
    split; [by eapply pulledFrom_trans|].
    exists (evs1 ++ evs2). split; [by rewrite T2, T1, app_assoc | by apply Forall_app].
Qed.

Lemma rosterPulls_inv (raw : string) (ids : list N) w r w' :
  promiseAll
    (map (λ classId,
            bind (cast raw) (λ uid, Class_findByIdAndUpdate classId (PullRoster uid)))
       ids) w = (r, w') →
  users w' = users w ∧ idp w' = idp w ∧ pulledFrom raw w w'
  ∧ ∃ evs, trace w' = trace w ++ evs ∧ Forall (λ ev, isRosterPull ev = true) evs.
Proof.
  intros E. pose proof (rosterPulls_world raw ids w) as H. by rewrite E in H.
Qed.

Lemma precededBy_skip key guarded (skipped rest : list Event) :
  Forall (λ ev, guarded ev = false) skipped →
  precededBy key guarded rest → precededBy key guarded (skipped ++ rest).
Proof.
  intros F P pre ev post E G.
  revert pre E. induction F as [|s skipped Hs F IH]; intros pre E; simpl in E.
  - by eapply P.
  - destruct pre as [|p pre]; simplify_eq/=; [congruence|].
    rewrite (IH pre) by done. apply orb_true_r.
Qed.

Lemma precededBy_unguarded key guarded (evs : list Event) :
  Forall (λ ev, guarded ev = false) evs → precededBy key guarded evs.
Proof.
  intros F. rewrite <- (app_nil_r evs). apply precededBy_skip; [done|].
  by intros [] ? ? ?.
Qed.

Lemma existsb_Forall_false {A} (f g : A → bool) (l : list A) :
  (∀ x, g x = true → f x = false) → Forall (λ x, g x = true) l → existsb f l = false.
Proof.
  intros H F. induction F as [|x l Hx F IH]; simpl; [done|]. by rewrite (H x Hx), IH.
Qed.

Lemma rosterPull_not_userDelete (ev : Event) :
  isRosterPull ev = true → isUserDelete ev = false.
Proof. by destruct ev as [[] ?]. Qed.

Lemma rosterPull_not_idpFailed (ev : Event) :
  isRosterPull ev = true → isIdpDeleteUserFailed ev = false.
Proof. by destruct ev as [[] []]. Qed.

(** C4, the claim as stated fails: the IdP deletion fails, the handler
    answers 500 and Alice's record is still there, but she is gone from the
    roster of her class. *)
Lemma C4_roster_changed_counterexample :
  let w := academy_enrolled_idp_down in
  let r := DELETE_user bob_deletes_alice w in
  existsb isIdpDeleteUserFailed (trace (snd r)) = true
  ∧ status (fst r) = 500
  ∧ enrolledClasses <$> users (snd r) !! 1%N = Some [161%N]
  ∧ roster <$> classes w !! 161%N = Some [1%N]
  ∧ roster <$> classes (snd r) !! 161%N = Some [].
Proof. vm_compute. done. Qed.

Lemma rosterPull_not_deletion (ev : Event) :
  isRosterPull ev = true → isDeletion ev = false.
Proof. by destruct ev as [[] ?]. Qed.

Lemma rosterPull_not_other id subject (ev : Event) :
  isRosterPull ev = true → deletesOther id subject ev = false.
Proof. by destruct ev as [[] ?]. Qed.

Lemma rosterPull_not_idpOk subject (ev : Event) :
  isRosterPull ev = true → isIdpDeleteOk subject ev = false.
Proof. by destruct ev as [[] []]. Qed.

Lemma rosterPull_not_userDeleteOk id (ev : Event) :
  isRosterPull ev = true → isUserDeleteOk id ev = false.
Proof. by destruct ev as [[] []]. Qed.

(** The checks of a trace that holds a cascade of roster pulls. *)
Ltac over_pulls :=
  rewrite ?existsb_app;
  repeat match goal with
    | H : Forall (λ ev, isRosterPull ev = true) ?l |- context [existsb ?f ?l] =>
        first
          [ rewrite (existsb_Forall_false f _ l rosterPull_not_idpFailed H)
          | rewrite (existsb_Forall_false f _ l rosterPull_not_deletion H)
          | rewrite (existsb_Forall_false f _ l (rosterPull_not_other _ _) H)
          | rewrite (existsb_Forall_false f _ l (rosterPull_not_idpOk _) H)
          | rewrite (existsb_Forall_false f _ l (rosterPull_not_userDeleteOk _) H) ]
    end;
  cbn [existsb isDeletion deletesOther isIdpDeleteOk isUserDeleteOk isIdpDeleteUserFailed
       fst snd orb];
  rewrite ?N.eqb_refl, ?String.eqb_refl; cbn [negb orb andb].

Ltac c4_order :=
  let id0 := fresh "id0" in let u0 := fresh "u0" in
  let C0 := fresh "C0" in let U0 := fresh "U0" in
  intros id0 u0 C0 U0; simplify_eq;
  repeat match goal with
    | L : pair ?x <$> users _ !! ?x = _ |- _ =>
        rewrite U0 in L; cbn [fmap option_fmap option_map] in L; simplify_eq
    end;
  cbn [fst snd];
  (split;
   [repeat first
      [ apply precededBy_check; cbn; rewrite ?String.eqb_refl; reflexivity
      | apply precededBy_unguarded; eapply Forall_impl;
        [eassumption | apply rosterPull_not_userDelete]
      | apply precededBy_skip;
        [first [ by repeat constructor
               | eapply Forall_impl;
                 [eassumption | apply rosterPull_not_userDelete] ]|] ]
   |split;
    [over_pulls; reflexivity
    |let F := fresh "F" in
     cbn [status message error]; intros F; try discriminate F;
     over_pulls; done]]).

Ltac c4_no_target :=
  let N0 := fresh "N0" in
  intros N0; over_pulls; try reflexivity;
  match goal with
  | C : castObjectId _ = Some ?x, L : pair ?x <$> users _ !! ?x = Some _ |- _ =>
      rewrite (N0 x C) in L; discriminate
  end.

Ltac c4_failed :=
  let F := fresh "F" in
  over_pulls; intros F;
  first [ discriminate F
        | split; [done|]; split; [done|];
          first [ by intros c; left | assumption ] ].

(** C4 (amended): DELETE /api/user/:id deletes the IdP subject of the user
    the id names before it deletes that user's local record, and deletes no
    other subject and no other record: every local deletion in the run comes
    after the IdP deletion of that subject has succeeded, a 204 is answered
    only after both went through, and when the id names no user nothing is
    deleted.  If the IdP deletion fails the operation aborts with an error
    (500) and the User collection is unchanged, so the local User record
    still exists, while each class roster is as it was before the request or
    has lost the id of that user (the roster cascade has already run). *)
Theorem C4_delete_idp_before_local (req : Request) (w : World) :
  ∃ evs, trace (snd (DELETE_user req w)) = trace w ++ evs
    ∧ (∀ id u, castObjectId (params_id req) = Some id → users w !! id = Some u →
         precededBy (isIdpDeleteOk (clerkId u)) isUserDelete evs
         ∧ existsb (deletesOther id (clerkId u)) evs = false
         ∧ (status (fst (DELETE_user req w)) = 204 →
            existsb (isIdpDeleteOk (clerkId u)) evs = true
            ∧ existsb (isUserDeleteOk id) evs = true
            ∧ users (snd (DELETE_user req w)) = delete id (users w)))
    ∧ ((∀ id, castObjectId (params_id req) = Some id → users w !! id = None) →
       existsb isDeletion evs = false)
    ∧ (existsb isIdpDeleteUserFailed evs = true →
       status (fst (DELETE_user req w)) = 500
       ∧ users (snd (DELETE_user req w)) = users w
       ∧ pulledFrom (params_id req) w (snd (DELETE_user req w))).
Proof.
  destruct (DELETE_user req w) as [res w'] eqn:E.
  unfold DELETE_user in E. cbn [route] in E. unfold deleteUserHandler in E.
  run_with ltac:(try match goal with
                     | H : promiseAll _ _ = (_, _) |- _ =>
                         apply rosterPulls_inv in H as (? & ? & ? & ? & ? & ?)
                     end).
  all: world_simpl.
  all: repeat match goal with H : trace ?x = _ |- context [trace ?x] => rewrite H end.
  all: repeat match goal with H : users ?x = _ |- context [users ?x] => rewrite H end.
  all: eexists;
    (split; [world_simpl; rewrite <- ?app_assoc;
             first [reflexivity | symmetry; apply app_nil_r]|]).
  all: split; [c4_order | split; [c4_no_target | c4_failed]].
Qed.

Lemma C4_delete_idp_before_local_witness :
  (existsb (isIdpDeleteOk "user_alice")
     (trace (snd (DELETE_user bob_deletes_alice academy_enrolled))) = true
   ∧ users (snd (DELETE_user bob_deletes_alice academy_enrolled))
     = delete 1%N (users academy_enrolled))
  ∧ (status (fst (DELETE_user bob_deletes_alice academy_enrolled_idp_down)) = 500
     ∧ users (snd (DELETE_user bob_deletes_alice academy_enrolled_idp_down))
       = users academy_enrolled_idp_down).
Proof.
  split.
  - destruct (C4_delete_idp_before_local bob_deletes_alice academy_enrolled)
      as (evs & Ht & A & _ & _).
    destruct (A 1%N (withEnrolled (λ _, [161%N]) alice) eq_refl eq_refl) as (_ & _ & S).
    destruct S as (I & _ & U); [vm_compute; reflexivity|].
    split; [|exact U]. rewrite Ht, existsb_app. apply orb_true_iff. right. exact I.
  - destruct (C4_delete_idp_before_local bob_deletes_alice academy_enrolled_idp_down)
      as (evs & Ht & _ & _ & F).
    destruct F as (S & U & _); [| by split].
    vm_compute in Ht. injection Ht as <-. reflexivity.
Defined.

(** ** The students-with-classes projection *)

Lemma promiseBoth_inv {A B} (a : M A) (b : M B) w r w' :
  promiseBoth a b w = (r, w') →
  (∃ x y w1, a w = (Ret x, w1) ∧ b w1 = (Ret y, w') ∧ r = Ret (x, y))
  ∨ (∃ e, r = Raise e).
Proof.
  unfold promiseBoth. destruct (a w) as [[x|e] w1] eqn:Ea.
  - destruct (b w1) as [[y|e] w2] eqn:Eb; intros [= <- <-]; [left | right]; eauto 8.
  - intros [= <- <-]. right. eauto.
Qed.

Lemma asDocs_JObj (docs : list Doc) : asDocs (Some (JArr (map JObj docs))) = docs.
Proof. unfold asDocs. induction docs as [|d docs IH]; [done|]. simpl. by f_equal. Qed.

Lemma keys_select (sel : string) (d : Doc) (k : string) :
  k ∈ keys (select sel d) → selected sel k = true.
Proof.
  unfold keys, select. rewrite list_elem_of_In, in_map_iff.
  intros ([k' v] & <- & [_ H]%filter_In). exact H.
Qed.

Lemma selected_elem_of (sel : string) (k : string) :
  selected sel k = true → k ∈ "_id" :: words sel.
Proof.
  unfold selected. intros [H|H]%orb_true_iff.
  - apply String.eqb_eq in H as ->. apply list_elem_of_here.
  - apply list_elem_of_further. apply existsb_exists in H as (x & Hx & ->%String.eqb_eq).
    by apply list_elem_of_In.
Qed.

Lemma words_userSelect :
  words userSelect
  = ["firstName"; "lastName"; "email"; "privilege"; "enrolledClasses"; "creationDate"].
Proof. reflexivity. Qed.

Lemma words_classSelect : words classSelect = classFields.
Proof. reflexivity. Qed.

Lemma select_user_fields (id : N) (u : User) :
  onlyFields ("_id" :: userFields) (select userSelect (userDoc id u))
  ∧ ("whatsapp" ∉ keys (select userSelect (userDoc id u))).
Proof.
  split.
  - apply Forall_forall. intros k Hk%keys_select%selected_elem_of.
    rewrite words_userSelect in Hk. unfold userFields. set_solver.
  - intros Hk%keys_select. discriminate Hk.
Qed.

Lemma select_class_fields (id : N) (c : Class) :
  onlyFields ("_id" :: classFields) (select classSelect (classDoc id c))
  ∧ ("roster" ∉ keys (select classSelect (classDoc id c)))
  ∧ ("link" ∉ keys (select classSelect (classDoc id c))).
Proof.
  split; [|split].
  - apply Forall_forall. intros k Hk%keys_select%selected_elem_of.
    by rewrite words_classSelect in Hk.
  - intros Hk%keys_select. discriminate Hk.
  - intros Hk%keys_select. discriminate Hk.
Qed.

Lemma keys_populateDoc cs path sel (d : Doc) : keys (populateDoc cs path sel d) = keys d.
Proof.
  unfold keys, populateDoc. rewrite map_map. apply map_ext.
  intros [k v]. simpl. by destruct (String.eqb k path).
Qed.

Lemma getField_populateDoc cs path sel (d : Doc) :
  getField path (populateDoc cs path sel d)
  = (λ v, match v with
          | JArr l => JArr (omap (populateRef cs sel) l)
          | v => v
          end) <$> getField path d.
Proof.
  induction d as [|[k v] d IH]; [done|].
  cbn [populateDoc map getField fst snd].
  destruct (String.eqb k path) eqn:E; cbn [getField fst snd].
  - apply String.eqb_eq in E as ->. rewrite String.eqb_refl. by destruct v.
  - rewrite (String.eqb_sym path k), E. exact IH.
Qed.

(** The objects a populated array holds are projected class documents. *)
Lemma populated_classes cs (l : list JVal) (cls : Doc) :
  cls ∈ asDocs (Some (JArr (omap (populateRef cs (Some classSelect)) l))) →
  ∃ id c, cls = select classSelect (classDoc id c).
Proof.
  unfold asDocs. intros (v & Hv & E)%list_elem_of_omap.
  apply list_elem_of_omap in Hv as (r & _ & Hr).
  destruct r; simpl in Hr; try discriminate.
  destruct (cs !! o) as [c|]; simplify_eq. eauto.
Qed.

(** No array of ids holds an object. *)
Lemma asDocs_ids (ids : list N) : asDocs (Some (JArr (map JOid ids))) = [].
Proof. simpl. by induction ids. Qed.

Lemma getField_enrolled_select (id : N) (u : User) :
  getField "enrolledClasses" (select userSelect (userDoc id u))
  = Some (JArr (map JOid (enrolledClasses u))).
Proof. destruct u as [? ? ? ? [?|] [?|] ? ? ?]; reflexivity. Qed.

Lemma User_find_docs flt sel skip limit w docs w' (d : Doc) :
  User_find flt sel skip limit w = (Ret docs, w') → d ∈ docs →
  ∃ id u, d = select sel (userDoc id u).
Proof.
  unfold User_find. intros E Hd. run_all.
  apply list_elem_of_fmap in Hd as ([id u] & -> & _). eauto.
Qed.

Lemma populate_docs path sel docs w docs' w' :
  populate path sel docs w = (Ret docs', w') →
  docs' = docs ∨ ∃ cs, docs' = map (populateDoc cs path sel) docs.
Proof. unfold populate. intros E. run_all; eauto. Qed.

(** Every item of a response is a projected student document, with its
    classes populated or not. *)
Lemma students_with_classes_items (req : Request) (w : World) (item : Doc) :
  item ∈ itemsOf (fst (GET_students_with_classes req w)) →
  ∃ id u,
    item = select userSelect (userDoc id u)
    ∨ ∃ cs, item = populateDoc cs "enrolledClasses" (Some classSelect)
                     (select userSelect (userDoc id u)).
Proof.
  destruct (GET_students_with_classes req w) as [res w'] eqn:E. cbn [fst].
  unfold GET_students_with_classes in E. cbn [route] in E.
  unfold studentsWithClassesHandler in E.
  run_with ltac:(try match goal with
                     | H : promiseBoth _ _ _ = (_, _) |- _ =>
                         apply promiseBoth_inv in H as [(? & ? & ? & H & ? & ?) | (? & ?)]
                     end).
  all: try (intros []%elem_of_nil).
  unfold itemsOf. cbn [payload getField String.eqb Ascii.eqb Bool.eqb].
  rewrite asDocs_JObj. intros Hi.
  match goal with H : populate _ _ _ _ = _ |- _ =>
    apply populate_docs in H as [-> | (cs & ->)] end.
  - match goal with H : User_find _ _ _ _ _ = _ |- _ =>
      destruct (User_find_docs _ _ _ _ _ _ _ _ H Hi) as (id & u & ->) end.
    eauto.
  - apply list_elem_of_fmap in Hi as (d & -> & Hd).
    match goal with H : User_find _ _ _ _ _ = _ |- _ =>
      destruct (User_find_docs _ _ _ _ _ _ _ _ H Hd) as (id & u & ->) end.
    eauto.
Qed.

(** C8, the claim as stated fails: the items and the populated classes
    carry [_id], which is in neither field list. *)
Lemma C8_id_field_counterexample :
  let res := fst (GET_students_with_classes bob_lists_students academy_enrolled) in
  map keys (itemsOf res)
  = [["_id"; "firstName"; "lastName"; "email"; "privilege"; "creationDate";
      "enrolledClasses"];
     ["_id"; "firstName"; "lastName"; "email"; "privilege"; "creationDate";
      "enrolledClasses"]]
  ∧ map (λ item, map keys (populatedOf item)) (itemsOf res)
    = [[]; [["_id"; "level"; "ageGroup"; "instructor"; "schedule"; "isEnrollmentOpen";
             "image"]]]
  ∧ ¬ Forall (onlyFields userFields) (itemsOf res)
  ∧ ¬ Forall (λ item, Forall (onlyFields classFields) (populatedOf item)) (itemsOf res).
Proof.
  split; [vm_compute; reflexivity|]. split; [vm_compute; reflexivity|].
  split.
  - intros H. apply Forall_inv in H. apply Forall_inv in H.
    apply (bool_decide_pack _) in H. vm_compute in H. exact H.
  - intros H. apply Forall_inv_tail, Forall_inv in H.
    apply Forall_inv in H. apply Forall_inv in H.
    apply (bool_decide_pack _) in H. vm_compute in H. exact H.
Qed.

(** C8 (amended): every item returned by GET /api/students-with-classes
    contains only the fields _id, firstName, lastName, email, privilege,
    creationDate, enrolledClasses, and each populated class object inside
    enrolledClasses contains only _id, level, ageGroup, instructor, schedule,
    isEnrollmentOpen, image; in particular no item ever contains the whatsapp
    field and no populated class ever contains a roster or join link field. *)
Theorem C8_projection_fields (req : Request) (w : World) (item : Doc) :
  item ∈ itemsOf (fst (GET_students_with_classes req w)) →
  onlyFields ("_id" :: userFields) item
  ∧ ("whatsapp" ∉ keys item)
  ∧ ∀ cls, cls ∈ populatedOf item →
      onlyFields ("_id" :: classFields) cls
      ∧ ("roster" ∉ keys cls) ∧ ("link" ∉ keys cls).
Proof.
  intros (id & u & [-> | (cs & ->)])%students_with_classes_items.
  - destruct (select_user_fields id u) as [F W]. split; [done|]. split; [done|].
    intros cls. unfold populatedOf.
    rewrite getField_enrolled_select, asDocs_ids. by intros ?%elem_of_nil.
  - destruct (select_user_fields id u) as [F W].
    unfold onlyFields. rewrite keys_populateDoc. split; [done|]. split; [done|].
    intros cls. unfold populatedOf.
    rewrite getField_populateDoc, getField_enrolled_select. cbn [fmap option_fmap option_map].
    intros (cid & c & ->)%populated_classes. apply select_class_fields.
Qed.

Lemma C8_projection_fields_witness :
  ∃ item, itemsOf (fst (GET_students_with_classes bob_lists_students academy_enrolled)) !! 0%nat
          = Some item
          ∧ onlyFields ("_id" :: userFields) item ∧ ("whatsapp" ∉ keys item).
Proof.
  eexists. split; [vm_compute; reflexivity|].
  match goal with |- onlyFields _ ?it ∧ _ =>
    destruct (C8_projection_fields bob_lists_students academy_enrolled it) as (F & W & _)
  end.
  - apply list_elem_of_lookup. exists 0%nat. vm_compute. reflexivity.
  - by split.
Defined.

(** ** The level parameter *)

Lemma studentsWithClassesHandler_ext (r1 r2 : Request) :
  limitOf r1 = limitOf r2 → pageOf r1 = pageOf r2 →
  studentsWithClassesHandler r1 = studentsWithClassesHandler r2.
Proof.
  intros L P. unfold studentsWithClassesHandler, skipOf. by rewrite L, P.
Qed.

(** The handler never reads [level]: setting it changes nothing. *)
Lemma students_with_classes_level_unread (req : Request) (w : World) (v : string) :
  GET_students_with_classes (setQuery "level" v req) w
  = GET_students_with_classes req w.
Proof.
  unfold GET_students_with_classes. cbn [route].
  unfold requireAuth, setQuery. cbn [session auth params_id query body].
  destruct (session req) as [s|]; [|done].
  destruct (String.eqb s "") eqn:Es; [done|].
  unfold requireAdminOrInstructor, try_catch, authUserId, bind.
  cbn [session auth params_id query body]. rewrite Es.
  destruct (User_findOne _ w) as [[r|e] w1]; [|done].
  destruct (negb _); [done|]. unfold ret.
  erewrite studentsWithClassesHandler_ext; [reflexivity | |].
  - unfold limitOf. cbn [query]. by rewrite lookup_insert_ne.
  - unfold pageOf. cbn [query]. by rewrite lookup_insert_ne.
Qed.

(** C1, the code at a failing input: Bob asks for the students of level 3;
    only Alice is enrolled in a class of level 3, yet Carol, who has no class
    at all, is in [items], and [total] is 2.  More generally the response
    with a [level] is the response without it. *)
Theorem C1_level_filter_ignored :
  (∀ req w v, GET_students_with_classes (setQuery "level" v req) w
              = GET_students_with_classes req w)
  ∧ let res := fst (GET_students_with_classes bob_lists_level3 academy_enrolled) in
    status res = 200
    ∧ totalOf res = Some (JNum (of_Z 2))
    ∧ map (getField "email") (itemsOf res)
      = [Some (JStr "carol@example.org"); Some (JStr "alice@example.org")]
    ∧ ∃ item, itemsOf res !! 0%nat = Some item
              ∧ populatedOf item = []
              ∧ ¬ hasLevel (JNum (of_Z 3)) item.
Proof.
  split; [apply students_with_classes_level_unread|].
  cbn zeta. split; [vm_compute; reflexivity|]. split; [vm_compute; reflexivity|].
  split; [vm_compute; reflexivity|].
  eexists. split; [vm_compute; reflexivity|].
  split; [vm_compute; reflexivity|].
  unfold hasLevel. intros H. apply Exists_exists in H as (cls & Hc & _).
  vm_compute in Hc. by apply elem_of_nil in Hc.
Qed.

(** * Further properties of the handlers *)

(** ** The role gate *)

Lemma sameStore_refl w : sameStore w w.
Proof. by repeat split. Qed.

Lemma readsOnly_refl w : readsOnly w w.
Proof. exists []. by rewrite app_nil_r. Qed.

(** Leaves of a run that has only read. *)
Ltac quiet_leaf :=
  first [ by repeat split
        | eexists; split; [trace_suffix | by repeat constructor] ].

(** Membership in a list that is written out. *)
Ltac listed := repeat first [apply list_elem_of_here | apply list_elem_of_further].
Ltac not_listed S := exfalso; apply list_elem_of_In in S; simpl in S; intuition discriminate.

(** [requireAdminOrInstructor] (auth.js): 401 without a subject id, 500
    when the lookup fails, and otherwise it passes exactly the callers whose
    record says admin or instructor and answers 403 to the others; it never
    changes the store. *)
Theorem requireAdminOrInstructor_decides (req : Request) (w : World) :
  fst (requireAdminOrInstructor req w) = adminGate w req
  ∧ sameStore w (snd (requireAdminOrInstructor req w))
  ∧ readsOnly w (snd (requireAdminOrInstructor req w)).
Proof.
  destruct (requireAdminOrInstructor req w) as [st w'] eqn:E. cbn [fst snd].
  unfold adminGate. unfold requireAdminOrInstructor in E.
  destruct (authUserId req) as [s|] eqn:A.
  - run_all.
    all: rewrite ?findOne_clerkId, ?isAdminOrInstructor_resolve,
           ?privileged_set_faults in *.
    all: repeat match goal with H : hd false _ = _ |- _ => rewrite H end.
    all: repeat match goal with
           | H : negb (privileged _ _) = true |- _ => apply negb_true_iff in H; rewrite H
           | H : negb (privileged _ _) = false |- _ => apply negb_false_iff in H; rewrite H
           end.
    all: split; [done|]; split; quiet_leaf.
  - run_all. split; [done|]. split; [apply sameStore_refl | apply readsOnly_refl].
Qed.

(** ** Routes behind the role gate *)

Lemma caller_Some (req : Request) (s : string) :
  session req = Some s → String.eqb s "" = false → caller req = Some s.
Proof. intros S E. unfold caller. by rewrite S, E. Qed.

Lemma noIdpCall_refl w : noIdpCall w w.
Proof. exists []. by rewrite app_nil_r. Qed.

(** A route is its gates, then its handler. *)
Lemma route_gates (ms : list Middleware) (h : Handler) (req : Request) (w : World) :
  route ms h req w
  = match gates ms req w with
    | (Next req', w') => h req' w'
    | (Done res, w') => (res, w')
    end.
Proof.
  revert req w. induction ms as [|m ms IH]; intros req w; [done|].
  cbn [route gates]. destruct (m req w) as [[req'|res] w']; [apply IH | done].
Qed.

(** Leaves of a run that stopped in the gate. *)
Ltac gate_leaf :=
  repeat match goal with
    | |- _ ∧ _ => split
    end;
  first [ reflexivity
        | by repeat split
        | eexists; split; [trace_suffix | by repeat constructor]
        | cbn [status message]; listed ].

(** The admin-only routes (DELETE /user/:id and GET /students-with-classes):
    for a caller without a session, or whose record is not admin or
    instructor, the gate stops the request, and its answer, 401, 403 or (when
    the role lookup fails) 500, is the answer of the route: the handler is
    not run.  Nothing is written, every call issued is a query of the store,
    none goes to the IdP, and no student is listed. *)
Theorem admin_routes_deny (req : Request) (w : World) :
  (∀ s, caller req = Some s → privileged w s = false) →
  ∃ res w',
    gates [requireAuth; requireAdminOrInstructor] req w = (Done res, w')
    ∧ DELETE_user req w = (res, w')
    ∧ GET_students_with_classes req w = (res, w')
    ∧ sameStore w w' ∧ readsOnly w w' ∧ noIdpCall w w'
    ∧ status res ∈ [401; 403; 500]%nat
    ∧ itemsOf res = [].
Proof.
  intros P.
  destruct (gates [requireAuth; requireAdminOrInstructor] req w) as [st w'] eqn:G.
  assert (∃ res, st = Done res ∧ sameStore w w' ∧ readsOnly w w' ∧ noIdpCall w w'
                 ∧ status res ∈ [401; 403; 500]%nat ∧ itemsOf res = [])
    as (res & -> & S & R & N & St & I).
  { cbn [gates] in G.
    run_with ltac:(rewrite ?findOne_clerkId, ?isAdminOrInstructor_resolve,
                     ?privileged_set_faults in *;
                   try match goal with
                       | S : session req = Some ?s, N : String.eqb ?s "" = false |- _ =>
                           rewrite (P s (caller_Some _ _ S N)) in *
                       end;
                   cbn [negb] in *; try discriminate).
    all: eexists; split; [reflexivity|]; gate_leaf. }
  exists res, w'. split; [done|].
  unfold DELETE_user, GET_students_with_classes. rewrite !route_gates, G. done.
Qed.

Lemma admin_routes_deny_witness :
  status (fst (DELETE_user alice_deletes_bob academy)) = 403%nat
  ∧ sameStore academy (snd (DELETE_user alice_deletes_bob academy))
  ∧ noIdpCall academy (snd (DELETE_user alice_deletes_bob academy)).
Proof.
  destruct (admin_routes_deny alice_deletes_bob academy)
    as (res & w' & _ & D & _ & S & _ & N & _).
  - intros s [= <-]. vm_compute. reflexivity.
  - rewrite D. cbn [fst snd]. split; [|by split].
    vm_compute in D. by injection D as <- _.
Defined.


(** ** Routes behind the self-or-privileged gate *)

(** Pruning for runs of a caller who is neither privileged nor the target. *)
Ltac stranger_prune P :=
  rewrite ?findOne_clerkId, ?isAdminOrInstructor_resolve, ?privileged_set_faults in *;
  try match goal with
      | H : leanSelect _ (pair ?x <$> users ?w !! ?x) = _ |- _ =>
          destruct (users w !! x) eqn:?;
          cbn [leanSelect fmap option_fmap option_map fst snd] in H; simplify_eq
      end;
  try match goal with
      | H : context [getField "clerkId" (select "_id clerkId" (userDoc _ _))] |- _ =>
          rewrite getField_clerkId_select in H
      end;
  try match goal with
      | S : session ?req = Some ?s, N : String.eqb ?s "" = false |- _ =>
          destruct (P s (caller_Some _ _ S N)) as [Hp Hself]; rewrite ?Hp in *;
          try match goal with
              | C : castObjectId _ = Some ?id, U : users _ !! ?id = Some ?t,
                E : String.eqb (clerkId ?t) s = true |- _ =>
                  apply String.eqb_eq in E; destruct (Hself id t C U E)
              end;
          clear Hp Hself
      end;
  cbn [negb] in *; try discriminate.

(** The self-or-privileged routes (PUT /user/:id and GET
    /students-classes/:id): for a caller who is neither privileged nor the
    user the id names, the gate stops the request, and its answer, 400, 401,
    403, 404 or (when a lookup fails) 500, is the answer of the route: the
    handler is not run.  Nothing is written, every call issued is a query of
    the store, and none goes to the IdP. *)
Theorem self_routes_deny_strangers (req : Request) (w : World) :
  (∀ s, caller req = Some s →
        privileged w s = false
        ∧ ∀ id t, castObjectId (params_id req) = Some id → users w !! id = Some t →
                  clerkId t ≠ s) →
  ∃ res w',
    gates [requireAuth; allowSelfOrPriv] req w = (Done res, w')
    ∧ PUT_user req w = (res, w')
    ∧ GET_students_classes req w = (res, w')
    ∧ sameStore w w' ∧ readsOnly w w' ∧ noIdpCall w w'
    ∧ status res ∈ [400; 401; 403; 404; 500]%nat.
Proof.
  intros P.
  destruct (gates [requireAuth; allowSelfOrPriv] req w) as [st w'] eqn:G.
  assert (∃ res, st = Done res ∧ sameStore w w' ∧ readsOnly w w' ∧ noIdpCall w w'
                 ∧ status res ∈ [400; 401; 403; 404; 500]%nat)
    as (res & -> & S & R & N & St).
  { cbn [gates] in G. run_with ltac:(stranger_prune P).
    all: eexists; split; [reflexivity|]; gate_leaf. }
  exists res, w'. split; [done|].
  unfold PUT_user, GET_students_classes. rewrite !route_gates, G. done.
Qed.

Lemma self_routes_deny_strangers_witness :
  status (fst (PUT_user alice_renames_carol academy)) = 403%nat
  ∧ sameStore academy (snd (PUT_user alice_renames_carol academy))
  ∧ noIdpCall academy (snd (PUT_user alice_renames_carol academy)).
Proof.
  destruct (self_routes_deny_strangers alice_renames_carol academy)
    as (res & w' & _ & D & _ & S & _ & N & _).
  - intros s [= <-]. split; [vm_compute; reflexivity|].
    intros id t [= <-] U. vm_compute in U. injection U as <-. discriminate.
  - rewrite D. cbn [fst snd]. split; [|by split].
    vm_compute in D. by injection D as <- _.
Defined.


(** ** Enrollment, outcome by outcome *)

(** Enroll and unenroll issue no call to the IdP, whatever they answer, and
    unless they answer 201 or 500 they have only read: the 400 (malformed id,
    already enrolled, not enrolled), 403 (enrollment closed) and 404 (no such
    class) answers leave every enrolled-set and every roster as it was. *)
Theorem enrollment_rejections_change_nothing (req : Request) (w : World) :
  (status (fst (PUT_enroll req w)) ∈ [201; 400; 403; 404; 500]%nat
   ∧ noIdpCall w (snd (PUT_enroll req w))
   ∧ idp (snd (PUT_enroll req w)) = idp w
   ∧ (status (fst (PUT_enroll req w)) ∈ [400; 403; 404]%nat →
      sameStore w (snd (PUT_enroll req w)) ∧ readsOnly w (snd (PUT_enroll req w))))
  ∧ (status (fst (PUT_unenroll req w)) ∈ [201; 400; 500]%nat
     ∧ noIdpCall w (snd (PUT_unenroll req w))
     ∧ idp (snd (PUT_unenroll req w)) = idp w
     ∧ (status (fst (PUT_unenroll req w)) = 400%nat →
        sameStore w (snd (PUT_unenroll req w)) ∧ readsOnly w (snd (PUT_unenroll req w)))).
Proof.
  split.
  - destruct (PUT_enroll req w) as [res w'] eqn:E. cbn [fst snd].
    unfold PUT_enroll, route, enrollHandler in E.
    destruct (isValid (params_id req)) eqn:V; cbn [negb] in E.
    2:{ injection E as <- <-. split; [cbn; listed|]. split; [apply noIdpCall_refl|].
        split; [done|].
        intros _. split; [apply sameStore_refl | apply readsOnly_refl]. }
    run_all.
    all: split; [cbn [status message]; listed|];
      split; [eexists; split; [trace_suffix | by repeat constructor]|];
      split; [done|].
    all: cbn [status message]; intros S; try (not_listed S).
    all: split; [by repeat split | quiet_leaf].
  - destruct (PUT_unenroll req w) as [res w'] eqn:E. cbn [fst snd].
    unfold PUT_unenroll, route, unenrollHandler in E.
    destruct (isValid (params_id req)) eqn:V; cbn [negb] in E.
    2:{ injection E as <- <-. split; [cbn; listed|]. split; [apply noIdpCall_refl|].
        split; [done|].
        intros _. split; [apply sameStore_refl | apply readsOnly_refl]. }
    run_all.
    all: split; [cbn [status message]; listed|];
      split; [eexists; split; [trace_suffix | by repeat constructor]|];
      split; [done|].
    all: cbn [status message]; intros S; try discriminate.
    all: split; [by repeat split | quiet_leaf].
Qed.

Lemma enrollment_rejections_change_nothing_witness :
  status (fst (PUT_enroll (enrollRequest alice_id talk_id) academy)) = 403%nat
  ∧ sameStore academy (snd (PUT_enroll (enrollRequest alice_id talk_id) academy)).
Proof.
  destruct (enrollment_rejections_change_nothing (enrollRequest alice_id talk_id) academy)
    as [(_ & _ & _ & H) _].
  split; [vm_compute; reflexivity|].
  apply H. vm_compute. listed.
Defined.

(** What a 201 of enroll says about the request and the store. *)
Lemma enroll_effect req w res w' :
  PUT_enroll req w = (res, w') → status res = 201%nat →
  ∃ id s c u cls,
    castObjectId (params_id req) = Some id
    ∧ getField "classId" (body req) = Some (JStr s) ∧ castObjectId s = Some c
    ∧ users w !! id = Some u ∧ classes w !! c = Some cls
    ∧ isEnrollmentOpen cls = true
    ∧ includesJ (enrolledClasses u) (Some (JStr s)) = false
    ∧ users w' = <[id := withEnrolled (addToSet c) u]> (users w)
    ∧ classes w' = <[c := withRoster (addToSet id) cls]> (classes w).
Proof.
  unfold PUT_enroll, route, enrollHandler. intros E S.
  destruct (isValid (params_id req)) eqn:V; simpl in E;
    [| injection E as <- <-; discriminate].
  unfold_db. run_all; try discriminate; try congruence.
  simplify_eq/=. eexists _, _, _, _, _. repeat split; eauto.
  by apply negb_false_iff.
Qed.

(** What a 201 of unenroll says about the request and the store. *)
Lemma unenroll_effect req w res w' :
  PUT_unenroll req w = (res, w') → status res = 201%nat →
  ∃ id s c u,
    castObjectId (params_id req) = Some id
    ∧ getField "classId" (body req) = Some (JStr s) ∧ castObjectId s = Some c
    ∧ users w !! id = Some u
    ∧ includesJ (enrolledClasses u) (Some (JStr s)) = true
    ∧ users w' = <[id := withEnrolled (pull c) u]> (users w)
    ∧ classes w' = match classes w !! c with
                   | Some cls => <[c := withRoster (pull id) cls]> (classes w)
                   | None => classes w
                   end.
Proof.
  unfold PUT_unenroll, route, unenrollHandler. intros E S.
  destruct (isValid (params_id req)) eqn:V; simpl in E;
    [| injection E as <- <-; discriminate].
  unfold_db. run_all; try discriminate; try congruence.
  - simplify_eq/=. eexists _, _, _, _. repeat split; eauto.
    + by apply negb_false_iff.
    + by match goal with H : classes w !! _ = Some _ |- _ => rewrite H end.
  - simplify_eq/=. eexists _, _, _, _. repeat split; eauto.
    + by apply negb_false_iff.
    + by match goal with H : classes w !! _ = None |- _ => rewrite H end.
Qed.

(** Enrollment succeeds only into a class that exists and is open, for a
    user that exists; afterwards the class is in the user's enrolled-set and
    the user on the class's roster. *)
Theorem enroll_only_into_open_class (req : Request) (w : World) :
  status (fst (PUT_enroll req w)) = 201%nat →
  ∃ id s c u cls u' cls',
    castObjectId (params_id req) = Some id
    ∧ getField "classId" (body req) = Some (JStr s) ∧ castObjectId s = Some c
    ∧ users w !! id = Some u ∧ classes w !! c = Some cls
    ∧ isEnrollmentOpen cls = true
    ∧ users (snd (PUT_enroll req w)) !! id = Some u'
    ∧ classes (snd (PUT_enroll req w)) !! c = Some cls'
    ∧ c ∈ enrolledClasses u' ∧ id ∈ roster cls'.
Proof.
  destruct (PUT_enroll req w) as [res w'] eqn:E. cbn [fst snd]. intros S.
  destruct (enroll_effect _ _ _ _ E S)
    as (id & s & c & u & cls & Hid & Hs & Hcs & Hu & Hc & Ho & _ & Us & Cs).
  exists id, s, c, u, cls. eexists _, _. rewrite Us, Cs, !lookup_insert_eq.
  repeat split; try done; simpl; apply elem_of_addToSet; auto.
Qed.

Lemma enroll_only_into_open_class_witness :
  ∃ cls, classes academy !! 161%N = Some cls ∧ isEnrollmentOpen cls = true.
Proof.
  destruct (enroll_only_into_open_class (enrollRequest alice_id class_a) academy)
    as (id & s & c & u & cls & u' & cls' & _ & Hs & Hcs & _ & Hc & Ho & _).
  - vm_compute. reflexivity.
  - exists cls. injection Hs as <-. vm_compute in Hcs. by injection Hcs as <-.
Defined.

(** ** Enrolling twice, and enrolling then leaving *)

Lemma addToSet_idemp (c : N) (l : list N) : addToSet c (addToSet c l) = addToSet c l.
Proof.
  unfold addToSet at 1. destruct (decide (c ∈ addToSet c l)) as [|H]; [done|].
  destruct H. apply elem_of_addToSet. auto.
Qed.

Lemma pull_absent (c : N) (l : list N) : c ∉ l → pull c l = l.
Proof.
  unfold pull. induction l as [|x l IH]; [done|].
  intros [Hx Hl]%not_elem_of_cons. rewrite filter_cons.
  destruct (decide (x ≠ c)) as [|E]; [by rewrite IH | by destruct E; intros ->].
Qed.

Lemma pull_addToSet (c : N) (l : list N) : c ∉ l → pull c (addToSet c l) = l.
Proof.
  intros H. unfold addToSet. destruct (decide (c ∈ l)); [done|].
  unfold pull. rewrite filter_app. fold (pull c l). rewrite pull_absent by done.
  rewrite filter_cons. destruct (decide (c ≠ c)); [done|]. by rewrite app_nil_r.
Qed.

Lemma withEnrolled_id (u : User) : withEnrolled (λ l, l) u = u.
Proof. by destruct u. Qed.

Lemma withRoster_id (c : Class) : withRoster (λ l, l) c = c.
Proof. by destruct c. Qed.

Lemma withEnrolled_compose f g (u : User) :
  withEnrolled f (withEnrolled g u) = withEnrolled (λ l, f (g l)) u.
Proof. by destruct u. Qed.

Lemma withRoster_compose f g (c : Class) :
  withRoster f (withRoster g c) = withRoster (λ l, f (g l)) c.
Proof. by destruct c. Qed.

Lemma withEnrolled_ext f g (u : User) :
  f (enrolledClasses u) = g (enrolledClasses u) → withEnrolled f u = withEnrolled g u.
Proof. intros H. unfold withEnrolled. by rewrite H. Qed.

Lemma withRoster_ext f g (c : Class) :
  f (roster c) = g (roster c) → withRoster f c = withRoster g c.
Proof. intros H. unfold withRoster. by rewrite H. Qed.

Lemma includesJ_hex (c : N) (l : list N) :
  c ∈ l → includesJ l (Some (JStr (toHexString c))) = true.
Proof.
  intros H. unfold includesJ. apply existsb_exists. exists c.
  split; [by apply list_elem_of_In | apply String.eqb_refl].
Qed.

(** A second enroll with the same request changes neither the store nor
    the IdP: when the class id was given in the form the ids print in, and
    the lookup of the user does not fail, it is answered 400; otherwise the
    two [$addToSet] are issued again and add nothing. *)
Theorem repeated_enroll_changes_nothing (req : Request) (w : World) :
  status (fst (PUT_enroll req w)) = 201%nat →
  users (snd (PUT_enroll req (snd (PUT_enroll req w)))) = users (snd (PUT_enroll req w))
  ∧ classes (snd (PUT_enroll req (snd (PUT_enroll req w))))
    = classes (snd (PUT_enroll req w))
  ∧ idp (snd (PUT_enroll req (snd (PUT_enroll req w)))) = idp (snd (PUT_enroll req w))
  ∧ ((∀ s c, getField "classId" (body req) = Some (JStr s) →
             castObjectId s = Some c → toHexString c = s) →
     hd false (faults (snd (PUT_enroll req w))) = false →
     fst (PUT_enroll req (snd (PUT_enroll req w)))
     = message 400 "Already enrolled in this class").
Proof.
  destruct (PUT_enroll req w) as [res1 w1] eqn:E1. cbn [fst snd]. intros S1.
  destruct (enroll_effect _ _ _ _ E1 S1)
    as (id & s & c & u & cls & Hid & Hs & Hcs & Hu & Hc & Ho & _ & Us & Cs).
  assert (users w1 !! id = Some (withEnrolled (addToSet c) u)) as Hu1
    by (rewrite Us; apply lookup_insert_eq).
  assert (classes w1 !! c = Some (withRoster (addToSet id) cls)) as Hc1
    by (rewrite Cs; apply lookup_insert_eq).
  clear E1 Us Cs.
  destruct (PUT_enroll req w1) as [res2 w2] eqn:E2. cbn [fst snd].
  unfold PUT_enroll, route, enrollHandler in E2.
  cbv zeta in E2.
  destruct (isValid (params_id req)) eqn:V; cbn [negb] in E2.
  2:{ apply isValid_false in V. congruence. }
  rewrite Hs in E2.
  run_with ltac:(rewrite ?Hu1, ?Hc1 in *;
                 cbn [fmap option_fmap option_map fst snd] in * ).
  all: repeat match goal with
         | H : applyUserUpdate _ _ _ _ = inr _ |- _ => cbn in H; simplify_eq
         end.
  all: cbn [applyClassUpdate].
  all: rewrite ?withEnrolled_compose, ?withRoster_compose.
  all: rewrite ?(withEnrolled_ext _ (addToSet c) u (addToSet_idemp c _)),
         ?(withRoster_ext _ (addToSet id) cls (addToSet_idemp id _)).
  all: rewrite ?(insert_id _ _ _ Hu1), ?(insert_id _ _ _ Hc1).
  all: split; [done|]; split; [done|]; split; [done|].
  all: intros Hcan F; try done; try congruence.
  all: match goal with
       | H : includesJ _ _ = false |- _ =>
           rewrite <- (Hcan s c Hs Hcs), includesJ_hex in H; [discriminate|]
       end.
  all: simpl; apply elem_of_addToSet; by left.
Qed.

Lemma repeated_enroll_changes_nothing_witness :
  fst (PUT_enroll (enrollRequest alice_id class_a) academy_enrolled)
  = message 400 "Already enrolled in this class".
Proof.
  destruct (repeated_enroll_changes_nothing (enrollRequest alice_id class_a) academy)
    as (_ & _ & _ & H).
  - vm_compute. reflexivity.
  - apply H; [|reflexivity].
    intros s c [= <-] C. vm_compute in C. by injection C as <-.
Defined.

(** Enroll followed by unenroll is a round trip: when the user was not in
    the class before, and both requests are answered 201, every enrolled-set
    and every roster is back to what it was. *)
Theorem enroll_then_unenroll_restores (req : Request) (w : World)
    (id c : N) (s : string) (u : User) (cls : Class) :
  castObjectId (params_id req) = Some id →
  getField "classId" (body req) = Some (JStr s) → castObjectId s = Some c →
  users w !! id = Some u → classes w !! c = Some cls →
  c ∉ enrolledClasses u → id ∉ roster cls →
  status (fst (PUT_enroll req w)) = 201%nat →
  status (fst (PUT_unenroll req (snd (PUT_enroll req w)))) = 201%nat →
  users (snd (PUT_unenroll req (snd (PUT_enroll req w)))) = users w
  ∧ classes (snd (PUT_unenroll req (snd (PUT_enroll req w)))) = classes w.
Proof.
  intros Hid Hs Hcs Hu Hc Nc Ni.
  destruct (PUT_enroll req w) as [res1 w1] eqn:E1. cbn [fst snd]. intros S1.
  destruct (enroll_effect _ _ _ _ E1 S1)
    as (id' & s' & c' & u' & cls' & ? & ? & ? & ? & ? & _ & _ & Us & Cs).
  simplify_eq.
  destruct (PUT_unenroll req w1) as [res2 w2] eqn:E2. cbn [fst snd]. intros S2.
  destruct (unenroll_effect _ _ _ _ E2 S2)
    as (id' & s' & c' & u' & ? & ? & ? & Hu1 & _ & Us2 & Cs2).
  simplify_eq.
  rewrite Us, lookup_insert_eq in Hu1. injection Hu1 as <-.
  rewrite Cs, lookup_insert_eq in Cs2.
  rewrite Us2, Cs2, Us, !insert_insert_eq.
  rewrite withEnrolled_compose, withRoster_compose.
  rewrite (withEnrolled_ext _ (λ l, l) u (pull_addToSet c _ Nc)), withEnrolled_id.
  rewrite (withRoster_ext _ (λ l, l) cls (pull_addToSet id _ Ni)), withRoster_id.
  by rewrite !insert_id.
Qed.

Lemma enroll_then_unenroll_restores_witness :
  users (snd (PUT_unenroll (enrollRequest alice_id class_a) academy_enrolled))
  = users academy.
Proof.
  destruct (enroll_then_unenroll_restores (enrollRequest alice_id class_a) academy
              1%N 161%N class_a alice level3) as [H _];
    [first [vm_compute; reflexivity | intros H; by apply elem_of_nil in H] .. | exact H].
Defined.

(** ** Read-only routes *)

Lemma sameStore_trans w1 w2 w3 : sameStore w1 w2 → sameStore w2 w3 → sameStore w1 w3.
Proof. intros (?&?&?) (?&?&?). repeat split; congruence. Qed.

Lemma readsOnly_trans w1 w2 w3 : readsOnly w1 w2 → readsOnly w2 w3 → readsOnly w1 w3.
Proof.
  intros (e1 & T1 & F1) (e2 & T2 & F2). exists (e1 ++ e2).
  split; [by rewrite T2, T1, app_assoc | by apply Forall_app].
Qed.

Lemma onlyReads_ret {A} (a : A) : onlyReads (ret a).
Proof. intros w. split; [apply sameStore_refl | apply readsOnly_refl]. Qed.

Lemma onlyReads_raise {A} (e : Error) : onlyReads (@raise A e).
Proof. intros w. split; [apply sameStore_refl | apply readsOnly_refl]. Qed.

Lemma onlyReads_bind {A B} (m : M A) (k : A → M B) :
  onlyReads m → (∀ a, onlyReads (k a)) → onlyReads (bind m k).
Proof.
  intros Hm Hk w. unfold bind. specialize (Hm w).
  destruct (m w) as [[a|e] w1]; cbn [snd] in *; [|done].
  destruct (Hk a w1) as [S R]. destruct Hm as [S1 R1].
  split; [by eapply sameStore_trans | by eapply readsOnly_trans].
Qed.

Lemma onlyReads_boundary {A} (op : Op) (act : World → Error + (A * World)) :
  isRead (op, true) = true →
  (∀ w, match act w with inl _ => True | inr (_, w1) => w1 = w end) →
  onlyReads (boundary op act).
Proof.
  intros Hop Hact w. unfold boundary.
  assert (∀ b, isRead (op, b) = true) as Hb by (intros b; exact Hop).
  destruct (hd false (faults w)).
  - cbn [snd]. split; [by repeat split|]. exists [(op, false)]. split; [done|].
    by repeat constructor.
  - specialize (Hact (set_faults (tail (faults w)) w)).
    destruct (act _) as [e|[a w1]]; cbn [snd].
    + split; [by repeat split|]. exists [(op, false)]. split; [done|]. by repeat constructor.
    + subst w1. split; [by repeat split|]. exists [(op, true)]. split; [done|].
      by repeat constructor.
Qed.

Lemma onlyReads_try_catch {A} (m : M A) (h : Error → A) :
  onlyReads m → onlyReads (try_catch m h).
Proof.
  intros Hm w. specialize (Hm w). unfold try_catch. by destruct (m w) as [[a|e] w1].
Qed.

Lemma onlyReads_promiseBoth {A B} (a : M A) (b : M B) :
  onlyReads a → onlyReads b → onlyReads (promiseBoth a b).
Proof.
  intros Ha Hb w. unfold promiseBoth. specialize (Ha w).
  destruct (a w) as [[x|e] w1]; cbn [snd] in *.
  - specialize (Hb w1). destruct (b w1) as [[y|e] w2]; cbn [snd] in *;
      (split; [eapply sameStore_trans | eapply readsOnly_trans]; first [apply Ha | apply Hb]).
  - specialize (Hb w1).
    split; [eapply sameStore_trans | eapply readsOnly_trans]; first [apply Ha | apply Hb].
Qed.

Lemma onlyReads_findOne flt : onlyReads (User_findOne flt).
Proof.
  unfold User_findOne. destruct (filterCastable flt); [|apply onlyReads_raise].
  by apply onlyReads_boundary.
Qed.

Lemma onlyReads_findById raw : onlyReads (User_findById raw).
Proof.
  unfold User_findById, cast. destruct (castObjectId raw).
  - apply onlyReads_bind; [apply onlyReads_ret|]. intros a. by apply onlyReads_boundary.
  - apply onlyReads_bind; [apply onlyReads_raise | intros a; by apply onlyReads_boundary].
Qed.

Lemma onlyReads_find flt sel skip limit : onlyReads (User_find flt sel skip limit).
Proof.
  unfold User_find. destruct (filterCastable flt); [|apply onlyReads_raise].
  apply onlyReads_boundary; [done|]. intros w.
  by destruct (asCount skip), (asCount limit).
Qed.

Lemma onlyReads_countDocuments flt : onlyReads (User_countDocuments flt).
Proof.
  unfold User_countDocuments. destruct (filterCastable flt); [|apply onlyReads_raise].
  by apply onlyReads_boundary.
Qed.

Lemma onlyReads_populate path sel docs : onlyReads (populate path sel docs).
Proof.
  unfold populate. destruct (existsb _ _); [|apply onlyReads_ret].
  by apply onlyReads_boundary.
Qed.

Lemma onlyReads_getMe req : onlyReads (getMe req).
Proof.
  unfold getMe. destruct (authUserId req); [|apply onlyReads_ret].
  apply onlyReads_bind; [apply onlyReads_findOne | intros; apply onlyReads_ret].
Qed.

Lemma onlyReads_requireAuth req : onlyReads (requireAuth req).
Proof.
  intros w. unfold requireAuth.
  destruct (session req) as [s|]; [destruct (String.eqb s "")|]; cbn [snd];
    (split; [apply sameStore_refl | apply readsOnly_refl]).
Qed.

Lemma onlyReads_requireAdminOrInstructor req : onlyReads (requireAdminOrInstructor req).
Proof.
  unfold requireAdminOrInstructor. apply onlyReads_try_catch.
  destruct (authUserId req); [|apply onlyReads_ret].
  apply onlyReads_bind; [apply onlyReads_findOne|]. intros r.
  destruct (negb _); apply onlyReads_ret.
Qed.

Lemma onlyReads_allowSelfOrPriv req : onlyReads (allowSelfOrPriv req).
Proof.
  unfold allowSelfOrPriv. apply onlyReads_try_catch.
  apply onlyReads_bind; [apply onlyReads_getMe|]. intros me.
  destruct (isAdminOrInstructor me); [apply onlyReads_ret|].
  destruct (_ || _); [apply onlyReads_ret|].
  apply onlyReads_bind; [apply onlyReads_findById|]. intros r.
  destruct (leanSelect _ r); [|apply onlyReads_ret].
  match goal with |- context [if ?b then _ else _] => destruct b end; apply onlyReads_ret.
Qed.

Lemma onlyReads_route (ms : list Middleware) (h : Handler) :
  Forall (λ m : Middleware, ∀ req, onlyReads (m req)) ms →
  (∀ req, onlyReads (h req)) → ∀ req, onlyReads (route ms h req).
Proof.
  intros Hms Hh. induction Hms as [|m ms Hm _ IH]; intros req; [apply Hh|].
  intros w. cbn [route]. specialize (Hm req w).
  destruct (m req w) as [[req'|res] w1]; cbn [snd] in *; [|done].
  destruct (IH req' w1) as [S R].
  split; [eapply sameStore_trans | eapply readsOnly_trans]; first [apply Hm | done].
Qed.

Lemma onlyReads_getUserHandler req : onlyReads (getUserHandler req).
Proof.
  unfold getUserHandler. apply onlyReads_try_catch. cbv zeta.
  apply onlyReads_bind; [apply onlyReads_getMe|]. intros me.
  apply onlyReads_bind.
  - destruct (_ && _); [apply onlyReads_findOne|].
    destruct (auth req); [apply onlyReads_findOne | apply onlyReads_raise].
  - intros [p|]; apply onlyReads_ret.
Qed.

Lemma onlyReads_studentsClassesHandler req : onlyReads (studentsClassesHandler req).
Proof.
  unfold studentsClassesHandler. apply onlyReads_try_catch. cbv zeta.
  destruct (negb _); [apply onlyReads_ret|].
  apply onlyReads_bind; [apply onlyReads_findById|]. intros r.
  apply onlyReads_bind; [apply onlyReads_populate|].
  intros [|d docs]; apply onlyReads_ret.
Qed.

Lemma onlyReads_studentsWithClassesHandler req : onlyReads (studentsWithClassesHandler req).
Proof.
  unfold studentsWithClassesHandler. apply onlyReads_try_catch. cbv zeta.
  apply onlyReads_bind; [|intros; apply onlyReads_ret].
  apply onlyReads_promiseBoth; [|apply onlyReads_countDocuments].
  apply onlyReads_bind; [apply onlyReads_find | intros; apply onlyReads_populate].
Qed.

(** The three GET routes of user-routes.js only read, whatever the request,
    the caller and the failures: the two collections and the IdP are as
    before, and every call that was issued is a query. *)
Theorem get_routes_only_read (req : Request) (w : World) :
  (sameStore w (snd (GET_user req w)) ∧ readsOnly w (snd (GET_user req w)))
  ∧ (sameStore w (snd (GET_students_classes req w))
     ∧ readsOnly w (snd (GET_students_classes req w)))
  ∧ (sameStore w (snd (GET_students_with_classes req w))
     ∧ readsOnly w (snd (GET_students_with_classes req w))).
Proof.
  split; [|split].
  - apply (onlyReads_route [requireAuth] getUserHandler); [|apply onlyReads_getUserHandler].
    apply Forall_singleton, onlyReads_requireAuth.
  - apply (onlyReads_route [requireAuth; allowSelfOrPriv] studentsClassesHandler);
      [|apply onlyReads_studentsClassesHandler].
    apply Forall_cons; split; [apply onlyReads_requireAuth|].
    apply Forall_singleton, onlyReads_allowSelfOrPriv.
  - apply (onlyReads_route [requireAuth; requireAdminOrInstructor] studentsWithClassesHandler);
      [|apply onlyReads_studentsWithClassesHandler].
    apply Forall_cons; split; [apply onlyReads_requireAuth|].
    apply Forall_singleton, onlyReads_requireAdminOrInstructor.
Qed.

(** ** A deletion that succeeds *)

(** When the cascade as a whole succeeds, every class it names has lost the
    user. *)
Lemma rosterPulls_ret (raw : string) (uid : N) (ids : list N) w l w' :
  castObjectId raw = Some uid →
  promiseAll
    (map (λ classId,
            bind (cast raw) (λ uid, Class_findByIdAndUpdate classId (PullRoster uid)))
       ids) w = (Ret l, w') →
  ∀ c cd, c ∈ ids → classes w' !! c = Some cd → uid ∉ roster cd.
Proof.
  intros C. revert w l w'. induction ids as [|c0 ids IH]; intros w l w' E c cd Hc Hcd.
  - by apply elem_of_nil in Hc.
  - rewrite map_cons in E. cbn [promiseAll] in E.
    destruct (bind (cast raw) (λ uid, Class_findByIdAndUpdate c0 (PullRoster uid)) w)
      as [[a|e] w1] eqn:E1; [|discriminate].
    destruct (promiseAll _ w1) as [[l'|e] w2] eqn:E2; [|discriminate].
    injection E as <- <-.
    apply elem_of_cons in Hc as [->|Hc]; [|by eapply IH].
    apply rosterPulls_inv in E2 as (_ & _ & P & _).
    assert (∀ cd1, classes w1 !! c0 = Some cd1 → uid ∉ roster cd1) as H1.
    { intros cd1 Hcd1. run_all.
      - simpl in Hcd1. rewrite lookup_insert_eq in Hcd1. injection Hcd1 as <-.
        simpl. rewrite elem_of_pull. naive_solver.
      - congruence. }
    destruct (P c0) as [Q | (uid' & cls & C' & Q1 & Q2)].
    + rewrite Q in Hcd. by apply H1.
    + rewrite Q2 in Hcd. injection Hcd as <-. simpl. rewrite elem_of_pull.
      rewrite C in C'. naive_solver.
Qed.

(** After the cascade for a user, no roster names that user, and taking
    the user's record out leaves consistent data. *)
Lemma cascade_consistent (raw : string) (id : N) (u : User) (w w1 : World) :
  castObjectId raw = Some id → users w !! id = Some u →
  consistent w → pulledFrom raw w w1 →
  (∀ c cd, c ∈ enrolledClasses u → classes w1 !! c = Some cd → id ∉ roster cd) →
  (∀ c cd, classes w1 !! c = Some cd → id ∉ roster cd)
  ∧ ∀ w', users w' = delete id (users w) → classes w' = classes w1 → consistent w'.
Proof.
  intros C U [L N] P Hen. split.
  - intros c cd Hcd. destruct (decide (c ∈ enrolledClasses u)) as [Hin|Hout].
    + by eapply Hen.
    + destruct (P c) as [Q | (uid & cls & C' & Q1 & Q2)].
      * rewrite Q in Hcd. by rewrite <- (L id c u cd U Hcd).
      * rewrite Q2 in Hcd. injection Hcd as <-. simpl. rewrite elem_of_pull.
        rewrite C in C'. naive_solver.
  - intros w' Us Cs. split.
    + intros u' c ud cd Hu Hc. rewrite Us in Hu. rewrite Cs in Hc.
      apply lookup_delete_Some in Hu as [Ne Hu].
      destruct (P c) as [Q | (uid & cls & C' & Q1 & Q2)].
      * rewrite Q in Hc. by apply L.
      * rewrite Q2 in Hc. injection Hc as <-. simpl. rewrite elem_of_pull.
        rewrite C in C'. injection C' as <-.
        rewrite (L u' c ud cls Hu Q1). naive_solver.
    + intros c cd Hc. rewrite Cs in Hc.
      destruct (P c) as [Q | (uid & cls & C' & Q1 & Q2)].
      * rewrite Q in Hc. by eapply N.
      * rewrite Q2 in Hc. injection Hc as <-. simpl. apply NoDup_pull. by eapply N.
Qed.

(** DELETE /user/:id answers 204 only after the whole cascade, the IdP
    deletion and the local deletion went through: the record is gone from
    the User collection, the subject is gone from the IdP, and, the
    enrollment data being consistent before, no roster names the user any
    more and the data is still consistent. *)
Theorem delete_success_removes (req : Request) (w : World) :
  consistent w →
  status (fst (DELETE_user req w)) = 204%nat →
  ∃ id u,
    castObjectId (params_id req) = Some id ∧ users w !! id = Some u
    ∧ users (snd (DELETE_user req w)) = delete id (users w)
    ∧ subjects (idp (snd (DELETE_user req w))) = delete (clerkId u) (subjects (idp w))
    ∧ (∀ c cd, classes (snd (DELETE_user req w)) !! c = Some cd → id ∉ roster cd)
    ∧ consistent (snd (DELETE_user req w)).
Proof.
  intros Cw.
  destruct (DELETE_user req w) as [res w'] eqn:E. cbn [fst snd]. intros S.
  unfold DELETE_user in E. cbn [route] in E. unfold deleteUserHandler in E.
  run_with ltac:(try discriminate;
                 try match goal with
                     | H : promiseAll _ _ = (Ret _, _) |- _ =>
                         pose proof (rosterPulls_ret _ _ _ _ _ _ ltac:(eassumption) H);
                         apply rosterPulls_inv in H as (? & ? & ? & ? & ? & ?)
                     | H : promiseAll _ _ = (Raise _, _) |- _ => clear H
                     end).
  all: match goal with
       | H : pair ?id <$> users ?w0 !! ?id = Some ?p |- _ =>
           destruct (users w0 !! id) as [u|] eqn:U; [|discriminate];
           injection H as <-; cbn [snd] in *; exists id, u
       end.
  all: split; [done|]; split; [done|].
  all: repeat match goal with H : users ?x = _ |- context [users ?x] => rewrite H end.
  all: repeat match goal with H : idp ?x = _ |- context [idp ?x] => rewrite H end.
  all: split; [done|]; split; [done|].
  - match goal with
    | C : castObjectId _ = Some ?id, P : pulledFrom _ _ ?x1,
      Hen : ∀ c cd, c ∈ _ → classes ?x1 !! c = Some cd → _ |- _ =>
        destruct (cascade_consistent _ _ _ w x1 C U Cw P Hen) as [R K]
    end.
    split; [exact R|]. apply K; world_simpl; congruence.
  - match goal with
    | C : castObjectId _ = Some ?id |- _ =>
        destruct (cascade_consistent _ _ _ w w C U Cw (pulledFrom_refl _ _)) as [R K]
    end.
    + intros c cd Hin. 
      match goal with H : negb (length ?l =? 0)%nat = false |- _ =>
        destruct l; [|discriminate] end.
      by apply elem_of_nil in Hin.
    + split; [exact R|]. by apply K.
Qed.

Lemma academy_consistent : consistent academy.
Proof.
  assert (map_Forall (λ _ ud, enrolledClasses ud = []) (users academy)) as Hu
    by (apply (bool_decide_unpack _); vm_compute; exact I).
  assert (map_Forall (λ _ cd, roster cd = []) (classes academy)) as Hc
    by (apply (bool_decide_unpack _); vm_compute; exact I).
  split.
  - intros u c ud cd Eu Ec. rewrite (Hu _ _ Eu), (Hc _ _ Ec).
    split; intros []%elem_of_nil.
  - intros c cd Ec. rewrite (Hc _ _ Ec). apply NoDup_nil_2.
Qed.

Lemma academy_enrolled_consistent : consistent academy_enrolled.
Proof.
  apply enroll_consistent; [apply academy_consistent | vm_compute; reflexivity].
Qed.

Lemma delete_success_removes_witness :
  users (snd (DELETE_user bob_deletes_alice academy_enrolled)) !! 1%N = None
  ∧ consistent (snd (DELETE_user bob_deletes_alice academy_enrolled)).
Proof.
  destruct (delete_success_removes bob_deletes_alice academy_enrolled)
    as (id & u & C & U & Us & _ & _ & K).
  - apply academy_enrolled_consistent.
  - vm_compute. reflexivity.
  - split; [|exact K]. rewrite Us. vm_compute in C. injection C as <-.
    apply lookup_delete_eq.
Defined.

(** ** Updates of a user record *)

(** PUT /user/:id writes to one record at most, the one the id names: the
    other records and every class are as before, whatever the body, the
    caller and the failures. *)
Theorem update_touches_one_record (req : Request) (w : World) :
  classes (snd (PUT_user req w)) = classes w
  ∧ ∀ id', castObjectId (params_id req) ≠ Some id' →
           users (snd (PUT_user req w)) !! id' = users w !! id'.
Proof.
  destruct (PUT_user req w) as [res w'] eqn:E. cbn [fst snd].
  unfold PUT_user in E. cbn [route] in E. unfold putUserHandler in E.
  run_all.
  all: split; [done|]; intros id' Ne; try done.
  all: simpl; rewrite lookup_insert_ne; [done | congruence].
Qed.

Lemma update_touches_one_record_witness :
  users (snd (PUT_user alice_promotes_herself academy)) !! 2%N = users academy !! 2%N.
Proof.
  apply (update_touches_one_record alice_promotes_herself academy). discriminate.
Defined.

(** When the body carries no email, or the email the record already has,
    PUT /user/:id never calls the IdP. *)
Theorem update_without_email_change_spares_idp (req : Request) (w : World) :
  (∀ id u, castObjectId (params_id req) = Some id → users w !! id = Some u →
           truthyJ (getField "email" (body req))
           && differs (email u) (getField "email" (body req)) = false) →
  idp (snd (PUT_user req w)) = idp w
  ∧ ∃ evs, trace (snd (PUT_user req w)) = trace w ++ evs
           ∧ Forall (λ ev, isIdpCall ev = false) evs.
Proof.
  intros P.
  destruct (PUT_user req w) as [res w'] eqn:E. cbn [fst snd].
  unfold PUT_user in E. cbn [route] in E. unfold putUserHandler in E.
  run_with ltac:(try match goal with
                     | C : castObjectId (params_id req) = Some ?id,
                       U : pair ?id <$> users ?w0 !! ?id = Some ?p |- _ =>
                         let u := fresh "u" in
                         let Hu := fresh "Hu" in
                         destruct (users w0 !! id) as [u|] eqn:Hu; [|discriminate];
                         injection U as <-; cbn [snd fst] in *;
                         rewrite (P id u C Hu) in *
                     end; try discriminate).
  all: split; [done|].
  all: eexists; split; [trace_suffix | by repeat constructor].
Qed.

Lemma update_without_email_change_spares_idp_witness :
  idp (snd (PUT_user alice_promotes_herself academy)) = idp academy.
Proof.
  apply (update_without_email_change_spares_idp alice_promotes_herself academy).
  intros id u _ _. reflexivity.
Defined.

(** The self-service update does not restrict the paths of the body: a
    caller who updates their own record with a [privilege] the schema knows
    gets 200, and the record carries that privilege afterwards. *)
Theorem self_update_sets_privilege (req : Request) (w : World)
    (id : N) (u : User) (p : string) (P : Privilege) :
  reliable w →
  castObjectId (params_id req) = Some id → users w !! id = Some u →
  session req = Some (clerkId u) → clerkId u ≠ "" →
  body req = [("privilege", JStr p)] → parsePrivilege p = Some P →
  status (fst (PUT_user req w)) = 200%nat
  ∧ privilege <$> users (snd (PUT_user req w)) !! id = Some P.
Proof.
  intros R C U S Ne B PP. unfold reliable in R.
  assert (String.eqb (clerkId u) "" = false) as Ne' by by apply String.eqb_neq.
  assert (isValid (params_id req) = true) as V by (unfold isValid; by rewrite C).
  assert (String.eqb (params_id req) "" = false) as V'.
  { apply String.eqb_neq. intros Z. rewrite Z in C. discriminate. }
  destruct (PUT_user req w) as [res w'] eqn:E. cbn [fst snd].
  unfold PUT_user in E. cbn [route] in E. unfold requireAuth in E. rewrite S, Ne' in E.
  unfold putUserHandler in E.
  run_with ltac:(reliably R;
                 rewrite ?B, ?C, ?U, ?V, ?V' in *;
                 cbn [fmap option_fmap option_map leanSelect fst snd negb orb] in *;
                 rewrite ?getField_clerkId_select, ?Ne', ?String.eqb_refl in *;
                 try discriminate).
  all: match goal with
       | H : applyUserUpdate _ _ _ _ = _ |- _ =>
           cbn [applyUserUpdate setFields setField fst snd String.eqb Ascii.eqb Bool.eqb] in H;
           rewrite PP in H; simplify_eq
       end.
  all: split; [done|]; simpl; by rewrite lookup_insert_eq.
Qed.

Lemma self_update_sets_privilege_witness :
  privilege <$> users (snd (PUT_user alice_promotes_herself academy)) !! 1%N = Some Admin.
Proof.
  apply (self_update_sets_privilege alice_promotes_herself academy 1%N alice "admin" Admin);
    first [reflexivity | discriminate | constructor].
Defined.

(** ** The classes of a student *)

Lemma omap_cons {A B} (f : A → option B) (x : A) (l : list A) :
  omap f (x :: l) = match f x with Some y => y :: omap f l | None => omap f l end.
Proof. reflexivity. Qed.

Lemma populate_ids cs (l : list N) :
  omap (populateRef cs None) (map JOid l)
  = omap (λ c, match cs !! c with
               | Some cls => Some (JObj (classDoc c cls))
               | None => None
               end) l.
Proof.
  induction l as [|c l IH]; [done|].
  rewrite map_cons, !omap_cons, IH. simpl. by destruct (cs !! c).
Qed.

Lemma getField_enrolled_only (id : N) (u : User) :
  getField "enrolledClasses" (select "enrolledClasses" (userDoc id u))
  = Some (JArr (map JOid (enrolledClasses u))).
Proof. destruct u as [? ? ? ? [?|] [?|] ? ? ?]; reflexivity. Qed.

Lemma hasRefs_enrolled_only (id : N) (u : User) :
  hasRefs "enrolledClasses" (select "enrolledClasses" (userDoc id u)) = false →
  enrolledClasses u = [].
Proof.
  unfold hasRefs. rewrite getField_enrolled_only.
  by destruct (enrolledClasses u).
Qed.

(** GET /students-classes/:id, for a caller who is privileged or is the
    user the id names, when no call fails: the answer is 200 with the full
    documents (roster and link included) of the classes the user is enrolled
    in, in the order of the enrolled-set; ids of classes that no longer
    exist are left out. *)
Theorem students_classes_lists_enrolled (req : Request) (w : World)
    (s : string) (id : N) (u : User) :
  reliable w → session req = Some s → s ≠ "" →
  castObjectId (params_id req) = Some id → users w !! id = Some u →
  privileged w s = true ∨ clerkId u = s →
  fst (GET_students_classes req w) = mkResponse 200 (JArr (enrolledDocs w u)).
Proof.
  intros R S Ne C U G. unfold reliable in R.
  assert (String.eqb s "" = false) as Ne' by by apply String.eqb_neq.
  assert (isValid (params_id req) = true) as V by (unfold isValid; by rewrite C).
  assert (String.eqb (params_id req) "" = false) as V'.
  { apply String.eqb_neq. intros Z. rewrite Z in C. discriminate. }
  destruct (GET_students_classes req w) as [res w'] eqn:E. cbn [fst snd].
  unfold GET_students_classes in E. cbn [route] in E. unfold requireAuth in E.
  rewrite S, Ne' in E. unfold studentsClassesHandler, populate in E.
  run_with ltac:(reliably R;
                 rewrite ?C, ?U, ?V, ?V', ?findOne_clerkId, ?isAdminOrInstructor_resolve,
                   ?privileged_set_faults in *;
                 cbn [fmap option_fmap option_map leanSelect fst snd negb orb
                      existsb map] in *;
                 rewrite ?getField_clerkId_select, ?Ne' in *;
                 try discriminate).
  all: try (destruct G as [G|G]; [discriminate|];
            apply String.eqb_neq in G; [done|assumption]).
  all: rewrite orb_false_r in *.
  all: f_equal; unfold enrolledDocs.
  all: rewrite ?getField_populateDoc; world_simpl.
  all: match goal with
       | |- context [getField "enrolledClasses" ?d] =>
           replace (getField "enrolledClasses" d)
             with (Some (JArr (map JOid (enrolledClasses u))))
             by (destruct u as [? ? ? ? [?|] [?|] ? ? ?]; reflexivity)
       end.
  all: try (match goal with H : hasRefs _ _ = false |- _ =>
              apply hasRefs_enrolled_only in H; rewrite H end; reflexivity).
  all: cbn [fmap option_fmap option_map]; by rewrite populate_ids.
Qed.

Lemma students_classes_lists_enrolled_witness :
  fst (GET_students_classes alice_own academy_enrolled)
  = mkResponse 200 (JArr [JObj (classDoc 161 (withRoster (λ _, [1%N]) level3))]).
Proof.
  rewrite (students_classes_lists_enrolled alice_own academy_enrolled "user_alice" 1%N
             (withEnrolled (λ _, [161%N]) alice)).
  - reflexivity.
  - constructor.
  - reflexivity.
  - discriminate.
  - reflexivity.
  - reflexivity.
  - right. reflexivity.
Defined.


(** ** The page of students *)

Lemma userMatches_student (p : N * User) :
  userMatches [("privilege", "student")] p
  = match privilege (snd p) with Student => true | _ => false end.
Proof.
  destruct p as [id [? ? ? ? [?|] [?|] [] ? ?]]; reflexivity.
Qed.

Lemma filter_students (w : World) :
  List.filter (userMatches [("privilege", "student")]) (allUsers w) = students w.
Proof.
  unfold students. induction (allUsers w) as [|p l IH]; [done|].
  simpl. rewrite IH. by rewrite <- userMatches_student.
Qed.

Lemma asCount_le (n : num) (l : nat) (b : Z) :
  asCount n = Some l → num_le n (of_Z b) → (Z.of_nat l <= b)%Z.
Proof.
  destruct n as [| |q|]; try discriminate. unfold asCount, num_le. simpl.
  destruct (Qred q) as [z d] eqn:E. destruct d; try discriminate.
  destruct (0 <=? z)%Z eqn:Z0; [|discriminate]. intros [= <-] L.
  apply Qle_bool_iff in L. rewrite <- (Qred_correct q), E in L.
  unfold Qle in L. simpl in L. lia.
Qed.

Lemma asCount_ge (n : num) (l : nat) (b : Z) :
  asCount n = Some l → num_le (of_Z b) n → (b <= Z.of_nat l)%Z.
Proof.
  destruct n as [| |q|]; try discriminate. unfold asCount, num_le. simpl.
  destruct (Qred q) as [z d] eqn:E. destruct d; try discriminate.
  destruct (0 <=? z)%Z eqn:Z0; [|discriminate]. intros [= <-] L.
  apply Qle_bool_iff in L. rewrite <- (Qred_correct q), E in L.
  unfold Qle in L. simpl in L. lia.
Qed.

(** A projected user document without enrolled classes is its own
    population. *)
Lemma populateDoc_no_refs cs sel (id : N) (u : User) :
  hasRefs "enrolledClasses" (select userSelect (userDoc id u)) = false →
  populateDoc cs "enrolledClasses" sel (select userSelect (userDoc id u))
  = select userSelect (userDoc id u).
Proof.
  destruct u as [? ? ? ? [?|] [?|] ? ? [|c l]]; first [reflexivity | discriminate].
Qed.

Lemma populate_all_no_refs cs sel (l : list (N * User)) :
  existsb (hasRefs "enrolledClasses")
    (map (λ p, select userSelect (userDoc (fst p) (snd p))) l) = false →
  map (λ p, select userSelect (userDoc (fst p) (snd p))) l
  = map (λ p, populateDoc cs "enrolledClasses" sel
                (select userSelect (userDoc (fst p) (snd p)))) l.
Proof.
  induction l as [|p l IH]; [done|]. cbn [map existsb].
  intros [H1 H2]%orb_false_iff. rewrite <- IH by done.
  by rewrite populateDoc_no_refs.
Qed.

(** A 200 in terms of the counts the store was given. *)
Lemma students_page_counts (req : Request) (w : World) :
  status (fst (GET_students_with_classes req w)) = 200%nat →
  ∃ l sk,
    asCount (limitOf req) = Some l ∧ asCount (skipOf req) = Some sk
    ∧ (1 ≤ l ≤ 200)%nat
    ∧ itemsOf (fst (GET_students_with_classes req w))
      = map (studentItem w) (take l (drop sk (students w)))
    ∧ totalOf (fst (GET_students_with_classes req w))
      = Some (JNum (of_Z (Z.of_nat (length (students w))))).
Proof.
  destruct (GET_students_with_classes req w) as [res w'] eqn:E. cbn [fst]. intros S.
  unfold GET_students_with_classes in E. cbn [route] in E.
  unfold studentsWithClassesHandler in E.
  run_with ltac:(try discriminate;
                 try match goal with
                     | H : promiseBoth _ _ _ = (_, _) |- _ =>
                         apply promiseBoth_inv in H as [(? & ? & ? & H & ? & ?) | (? & ?)]
                     end).
  unfold User_find, User_countDocuments, populate in *.
  cbn [filterCastable forallb fst snd String.eqb Ascii.eqb Bool.eqb andb] in *.
  run_all.
  all: unfold skipOf, pageOf, limitOf, allUsers in *; world_simpl.
  all: repeat match goal with
         | H : context [map_to_list (users ?w0)] |- _ => fold (allUsers w0) in H
         | |- context [map_to_list (users ?w0)] => fold (allUsers w0)
         end.
  all: rewrite ?filter_students in *.
  all: match goal with
       | L : asCount ?lim = Some ?l, K : asCount (num_mul _ ?lim) = Some ?sk |- _ =>
           exists l, sk; split; [exact L|]; split; [exact K|];
           split; [pose proof (asCount_le _ _ 200 L (limitGuard_upper _));
                   pose proof (asCount_ge _ _ 1 L (limitGuard_lower _)); lia|]
       end.
  all: unfold itemsOf, totalOf;
    cbn [payload getField String.eqb Ascii.eqb Bool.eqb]; rewrite asDocs_JObj.
  all: split; [|reflexivity].
  - by rewrite map_map.
  - by rewrite (populate_all_no_refs (classes w) (Some classSelect)).
Qed.

Lemma digits_plain (s : string) (acc : Z) :
  forallb isDigit (list_ascii_of_string s) = true → (0 <= acc)%Z →
  ∃ z, digits s acc = Some z ∧ (0 <= z)%Z.
Proof.
  revert acc. induction s as [|c s IH]; intros acc H A; [by exists acc|].
  cbn [list_ascii_of_string forallb] in H. apply andb_true_iff in H as [Hc Hs].
  cbn [digits]. unfold isDigit in Hc. destruct (digit c) as [d|] eqn:D; [|done].
  apply IH; [done|]. unfold digit in D.
  destruct (_ && _) eqn:B; [|done]. injection D as <-.
  apply andb_true_iff in B as [B1 B2]. lia.
Qed.

Lemma Number_plain (s : string) :
  forallb isDigit (list_ascii_of_string s) = true →
  ∃ z, digits s 0 = Some z ∧ (0 <= z)%Z ∧ Number (Some s) = of_Z z.
Proof.
  intros H. destruct (digits_plain s 0 H) as (z & D & Z0); [done|].
  exists z. split; [done|]. split; [done|].
  destruct s as [|c r]; [by injection D as <-|].
  cbn [list_ascii_of_string forallb] in H. apply andb_true_iff in H as [Hc _].
  destruct c as [[] [] [] [] [] [] [] []]; try discriminate Hc;
    cbn [Number unsigned_literal String.eqb Ascii.eqb Bool.eqb andb]; by rewrite D.
Qed.

Lemma Qle_bool_inject (a b : Z) : Qle_bool (inject_Z a) (inject_Z b) = (a <=? b)%Z.
Proof. unfold Qle_bool, inject_Z. simpl. by rewrite !Z.mul_1_r. Qed.

Lemma truthy_of_Z (z : Z) : truthy (of_Z z) = negb (z =? 0)%Z.
Proof. unfold truthy, of_Z, Qeq_bool, inject_Z. simpl. rewrite Z.mul_1_r. by destruct z. Qed.

Lemma limitGuard_of_Z (z : Z) :
  (0 <= z)%Z → limitGuard (of_Z z) = of_Z (Z.of_nat (windowLimit (Z.to_nat z))).
Proof.
  intros Z0. unfold limitGuard, js_or, windowLimit. rewrite truthy_of_Z.
  destruct (Z.eqb_spec z 0) as [->|Nz]; [reflexivity|]. cbn [negb].
  assert (Nat.eqb (Z.to_nat z) 0 = false) as -> by (apply Nat.eqb_neq; lia).
  unfold Math_min, Math_max, of_Z. cbn [num_leb]. rewrite Qle_bool_inject.
  destruct (Z.leb_spec 200 z); cbv iota; cbn [num_leb]; rewrite Qle_bool_inject.
  - change (1 <=? 200)%Z with true. cbv iota. do 2 f_equal. lia.
  - destruct (Z.leb_spec 1 z); [|lia]. do 2 f_equal. lia.
Qed.

Lemma pageGuard_of_Z (z : Z) :
  (0 <= z)%Z → pageGuard (of_Z z) = of_Z (Z.of_nat (windowPage (Z.to_nat z))).
Proof.
  intros Z0. unfold pageGuard, js_or, windowPage. rewrite truthy_of_Z.
  destruct (Z.eqb_spec z 0) as [->|Nz]; [reflexivity|]. cbn [negb].
  assert (Nat.eqb (Z.to_nat z) 0 = false) as -> by (apply Nat.eqb_neq; lia).
  unfold Math_max, of_Z. cbn [num_leb]. rewrite Qle_bool_inject.
  destruct (Z.leb_spec 1 z); [|lia]. do 2 f_equal. lia.
Qed.

Lemma guards_plain (v : option string) :
  plainParam v = true →
  limitGuard (Number v) = of_Z (Z.of_nat (windowLimit (paramValue v)))
  ∧ pageGuard (Number v) = of_Z (Z.of_nat (windowPage (paramValue v))).
Proof.
  destruct v as [s|]; [|done]. unfold plainParam, plainNumeral.
  intros [_ H]%andb_true_iff. destruct (Number_plain s H) as (z & D & Z0 & ->).
  unfold paramValue. rewrite D. split; [by apply limitGuard_of_Z | by apply pageGuard_of_Z].
Qed.

Lemma Qred_inject_Z (z : Z) : Qred (inject_Z z) = inject_Z z.
Proof.
  unfold Qred, inject_Z.
  pose proof (Z.ggcd_gcd z 1) as G. pose proof (Z.ggcd_correct_divisors z 1) as D.
  destruct (Z.ggcd z 1) as [g [a b]]. cbn [fst snd] in *.
  rewrite Z.gcd_1_r in G. subst g. destruct D as [D1 D2].
  rewrite Z.mul_1_l in D1, D2. by subst.
Qed.

Lemma asCount_Fin (q : Q) (n : nat) :
  (q == inject_Z (Z.of_nat n))%Q → asCount (Fin q) = Some n.
Proof.
  intros E. unfold asCount. rewrite (Qred_complete _ _ E).
  rewrite Qred_inject_Z.
  unfold inject_Z. destruct (Z.leb_spec 0 (Z.of_nat n)); [|lia].
  by rewrite Nat2Z.id.
Qed.

Lemma window_counts (l p : nat) :
  (1 ≤ p)%nat →
  asCount (of_Z (Z.of_nat l)) = Some l
  ∧ asCount (num_mul (num_sub (of_Z (Z.of_nat p)) (of_Z 1)) (of_Z (Z.of_nat l)))
    = Some ((p - 1) * l)%nat.
Proof.
  intros P. split; [by apply asCount_Fin|].
  unfold of_Z. cbn [num_sub num_mul]. apply asCount_Fin.
  rewrite !Qred_correct. rewrite Nat2Z.inj_mul, Nat2Z.inj_sub by done.
  unfold Qeq, Qmult, Qminus, Qplus, Qopp, inject_Z. simpl. lia.
Qed.

Lemma windowPage_pos (n : nat) : (1 ≤ windowPage n)%nat.
Proof. unfold windowPage. destruct (Nat.eqb_spec n 0); lia. Qed.

Lemma windowLimit_bounds (n : nat) : (1 ≤ windowLimit n ≤ 200)%nat.
Proof. unfold windowLimit. destruct (Nat.eqb_spec n 0); lia. Qed.

(** GET /students-with-classes, for a page and a limit that are absent,
    empty or written with at most twelve decimal digits, when it answers
    200: with [n] the number the limit spells and [m] the one the page
    spells, the limit applied is 100 if [n] is 0 and the smaller of [n] and
    200 otherwise, the page is 1 if [m] is 0 and [m] otherwise, and the items
    are the records of that page of the student records, in the order of the
    store, each projected and with its classes populated; the total counts
    all student records, whatever the page. *)
Theorem students_page_is_window (req : Request) (w : World) :
  plainParam (query req !! "limit") = true →
  plainParam (query req !! "page") = true →
  status (fst (GET_students_with_classes req w)) = 200%nat →
  let l := windowLimit (paramValue (query req !! "limit")) in
  let p := windowPage (paramValue (query req !! "page")) in
  (1 ≤ l ≤ 200)%nat ∧ (1 ≤ p)%nat
  ∧ itemsOf (fst (GET_students_with_classes req w))
    = map (studentItem w) (take l (drop ((p - 1) * l) (students w)))
  ∧ totalOf (fst (GET_students_with_classes req w))
    = Some (JNum (of_Z (Z.of_nat (length (students w))))).
Proof.
  intros PL PP S l p.
  destruct (students_page_counts req w S) as (l' & sk' & Hl & Hsk & _ & I & T).
  destruct (guards_plain _ PL) as [GL _]. destruct (guards_plain _ PP) as [_ GP].
  fold l in GL. fold p in GP.
  destruct (window_counts l p (windowPage_pos _)) as [CL CS].
  unfold skipOf, pageOf, limitOf in Hl, Hsk. rewrite GL in Hl, Hsk. rewrite GP in Hsk.
  rewrite CL in Hl. rewrite CS in Hsk. injection Hl as <-. injection Hsk as <-.
  split; [apply windowLimit_bounds|]. split; [apply windowPage_pos|]. by split.
Qed.

Lemma students_page_is_window_witness :
  itemsOf (fst (GET_students_with_classes bob_lists_second_page academy))
  = map (studentItem academy) (take 1 (drop 1 (students academy))).
Proof.
  apply (students_page_is_window bob_lists_second_page academy); vm_compute; reflexivity.
Defined.


(** Enroll and unenroll do not check that the user exists before they read
    its enrolled-set: for a well-formed id that names no record the answer
    is 500, not 404, and nothing is written. *)
Theorem enrollment_of_unknown_user_is_500 (req : Request) (w : World) (id : N) :
  castObjectId (params_id req) = Some id → users w !! id = None →
  (status (fst (PUT_enroll req w)) = 500%nat
   ∧ sameStore w (snd (PUT_enroll req w)) ∧ readsOnly w (snd (PUT_enroll req w)))
  ∧ (status (fst (PUT_unenroll req w)) = 500%nat
     ∧ sameStore w (snd (PUT_unenroll req w)) ∧ readsOnly w (snd (PUT_unenroll req w))).
Proof.
  intros C U.
  assert (isValid (params_id req) = true) as V by (unfold isValid; by rewrite C).
  split.
  - destruct (PUT_enroll req w) as [res w'] eqn:E. cbn [fst snd].
    unfold PUT_enroll, route, enrollHandler in E. rewrite V in E. cbn [negb] in E.
    run_with ltac:(rewrite ?C, ?U in *; try discriminate).
    all: split; [reflexivity|]; split; [by repeat split | quiet_leaf].
  - destruct (PUT_unenroll req w) as [res w'] eqn:E. cbn [fst snd].
    unfold PUT_unenroll, route, unenrollHandler in E. rewrite V in E. cbn [negb] in E.
    run_with ltac:(rewrite ?C, ?U in *; try discriminate).
    all: split; [reflexivity|]; split; [by repeat split | quiet_leaf].
Qed.

Lemma enrollment_of_unknown_user_is_500_witness :
  status (fst (PUT_enroll (enrollRequest nobody_id class_a) academy)) = 500%nat.
Proof.
  apply (enrollment_of_unknown_user_is_500 (enrollRequest nobody_id class_a) academy 255%N);
    reflexivity.
Defined.

(** * Sign-up and the user listing *)

Lemma findOne_email_found (e : string) (w : World) (p : N * User) :
  p ∈ allUsers w → email (snd p) = e →
  ∃ q, List.find (userMatches [("email", e)]) (allUsers w) = Some q.
Proof.
  intros Hin He.
  destruct (List.find (userMatches [("email", e)]) (allUsers w)) as [q|] eqn:F; [eauto|].
  exfalso. apply list_elem_of_In in Hin.
  pose proof (find_none _ _ F p Hin) as H.
  destruct p as [id [? ? ? ? [?|] [?|] ? ? ?]]; simpl in He; subst e;
    unfold userMatches, matches, fieldMatches in H; simpl in H;
    by rewrite String.eqb_refl in H.
Qed.

(** POST /sign-up creates nothing, and does not even reach the save, when a
    required field is missing or empty (400, and no call at all is made) and
    when the email, a string, is already the email of a record (409, after
    one query); this holds whatever the save would do. *)
Theorem sign_up_rejects_before_save (save : Doc → M JVal) (castString : JVal → option string)
    (req : Request) (w : World) :
  (missingRequired (body req) = true →
   POST_sign_up save castString req w = (message 400 "Missing required fields", w))
  ∧ (missingRequired (body req) = false →
     ∀ e p, getField "email" (body req) = Some (JStr e) →
            p ∈ allUsers w → email (snd p) = e → hd false (faults w) = false →
            fst (POST_sign_up save castString req w) = message 409 "Email already exists"
            ∧ sameStore w (snd (POST_sign_up save castString req w))
            ∧ trace (snd (POST_sign_up save castString req w))
              = trace w ++ [(UserFindOne [("email", e)], true)]).
Proof.
  unfold POST_sign_up, route, signUpHandler. split.
  - intros M. by rewrite M.
  - intros M e p E Hin He F. rewrite M, E. cbn [findByEmail].
    destruct (findOne_email_found e w p Hin He) as (q & Hq).
    unfold try_catch, bind, User_findOne, boundary. cbn [filterCastable forallb fst snd
      String.eqb Ascii.eqb Bool.eqb andb]. rewrite F.
    change (allUsers (set_faults (tail (faults w)) w)) with (allUsers w). rewrite Hq.
    cbn [leanSelect ret fst snd]. repeat split.
Qed.

Lemma sign_up_rejects_before_save_witness :
  POST_sign_up noSave (λ _, None) sign_up_nameless academy
  = (message 400 "Missing required fields", academy)
  ∧ fst (POST_sign_up noSave (λ _, None) sign_up_again academy)
    = message 409 "Email already exists".
Proof.
  split.
  - apply (sign_up_rejects_before_save noSave (λ _, None) sign_up_nameless academy).
    reflexivity.
  - destruct (sign_up_rejects_before_save noSave (λ _, None) sign_up_again academy)
      as [_ H].
    apply (H eq_refl "alice@example.org" (1%N, alice)).
    + reflexivity.
    + vm_compute. listed.
    + reflexivity.
    + reflexivity.
Defined.

Lemma select_listed (p : N * User) :
  JObj (select "firstName lastName email privilege creationDate" (userDoc (fst p) (snd p)))
  = listedUser p.
Proof. destruct p as [id [? ? ? ? [?|] [?|] ? ? ?]]; reflexivity. Qed.

(** GET /users answers 200 only to a caller whose record says admin or
    instructor, and then with one object per record of the collection, in
    store order, that holds the id, the two names, the email, the privilege
    and the creation date and nothing else: no phone number, no IdP id, no
    gender, no enrolled classes.  *)
Theorem users_listing (req : Request) (w : World) :
  status (fst (GET_users req w)) = 200%nat →
  (∃ s, caller req = Some s ∧ privileged w s = true)
  ∧ payload (fst (GET_users req w)) = JArr (map listedUser (allUsers w))
  ∧ sameStore w (snd (GET_users req w)).
Proof.
  destruct (GET_users req w) as [res w'] eqn:E. cbn [fst snd]. intros S.
  unfold GET_users in E. cbn [route] in E. unfold getUsersHandler, User_findAll in E.
  cbn [filterCastable forallb] in E.
  run_with ltac:(rewrite ?findOne_clerkId, ?isAdminOrInstructor_resolve,
                   ?privileged_set_faults in *; try discriminate).
  split; [|split; [|by repeat split]].
  - eexists. split; [by apply caller_Some|].
    match goal with H : negb _ = false |- _ => by apply negb_false_iff in H end.
  - cbn [payload]. f_equal. rewrite map_map. unfold allUsers. world_simpl.
    rewrite <- (map_ext _ _ select_listed).
    induction (map_to_list (users w)) as [|p l IH]; [done|].
    cbn [List.filter userMatches matches forallb map]. by rewrite IH.
Qed.

Lemma users_listing_witness :
  payload (fst (GET_users bob_lists_users academy)) = JArr (map listedUser (allUsers academy)).
Proof.
  apply (users_listing bob_lists_users academy). vm_compute. reflexivity.
Defined.

(** * The students export *)

Lemma rowsOf_nonempty isoDay istanbul (found : list (N * Class)) (st : User) :
  ∃ row, row ∈ rowsOf isoDay istanbul found st
         ∧ getField "firstName" row = Some (JStr (firstName st))
         ∧ getField "lastName" row = Some (JStr (lastName st))
         ∧ getField "email" row = Some (JStr (email st)).
Proof.
  unfold rowsOf. cbv zeta.
  destruct (omap (classInfoOf istanbul found) (enrolledClasses st)) as [|ci l].
  - eexists. split; [apply list_elem_of_singleton; reflexivity|]. by repeat split.
  - eexists. split; [cbn [length Nat.eqb map]; apply list_elem_of_here|]. by repeat split.
Qed.

(** GET /api/students-export is mounted without any gate and does not read
    the request: the answer is the same whatever the request carries, and
    without a session too; when the two queries return, it is 200 with, for
    every student record, at least one row that holds the student's names
    and email. *)
Theorem students_export_is_public (Class_find : M (list (N * Class)))
    (isoDay : Z → string) (istanbul : Slot → string) (req : Request) (w : World) :
  (∀ w1, ∃ cs w2, Class_find w1 = (Ret cs, w2)) →
  hd false (faults w) = false →
  (∀ req', GET_students_export Class_find isoDay istanbul req' w
           = GET_students_export Class_find isoDay istanbul req w)
  ∧ status (fst (GET_students_export Class_find isoDay istanbul req w)) = 200%nat
  ∧ ∀ p, p ∈ students w →
         ∃ row, row ∈ rowsIn (fst (GET_students_export Class_find isoDay istanbul req w))
                ∧ getField "firstName" row = Some (JStr (firstName (snd p)))
                ∧ getField "lastName" row = Some (JStr (lastName (snd p)))
                ∧ getField "email" row = Some (JStr (email (snd p))).
Proof.
  intros CF F. split; [done|].
  unfold GET_students_export, route, exportHandler, try_catch, bind, User_findDocs, boundary.
  cbn [filterCastable forallb fst snd String.eqb Ascii.eqb Bool.eqb andb]. rewrite F.
  match goal with |- context [Class_find ?w1] => destruct (CF w1) as (cs & w2 & ->) end.
  cbn [ret fst snd status]. split; [done|].
  intros p Hp. unfold rowsIn. cbn [payload getField String.eqb Ascii.eqb Bool.eqb].
  rewrite asDocs_JObj.
  destruct (rowsOf_nonempty isoDay istanbul cs (snd p)) as (row & Hrow & H).
  exists row. split; [|exact H].
  apply list_elem_of_In, in_flat_map. exists p. split; [|by apply list_elem_of_In].
  change (allUsers (set_faults (tail (faults w)) w)) with (allUsers w).
  rewrite filter_students. by apply list_elem_of_In.
Qed.

Lemma students_export_is_public_witness :
  ∃ row, row ∈ rowsIn (fst (GET_students_export readClasses (λ _, "2023-11-14") day
                              anonymous academy_enrolled))
         ∧ getField "email" row = Some (JStr "alice@example.org").
Proof.
  destruct (students_export_is_public readClasses (λ _, "2023-11-14") day anonymous
              academy_enrolled) as (_ & _ & H).
  - intros w1. by eexists _, _.
  - reflexivity.
  - destruct (H (1%N, withEnrolled (λ _, [161%N]) alice)) as (row & Hin & _ & _ & He).
    + vm_compute. listed.
    + exists row. split; [exact Hin | exact He].
Defined.

(** * The clock of the students export *)

Section StudentsExportFacts.
Import StudentsExport.

Lemma clock_complete (h m : N) : (h < 24)%N → (m < 60)%N → (h, m) ∈ clock.
Proof.
  intros Hh Hm. unfold clock.
  apply list_elem_of_bind. exists h. split.
  - apply list_elem_of_bind. exists m. split; [apply list_elem_of_singleton; reflexivity|].
    apply list_elem_of_In, in_map_iff. exists (N.to_nat m).
    split; [lia | apply in_seq; lia].
  - apply list_elem_of_In, in_map_iff. exists (N.to_nat h).
    split; [lia | apply in_seq; lia].
Qed.

Lemma NoDup_fmap_inj {A B} (f : A → B) (l : list A) (x y : A) :
  NoDup (map f l) → x ∈ l → y ∈ l → f x = f y → x = y.
Proof.
  induction l as [|a l IH]; simpl; [by intros _ ?%elem_of_nil|].
  intros [Ha Hl]%NoDup_cons [->|Hx]%elem_of_cons [->|Hy]%elem_of_cons E; auto.
  - exfalso. apply Ha. rewrite E. apply list_elem_of_In, in_map, list_elem_of_In, Hy.
  - exfalso. apply Ha. rewrite <- E. apply list_elem_of_In, in_map, list_elem_of_In, Hx.
Qed.

Lemma clock_distinct : NoDup (map (λ t, formatTime (fst t) (snd t)) clock).
Proof. apply (bool_decide_unpack _). vm_compute. exact I. Qed.

(** [formatTime] (index.js), on the hours and minutes of a day: the text
    is the 12-hour reading (1 to 12, never 0), a colon, the minutes on two
    digits, and [am] before noon or [pm] from noon on; and two different
    times of the day are never written the same. *)
Theorem formatTime_reads_back (h m : N) :
  (h < 24)%N → (m < 60)%N →
  (1 <= hour12 h <= 12)%N
  ∧ formatTime h m
    = (toString (hour12 h) ++ ":" ++ toString (m / 10) ++ toString (m mod 10)
       ++ (if (h <? 12)%N then "am" else "pm"))%string
  ∧ ∀ h' m', (h' < 24)%N → (m' < 60)%N →
             formatTime h m = formatTime h' m' → h = h' ∧ m = m'.
Proof.
  intros Hh Hm. split; [|split].
  - unfold hour12. destruct (N.eqb_spec (h mod 12) 0); cbv iota; [lia|].
    assert (h mod 12 < 12)%N by (by apply N.mod_lt).
    generalize dependent (h mod 12)%N. intros k. lia.
  - pose proof (clock_complete h m Hh Hm) as Hin.
    assert (Forall (λ t, formatTime (fst t) (snd t)
                         = (toString (hour12 (fst t)) ++ ":" ++ toString (snd t / 10)
                            ++ toString (snd t mod 10)
                            ++ (if (fst t <? 12)%N then "am" else "pm"))%string) clock) as F.
    { apply (bool_decide_unpack _). vm_compute. exact I. }
    rewrite Forall_forall in F. exact (F _ Hin).
  - intros h' m' Hh' Hm' E.
    assert ((h, m) = (h', m')) as [= -> ->]; [|done].
    apply (NoDup_fmap_inj (λ t, formatTime (fst t) (snd t)) clock);
      [apply clock_distinct | by apply clock_complete | by apply clock_complete | exact E].
Qed.

Lemma formatTime_reads_back_witness :
  formatTime 0 5 = "12:05am" ∧ formatTime 19 30 = "7:30pm".
Proof.
  destruct (formatTime_reads_back 0 5) as (_ & E1 & _); [reflexivity..|].
  destruct (formatTime_reads_back 19 30) as (_ & E2 & _); [reflexivity..|].
  split; [exact E1 | exact E2].
Defined.
End StudentsExportFacts.

(** * The search text *)

Section SearchFacts.
Import Search.

Lemma syntaxChar_special (c : ascii) : syntaxChar c = true → special c = true.
Proof.
  unfold syntaxChar, special. rewrite !existsb_exists.
  intros (x & Hx & E). apply Ascii.eqb_eq in E as <-.
  exists c. split; [|apply Ascii.eqb_refl].
  simpl in *. intuition.
Qed.

(** [escape] (user-routes.js): the escaped text, read as a pattern, uses
    no operator and spells the text it was made from; so two search texts
    never give the same pattern. *)
Theorem escape_spells_text (s : string) :
  literal (escape s) = Some s ∧ ∀ s', escape s = escape s' → s = s'.
Proof.
  assert (∀ x, literal (escape x) = Some x) as L.
  { induction x as [|c r IH]; [done|]. cbn [escape].
    destruct (special c) eqn:S.
    - cbn [literal]. rewrite Ascii.eqb_refl, S, IH. done.
    - cbn [literal].
      destruct (Ascii.eqb c "\") eqn:B.
      + apply Ascii.eqb_eq in B as ->. discriminate.
      + destruct (syntaxChar c) eqn:Y.
        * apply syntaxChar_special in Y. congruence.
        * by rewrite IH. }
  split; [apply L|]. intros s' E.
  pose proof (L s) as H1. rewrite E, L in H1. congruence.
Qed.

Lemma escape_spells_text_witness :
  literal (escape "a.b (c)") = Some "a.b (c)" ∧ "a.b (c)" = "a.b (c)".
Proof.
  destruct (escape_spells_text "a.b (c)") as [L I].
  split; [exact L | apply I; reflexivity].
Defined.
End SearchFacts.

(** * The CORS allowlist *)

Section CorsFacts.
Import Cors.

Lemma split_nonempty (s : string) : split s ≠ [].
Proof.
  induction s as [|c s IH]; simpl; [done|].
  destruct (Ascii.eqb c ","); [done|]. by destruct (split s).
Qed.












End CorsFacts.

(** * The rate limiter's settings *)

Section RateLimitFacts.
Import RateLimit.

(** [n] (rate-limit.js): a setting is the fallback or the number the
    variable spells, and with a finite, non-negative fallback it is
    finite and non-negative whatever the variable holds; an unset
    variable gives the fallback, while an empty one gives 0, not the
    fallback. *)
Theorem setting_is_finite_nonnegative (v : option string) (fallback : num) :
  (n v fallback = fallback ∨ n v fallback = Number v)
  ∧ (isFinite fallback = true → num_le (of_Z 0) fallback →
     isFinite (n v fallback) = true ∧ num_le (of_Z 0) (n v fallback))
  ∧ n None fallback = fallback
  ∧ n (Some "") fallback = of_Z 0.
Proof.
  unfold n. split; [|split; [|split; reflexivity]].
  - destruct (_ && _); auto.
  - intros F L. cbv zeta.
    destruct (isFinite (Number v) && num_leb (of_Z 0) (Number v)) eqn:E; [|done].
    by apply andb_true_iff in E.
Qed.

Lemma setting_is_finite_nonnegative_witness :
  isFinite (n (Some "-5") (of_Z 300)) = true ∧ n (Some "-5") (of_Z 300) = of_Z 300.
Proof.
  destruct (setting_is_finite_nonnegative (Some "-5") (of_Z 300)) as (_ & H & _).
  split; [apply H; reflexivity | reflexivity].
Defined.

Lemma endsWith_spec (s suffix : string) :
  endsWith s suffix = true ↔ ∃ pre, s = (pre ++ suffix)%string.
Proof.
  induction s as [|c s IH]; cbn [endsWith].
  - rewrite orb_false_r, String.eqb_eq. split.
    + intros <-. by exists "".
    + intros (pre & H). destruct pre; simpl in H; [done|discriminate].
  - rewrite orb_true_iff, IH, String.eqb_eq. split.
    + intros [<- | (pre & ->)]; [by exists "" | by exists (String c pre)].
    + intros (pre & H). destruct pre as [|c' pre]; simpl in H; [by left|].
      injection H as -> ->. right. by exists pre.
Qed.

Lemma orElse_eq (v : option string) (d s : string) :
  s ≠ "" → d = "" → (orElse v d = s ↔ v = Some s).
Proof.
  intros Hs ->. unfold orElse. destruct v as [x|]; [|naive_solver].
  destruct (String.eqb x "") eqn:E.
  - apply String.eqb_eq in E as ->. naive_solver.
  - naive_solver.
Qed.

(** [skip] and [keyGenerator] (rate-limit.js): a request is left
    uncounted exactly when it is a preflight, its path is [/health], or
    its original URL ends with [/api/health]; and the key of a request is
    never empty, and is the client address whenever there is one. *)
Theorem limiter_skip_and_key (req : Req) :
  (skip req = true ↔
     method req = "OPTIONS" ∨ path req = Some "/health"
     ∨ ∃ pre, originalUrl req = Some (pre ++ "/api/health")%string)
  ∧ keyGenerator req ≠ ""
  ∧ ∀ a, ip req = Some a → a ≠ "" → keyGenerator req = a.
Proof.
  split; [|split].
  - unfold skip. destruct (String.eqb (method req) "OPTIONS") eqn:M.
    + apply String.eqb_eq in M. naive_solver.
    + apply String.eqb_neq in M. cbv zeta.
      rewrite orb_true_iff, String.eqb_eq, endsWith_spec, orElse_eq by done.
      split; [intros [H | (pre & H)]; [auto|] | intros [H | [H | (pre & H)]]; [done|auto|]].
      * right. right. exists pre. apply orElse_eq in H; [done| |done].
        by destruct pre.
      * right. exists pre. rewrite H. unfold orElse.
        destruct (String.eqb (pre ++ "/api/health")%string "") eqn:E; [|done].
        apply String.eqb_eq in E. by destruct pre.
  - unfold keyGenerator, orElse.
    destruct (ip req) as [a|]; [destruct (String.eqb a "") eqn:E|].
    2:{ by apply String.eqb_neq in E. }
    all: destruct (forwardedFor req) as [f|]; [destruct (String.eqb f "") eqn:F|];
      try done; by apply String.eqb_neq in F.
  - intros a I Ne. unfold keyGenerator, orElse. rewrite I.
    destruct (String.eqb a "") eqn:E; [by apply String.eqb_eq in E | done].
Qed.

Lemma limiter_skip_and_key_witness :
  skip probe = true ∧ keyGenerator probe ≠ "".
Proof.
  destruct (limiter_skip_and_key probe) as (S & K & _).
  split; [apply S; right; left; reflexivity | exact K].
Defined.
End RateLimitFacts.

(** * The memoized connection *)

Section DbConnectFacts.
Import DbConnect.

Lemma step_coherent (e : Event) (s : State) : coherent s → coherent (snd (step e s)).
Proof.
  unfold coherent. destruct s as [[c p] d], e as [uri|o|]; simpl.
  - unfold enter; simpl. destruct c as [m|]; [done|].
    destruct p as [p|]; [done|]. intros [_ ->].
    destruct uri as [u|]; [|done]. destruct (String.eqb u ""); [done|].
    simpl. split; [done|]. intros m [=].
  - unfold settle; simpl. destruct p as [[|m|]|]; try done. simpl.
    intros [L H]. split; [done|]. intros m Hm. by specialize (H _ Hm).
  - unfold resume; simpl. destruct p as [[|m|]|]; try done. simpl.
    intros [L H]. split; [done|]. by intros m' [= <-].
Qed.

Lemma run_coherent (es : list Event) (s : State) : coherent s → coherent (snd (run es s)).
Proof.
  revert s. induction es as [|e es IH]; intros s H; [done|].
  simpl. apply IH, step_coherent, H.
Qed.

(** A fulfilled promise is never replaced. *)
Lemma step_fulfilled (e : Event) (s : State) (m : N) :
  promise (cached s) = Some (Fulfilled m) →
  promise (cached (snd (step e s))) = Some (Fulfilled m).
Proof.
  destruct s as [[c p] d], e as [uri|o|]; simpl; intros ->.
  - unfold enter; simpl. by destruct c.
  - done.
  - done.
Qed.

Lemma run_fulfilled (es : list Event) (s : State) (m : N) :
  promise (cached s) = Some (Fulfilled m) →
  promise (cached (snd (run es s))) = Some (Fulfilled m).
Proof.
  revert s. induction es as [|e es IH]; intros s H; [done|].
  simpl. apply IH, step_fulfilled, H.
Qed.

(** Whatever a step returns is the instance the promise was fulfilled
    with. *)
Lemma step_returned (e : Event) (s : State) (m : N) :
  coherent s → Returned m ∈ fst (step e s) →
  promise (cached (snd (step e s))) = Some (Fulfilled m).
Proof.
  unfold coherent. destruct s as [[c p] d], e as [uri|o|]; simpl.
  - unfold enter; simpl. intros H Hin.
    destruct c as [m'|].
    + apply list_elem_of_singleton in Hin. simpl in Hin. injection Hin as ->.
      destruct p as [p|]; [|by destruct H]. simpl. destruct H as [_ H].
      by rewrite (H m' eq_refl).
    + destruct p as [p|]; [by apply list_elem_of_singleton in Hin|].
      destruct uri as [u|]; [|by apply list_elem_of_singleton in Hin].
      destruct (String.eqb u ""); by apply list_elem_of_singleton in Hin.
  - by intros _ ?%elem_of_nil.
  - unfold resume; simpl. intros _ Hin.
    destruct p as [[|m'|]|]; apply list_elem_of_singleton in Hin; try done.
    simpl in Hin. by injection Hin as ->.
Qed.

Lemma run_returned (es : list Event) (s : State) (m : N) :
  coherent s → Returned m ∈ fst (run es s) →
  promise (cached (snd (run es s))) = Some (Fulfilled m).
Proof.
  revert s. induction es as [|e es IH]; intros s H; [by intros ?%elem_of_nil|].
  simpl. intros [Hin|Hin]%elem_of_app.
  - apply run_fulfilled. by apply step_returned.
  - apply IH; [by apply step_coherent | done].
Qed.

(** [dbConnect] (db.js), over any history of a cold instance, however the
    calls overlap and whatever the URI is at each of them:
    [mongoose.connect] is called at most once, and all the calls that
    return, return the same instance. *)
Theorem dbConnect_dials_once (es : list Event) :
  (length (dialled (snd (run es cold))) ≤ 1)%nat
  ∧ ∀ m m', Returned m ∈ fst (run es cold) → Returned m' ∈ fst (run es cold) → m = m'.
Proof.
  assert (coherent cold) as C by done. split.
  - pose proof (run_coherent es cold C) as H. unfold coherent in H.
    destruct (promise _); [destruct H as [-> _]; lia | destruct H as [_ ->]; simpl; lia].
  - intros m m' H1 H2.
    apply (run_returned _ _ _ C) in H1. apply (run_returned _ _ _ C) in H2.
    congruence.
Qed.

Lemma dbConnect_dials_once_witness :
  (length (dialled (snd (run warm_up cold))) ≤ 1)%nat ∧ 7%N = 7%N.
Proof.
  destruct (dbConnect_dials_once warm_up) as [D R].
  split; [exact D|].
  apply R; vm_compute; listed.
Defined.

Lemma step_broken (e : Event) (s : State) :
  broken s →
  broken (snd (step e s)) ∧ dialled (snd (step e s)) = dialled s
  ∧ ∀ m, Returned m ∉ fst (step e s).
Proof.
  unfold broken. destruct s as [[c p] d], e as [uri|o|]; simpl; intros [-> ->].
  - unfold enter; simpl. repeat split. by intros m [=]%list_elem_of_singleton.
  - repeat split. intros m. apply not_elem_of_nil.
  - repeat split. by intros m [=]%list_elem_of_singleton.
Qed.

(** Once the one dial has failed, the rejected promise stays in the cache:
    whatever follows, no call returns an instance and [mongoose.connect]
    is not called again. *)
Theorem dbConnect_failure_sticks (es : list Event) (s : State) :
  broken s →
  dialled (snd (run es s)) = dialled s
  ∧ ∀ m, Returned m ∉ fst (run es s).
Proof.
  revert s. induction es as [|e es IH]; intros s B.
  - split; [done|]. intros m. apply not_elem_of_nil.
  - destruct (step_broken e s B) as (B' & D & R).
    destruct (IH _ B') as [D' R']. simpl. split; [congruence|].
    intros m [H|H]%elem_of_app; [by eapply R | by eapply R'].
Qed.

Lemma dbConnect_failure_sticks_witness :
  dialled (snd (run [Call (Some "mongodb://db.example.org/academy"); Resume]
                  (snd (run outage cold))))
  = dialled (snd (run outage cold))
  ∧ Returned 1 ∉ fst (run [Call (Some "mongodb://db.example.org/academy"); Resume]
                         (snd (run outage cold))).
Proof.
  destruct (dbConnect_failure_sticks
              [Call (Some "mongodb://db.example.org/academy"); Resume]
              (snd (run outage cold))) as [D R].
  - split; reflexivity.
  - split; [exact D | exact (R 1%N)].
Defined.
End DbConnectFacts.


(** The roster link is kept by enroll and unenroll only: a caller who
    writes a class into the enrolled-set of their own record through PUT
    /user/:id gets 200, the roster of the class is not touched, and the
    data is no longer consistent. *)
Theorem self_update_breaks_roster_link (req : Request) (w : World)
    (id c : N) (u : User) (cls : Class) (s : string) :
  reliable w →
  castObjectId (params_id req) = Some id → users w !! id = Some u →
  session req = Some (clerkId u) → clerkId u ≠ "" →
  classes w !! c = Some cls → id ∉ roster cls →
  body req = [("enrolledClasses", JArr [JStr s])] → castObjectId s = Some c →
  status (fst (PUT_user req w)) = 200%nat
  ∧ classes (snd (PUT_user req w)) = classes w
  ∧ ¬ linked (snd (PUT_user req w)).
Proof.
  intros R C U S Ne Hc Hr B Cs. unfold reliable in R.
  assert (String.eqb (clerkId u) "" = false) as Ne' by by apply String.eqb_neq.
  assert (isValid (params_id req) = true) as V by (unfold isValid; by rewrite C).
  assert (String.eqb (params_id req) "" = false) as V'.
  { apply String.eqb_neq. intros Z. rewrite Z in C. discriminate. }
  destruct (PUT_user req w) as [res w'] eqn:E. cbn [fst snd].
  unfold PUT_user in E. cbn [route] in E. unfold requireAuth in E. rewrite S, Ne' in E.
  unfold putUserHandler in E.
  run_with ltac:(reliably R;
                 rewrite ?B, ?C, ?U, ?V, ?V' in *;
                 cbn [fmap option_fmap option_map leanSelect fst snd negb orb] in *;
                 rewrite ?getField_clerkId_select, ?Ne', ?String.eqb_refl in *;
                 try discriminate).
  all: match goal with
       | H : applyUserUpdate _ _ _ _ = _ |- _ =>
           cbn [applyUserUpdate setFields setField fst snd String.eqb Ascii.eqb Bool.eqb
                castIds] in H;
           rewrite Cs in H; simplify_eq
       end.
  all: split; [done|]; split; [done|].
  all: intros L; apply Hr;
    apply (L id c (withEnrolled (λ _, [c]) u) cls);
    [simpl; by rewrite lookup_insert_eq | exact Hc | simpl; apply list_elem_of_here].
Qed.

Lemma self_update_breaks_roster_link_witness :
  ¬ linked (snd (PUT_user alice_rewrites_classes academy)).
Proof.
  apply (self_update_breaks_roster_link alice_rewrites_classes academy 1%N 161%N alice level3
           class_a); first [reflexivity | discriminate | constructor | apply not_elem_of_nil].
Defined.

(** GET /user for an admin or instructor, when no call fails: with no
    usable query parameter the answer is the caller's own record; with one,
    it is the first record that matches the filter, as the whole document
    (phone number and IdP id included), or 404 when none matches; and when
    [_id] is no ObjectId the status is 500 and nothing is changed. *)
Theorem get_user_privileged_lookup (req : Request) (w : World) (s : string) :
  reliable w → session req = Some s → s ≠ "" → privileged w s = true →
  (length (userFilter (query req)) = 0%nat →
   fst (GET_user req w) =
     match resolveRole w s with
     | Some p => mkResponse 200 (JObj (userDoc (fst p) (snd p)))
     | None => message 404 "User not found"
     end)
  ∧ (length (userFilter (query req)) ≠ 0%nat →
     filterCastable (userFilter (query req)) = true →
     fst (GET_user req w) =
       match List.find (userMatches (userFilter (query req))) (allUsers w) with
       | Some p => mkResponse 200 (JObj (userDoc (fst p) (snd p)))
       | None => message 404 "User not found"
       end)
  ∧ (length (userFilter (query req)) ≠ 0%nat →
     filterCastable (userFilter (query req)) = false →
     status (fst (GET_user req w)) = 500%nat
     ∧ sameStore w (snd (GET_user req w))).
Proof.
  intros R S Ne P. unfold reliable in R.
  assert (String.eqb s "" = false) as Ne' by by apply String.eqb_neq.
  destruct (GET_user req w) as [res w'] eqn:E. cbn [fst snd].
  unfold GET_user, route, requireAuth in E. rewrite S, Ne' in E.
  unfold getUserHandler, getMe, authUserId in E. cbn [auth query] in E. rewrite Ne' in E.
  fold (userFilter (query req)) in E.
  split; [|split].
  - intros L%Nat.eqb_eq. rewrite L in E.
    unfold User_findOne in E. cbn [filterCastable forallb fst snd String.eqb Ascii.eqb
      Bool.eqb andb] in E.
    run_with ltac:(reliably R;
                   rewrite ?findOne_clerkId, ?isAdminOrInstructor_resolve,
                     ?privileged_set_faults, ?P in *;
                   cbn [andb negb] in *; try discriminate).
    all: match goal with H : resolveRole _ ?s0 = ?r |- context [resolveRole ?w0 ?s0] =>
           change (resolveRole w0 s0 = r) in H; by rewrite H end.
  - intros L%Nat.eqb_neq F. rewrite L in E.
    unfold User_findOne in E. cbn [filterCastable forallb fst snd String.eqb Ascii.eqb
      Bool.eqb andb] in E. rewrite F in E.
    run_with ltac:(reliably R;
                   rewrite ?findOne_clerkId, ?isAdminOrInstructor_resolve,
                     ?privileged_set_faults, ?P in *;
                   cbn [andb negb] in *; try discriminate).
    all: match goal with
         | H : List.find _ (allUsers ?w1) = ?r |- context [List.find _ (allUsers ?w0)] =>
             change (allUsers w1) with (allUsers w0) in H; by rewrite H
         end.
  - intros L%Nat.eqb_neq F. rewrite L in E.
    unfold User_findOne in E. cbn [filterCastable forallb fst snd String.eqb Ascii.eqb
      Bool.eqb andb] in E. rewrite F in E.
    run_with ltac:(reliably R;
                   rewrite ?findOne_clerkId, ?isAdminOrInstructor_resolve,
                     ?privileged_set_faults, ?P in *;
                   cbn [andb negb] in *; try discriminate).
    all: split; [reflexivity | by repeat split].
Qed.

Lemma get_user_privileged_lookup_witness :
  fst (GET_user bob_looks_up_alice academy) = mkResponse 200 (JObj (userDoc 1 alice)).
Proof.
  destruct (get_user_privileged_lookup bob_looks_up_alice academy "user_bob")
    as (_ & H & _).
  - constructor.
  - reflexivity.
  - discriminate.
  - vm_compute. reflexivity.
  - rewrite H; [vm_compute; reflexivity | vm_compute; discriminate | vm_compute; reflexivity].
Defined.

(** * The window of GET /users *)

Section UsersPageFacts.
Import UsersPage.

Lemma cappedLimit_Fin (limit : num) :
  num_ltb (of_Z 0) limit = true →
  ∃ c, cappedLimit limit = Fin c ∧ (1 <= c)%Q ∧ (c <= 200)%Q.
Proof.
  unfold cappedLimit, Math_max, Math_min, of_Z.
  destruct limit as [| |q|]; try discriminate; intros _.
  - cbn [num_leb]. destruct (Qle_bool (inject_Z 1) q) eqn:E1.
    + cbn [num_leb]. destruct (Qle_bool (inject_Z 200) q) eqn:E2.
      * exists (inject_Z 200). split; [done|]. split; by apply Qle_bool_iff.
      * exists q. split; [done|].
        split; [by apply Qle_bool_iff | by apply Qle_bool_false].
    + cbn [num_leb]. exists (inject_Z 1). split; [done|]. split; by apply Qle_bool_iff.
  - exists (inject_Z 200). split; [done|]. split; by apply Qle_bool_iff.
Qed.

(** The test on page and limit in the second version of GET /users, and
    the limit and the skip computed when it holds: the limit lies between 1
    and 200, and from page 1 on the skip is not negative.  The test fails
    for a limit of 0 and for a page or a limit that is no number.  It holds
    for a page of one half with any positive limit, and the skip is then
    negative. *)
Theorem users_window_guards (page limit : num) :
  (paginated page limit = true →
   num_le (of_Z 1) (cappedLimit limit) ∧ num_le (cappedLimit limit) (of_Z 200)
   ∧ (num_le (of_Z 1) page → num_le (of_Z 0) (skip page limit)))
  ∧ paginated page (of_Z 0) = false
  ∧ paginated page NaN = false
  ∧ paginated NaN limit = false
  ∧ (num_ltb (of_Z 0) limit = true →
     paginated (Fin (1 # 2)) limit = true
     ∧ num_ltb (skip (Fin (1 # 2)) limit) (of_Z 0) = true).
Proof.
  split; [|split; [|split; [|split]]].
  - unfold paginated. intros H. repeat (apply andb_true_iff in H as [H ?]).
    destruct (cappedLimit_Fin limit) as (c & Ec & L1 & L2); [done|].
    unfold skip. rewrite Ec. unfold num_le, of_Z. cbn [num_leb].
    split; [by apply Qle_bool_iff|]. split; [by apply Qle_bool_iff|].
    destruct page as [| |p|]; try discriminate.
    + cbn [num_leb num_sub num_mul]. intros P%Qle_bool_iff.
      apply Qle_bool_iff. rewrite !Qred_correct.
      apply Qmult_le_0_compat.
      * unfold Qminus. rewrite <- (Qplus_opp_r (inject_Z 1)).
        by apply Qplus_le_l.
      * eapply Qle_trans; [|exact L1]. done.
    + intros _. cbn [num_sub num_mul num_sign].
      assert (Qsign c = 1%Z) as ->.
      { unfold Qsign. apply Z.sgn_pos. unfold Qle in L1. simpl in L1. lia. }
      done.
  - unfold paginated. by rewrite !andb_false_r.
  - unfold paginated. by rewrite andb_false_r.
  - done.
  - intros L. split.
    + unfold paginated. rewrite L.
      destruct limit; try discriminate; reflexivity.
    + destruct (cappedLimit_Fin limit L) as (c & Ec & L1 & L2).
      unfold skip. rewrite Ec. unfold of_Z. cbn [num_sub num_mul num_ltb].
      apply negb_true_iff. apply not_true_is_false. intros Q%Qle_bool_iff.
      rewrite !Qred_correct in Q.
      unfold Qle, Qmult, Qminus, Qplus, Qopp, inject_Z in *. simpl in *. nia.
Qed.

Lemma users_window_guards_witness :
  num_le (cappedLimit (of_Z 10000)) (of_Z 200)
  ∧ num_le (of_Z 0) (skip (of_Z 3) (of_Z 10000)).
Proof.
  destruct (users_window_guards (of_Z 3) (of_Z 10000)) as [H _].
  destruct H as (_ & U & S); [reflexivity|].
  split; [exact U | apply S; reflexivity].
Defined.
End UsersPageFacts.
